(** * BackpropagationTutorial: a two-layer sigmoid network trained by
      batch gradient descent, with hand-written reverse-mode gradients.

    The development embeds the code of the notebook
    [BackpropagationTutorial.ipynb]:

    - [forward_propagation]  (cell "Forward propagation"),
    - [back_propagation]     (cell "Backpropagation"),
    - the training loop      (cell "Training: gradient descent"),
    - [generate_dataset], [generate_xor_like_dataset] and the cell that
      creates the parameters (section 9c),
    - [visualization]        (section 9d).

    Modelling choices.

    - Scalars are real numbers ([R] of the standard library): the
      arithmetic of the embedding is exact, rounding of IEEE doubles is
      not modelled.  [sigmoid] is [scipy.special.expit], i.e.
      [1 / (1 + exp (- x))], and [np.log] is [ln].
    - A NumPy value is a [Scalar] (a Python number or a NumPy scalar), a
      one-dimensional array [Vec] or a two-dimensional array [Mat] stored
      as a list of rows together with its number of columns.  Shape
      errors of NumPy are values of [exn].
    - The [weights] dictionary is a mutable Python object shared between
      the functions and the training loop: it lives in a store indexed by
      references, and every function runs in a state-and-exception monad
      over that store.  The state also counts the invocations of
      [forward_propagation].
    - The global generator of [np.random] is any type with a uniform and
      a standard normal sampler (class [RandomState]); what is proved of
      the data generators holds for every such generator.
    - The calls of [matplotlib.pyplot] are events appended to a drawing;
      [visualization] runs in a monad over the store and the drawing.
    - What depends on rounding is stated over binary64: section 9e has
      [forward_propagation] and [back_propagation] once more, over the
      floating-point numbers of the kernel. *)

From Stdlib Require Import Reals Lra Lia List Arith Factorial String.
From Stdlib Require Floats.PrimFloat.
From stdpp Require Import base gmap strings.
Import ListNotations.

Local Open Scope string_scope.
Local Open Scope list_scope.
Local Open Scope R_scope.

(** * 1. The numeric tensor substrate (the part of NumPy the code uses) *)

(** Exceptions raised by Python and NumPy in the modelled code. *)
Inductive exn :=
| KeyError (key : string)
| TypeError
| IndexError
| ZeroDivisionError
| ValueError_dot (s1 s2 : list nat)
| ValueError_broadcast (s1 s2 : list nat)
| ValueError_reshape (size : nat) (newshape : list nat).

Inductive result (A : Type) :=
| Ok (a : A)
| Raise (e : exn).
Arguments Ok {A} a.
Arguments Raise {A} e.

(** Sequencing of operations that may raise. *)
Definition rbind {A B} (r : result A) (k : A -> result B) : result B :=
  match r with
  | Ok a => k a
  | Raise e => Raise e
  end.

Notation "'let?' x ':=' r 'in' k" := (rbind r (fun x => k))
  (at level 10, x pattern, r at level 100, k at level 200).

Inductive ndarray :=
| Scalar (x : R)
| Vec (v : list R)
| Mat (ncols : nat) (rows : list (list R)).

(** [a.shape] *)
Definition shape (a : ndarray) : list nat :=
  match a with
  | Scalar _ => []
  | Vec v => [length v]
  | Mat c m => [length m; c]
  end.

(** NumPy arrays are rectangular. *)
Definition wf (a : ndarray) : Prop :=
  match a with
  | Mat c m => Forall (fun r => length r = c) m
  | _ => True
  end.

(** [a.shape[0]] *)
Definition shape0 (a : ndarray) : result nat :=
  match a with
  | Scalar _ => Raise IndexError
  | Vec v => Ok (length v)
  | Mat _ m => Ok (length m)
  end.

Fixpoint zip_with {A B C} (f : A -> B -> C) (u : list A) (v : list B) : list C :=
  match u, v with
  | x :: u', y :: v' => f x y :: zip_with f u' v'
  | _, _ => []
  end.

Definition Rsum_list (l : list R) : R := fold_right Rplus 0 l.

(** The inner product of two rows. *)
Definition inner (u v : list R) : R := Rsum_list (zip_with Rmult u v).

(** Column [j] of a list of rows, and the list of the [c] columns. *)
Definition column (j : nat) (m : list (list R)) : list R :=
  map (fun r => nth j r 0) m.

Definition columns (c : nat) (m : list (list R)) : list (list R) :=
  map (fun j => column j m) (seq 0 c).

(** [a.T]: the transpose of a matrix; a no-op below two dimensions. *)
Definition T (a : ndarray) : ndarray :=
  match a with
  | Mat c m => Mat (length m) (columns c m)
  | _ => a
  end.

(** ** Broadcasting *)

(** The broadcast of two dimensions: equal, or one of them is 1. *)
Definition bdim (m n : nat) : option nat :=
  if (m =? n)%nat then Some m
  else if (m =? 1)%nat then Some n
  else if (n =? 1)%nat then Some m
  else None.

(** Stretch a dimension of extent 1 to extent [n]. *)
Definition stretch {A} (d : A) (n : nat) (l : list A) : list A :=
  if (length l =? n)%nat then l else repeat (hd d l) n.

Definition brow (f : R -> R -> R) (n : nat) (u v : list R) : list R :=
  zip_with f (stretch 0 n u) (stretch 0 n v).

(** A binary universal function with NumPy's broadcasting rule. *)
Definition ufunc2 (f : R -> R -> R) (a b : ndarray) : result ndarray :=
  match a, b with
  | Scalar x, Scalar y => Ok (Scalar (f x y))
  | Scalar x, Vec v => Ok (Vec (map (f x) v))
  | Scalar x, Mat c m => Ok (Mat c (map (map (f x)) m))
  | Vec u, Scalar y => Ok (Vec (map (fun x => f x y) u))
  | Mat c m, Scalar y => Ok (Mat c (map (map (fun x => f x y)) m))
  | Vec u, Vec v =>
      match bdim (length u) (length v) with
      | Some n => Ok (Vec (brow f n u v))
      | None => Raise (ValueError_broadcast (shape a) (shape b))
      end
  | Mat c m, Vec v =>
      match bdim c (length v) with
      | Some n => Ok (Mat n (map (fun r => brow f n r v) m))
      | None => Raise (ValueError_broadcast (shape a) (shape b))
      end
  | Vec u, Mat c m =>
      match bdim (length u) c with
      | Some n => Ok (Mat n (map (fun r => brow f n u r) m))
      | None => Raise (ValueError_broadcast (shape a) (shape b))
      end
  | Mat c m, Mat c' m' =>
      match bdim (length m) (length m'), bdim c c' with
      | Some r, Some n =>
          Ok (Mat n (zip_with (brow f n) (stretch [] r m) (stretch [] r m')))
      | _, _ => Raise (ValueError_broadcast (shape a) (shape b))
      end
  end.

(** A unary universal function. *)
Definition ufunc1 (f : R -> R) (a : ndarray) : ndarray :=
  match a with
  | Scalar x => Scalar (f x)
  | Vec v => Vec (map f v)
  | Mat c m => Mat c (map (map f) m)
  end.

(** The elements of an array in row-major order. *)
Definition ravel (a : ndarray) : list R :=
  match a with
  | Scalar x => [x]
  | Vec v => v
  | Mat _ m => concat m
  end.

(** The functions of the [numpy] name space that the notebook calls. *)
Module np.

Definition add := ufunc2 Rplus.
Definition subtract := ufunc2 Rminus.
Definition multiply := ufunc2 Rmult.
Definition divide := ufunc2 Rdiv.

Definition negative := ufunc1 Ropp.
Definition log := ufunc1 ln.

(** ** [np.dot] *)
Definition dot (a b : ndarray) : result ndarray :=
  match a, b with
  | Scalar _, _ | _, Scalar _ => multiply a b
  | Vec u, Vec v =>
      if (length u =? length v)%nat then Ok (Scalar (inner u v))
      else Raise (ValueError_dot (shape a) (shape b))
  | Mat c m, Vec v =>
      if (c =? length v)%nat then Ok (Vec (map (fun r => inner r v) m))
      else Raise (ValueError_dot (shape a) (shape b))
  | Vec u, Mat c m =>
      if (length u =? length m)%nat then Ok (Vec (map (inner u) (columns c m)))
      else Raise (ValueError_dot (shape a) (shape b))
  | Mat c m, Mat c' m' =>
      if (c =? length m')%nat
      then Ok (Mat c' (map (fun r => map (inner r) (columns c' m')) m))
      else Raise (ValueError_dot (shape a) (shape b))
  end.

(** [np.sum(a)] *)
Definition sum (a : ndarray) : ndarray := Scalar (Rsum_list (ravel a)).

(** [np.ones(n)] *)
Definition ones (n : nat) : ndarray := Vec (repeat 1 n).

End np.

(** [a -= b]: a number is rebound to [a - b]; an array is updated in
    place, so the broadcast of the operands must have the shape of [a]. *)
Definition isub (a b : ndarray) : result ndarray :=
  match a with
  | Scalar _ => np.subtract a b
  | _ =>
      match np.subtract a b with
      | Ok r =>
          if decide (shape r = shape a) then Ok r
          else Raise (ValueError_broadcast (shape a) (shape b))
      | Raise e => Raise e
      end
  end.

(** [a.reshape(r, c)] *)
Definition reshape (a : ndarray) (r c : nat) : result ndarray :=
  let data := ravel a in
  if (length data =? r * c)%nat
  then Ok (Mat c (map (fun i => firstn c (skipn (i * c) data)) (seq 0 r)))
  else Raise (ValueError_reshape (length data) [r; c]).

(** Python's true division [1 / n] of integers. *)
Definition py_inv (n : nat) : result R :=
  match n with
  | O => Raise ZeroDivisionError
  | _ => Ok (1 / INR n)
  end.

(** [scipy.special.expit] *)
Definition expit (x : R) : R := 1 / (1 + exp (- x)).
Definition sigmoid : ndarray -> ndarray := ufunc1 expit.

(** * 2. The parameter store and the monad of the notebook's code *)

(** A Python [dict] with string keys, in insertion order. *)
Definition dict := list (string * ndarray).

Fixpoint dict_get (d : dict) (k : string) : result ndarray :=
  match d with
  | [] => Raise (KeyError k)
  | (k', v) :: d' => if String.eqb k' k then Ok v else dict_get d' k
  end.

(** [d[k] = v]: an existing key keeps its position, a new key is appended. *)
Fixpoint dict_set (d : dict) (k : string) (v : ndarray) : dict :=
  match d with
  | [] => [(k, v)]
  | (k', v') :: d' =>
      if String.eqb k' k then (k', v) :: d' else (k', v') :: dict_set d' k v
  end.

Definition dict_keys (d : dict) : list string := map fst d.

(** References to dictionaries. *)
Definition loc := nat.

Record state := mkState {
  store : gmap loc dict;      (* the dictionaries that are alive *)
  fp_calls : nat              (* invocations of [forward_propagation] so far *)
}.

Definition M (A : Type) : Type := state -> state * result A.

Definition ret {A} (a : A) : M A := fun s => (s, Ok a).

Definition bind {A B} (c : M A) (k : A -> M B) : M B :=
  fun s =>
    match c s with
    | (s', Ok a) => k a s'
    | (s', Raise e) => (s', Raise e)
    end.

Notation "'let*' x ':=' c 'in' k" := (bind c (fun x => k))
  (at level 10, x pattern, c at level 100, k at level 200).

(** A pure NumPy operation, whose exception (if any) propagates. *)
Definition lift {A} (r : result A) : M A := fun s => (s, r).

(** [weights[k]] *)
Definition getitem (weights : loc) (k : string) : M ndarray :=
  fun s =>
    match store s !! weights with
    | Some d => (s, dict_get d k)
    | None => (s, Raise TypeError)
    end.

(** [weights[k] = v] *)
Definition setitem (weights : loc) (k : string) (v : ndarray) : M unit :=
  fun s =>
    match store s !! weights with
    | Some d => (mkState (<[weights := dict_set d k v]> (store s)) (fp_calls s), Ok tt)
    | None => (s, Raise TypeError)
    end.

(** The keys of [weights], as [for weight_name in weights] visits them. *)
Definition keys (weights : loc) : M (list string) :=
  fun s =>
    match store s !! weights with
    | Some d => (s, Ok (dict_keys d))
    | None => (s, Raise TypeError)
    end.

(** Entering [forward_propagation] is recorded in the state. *)
Definition enter_forward_propagation : M unit :=
  fun s => (mkState (store s) (S (fp_calls s)), Ok tt).

(** * 3. The code of the notebook *)

(**
<<
def forward_propagation(X, weights):
    Z1 = np.dot(X, weights['W1'].T)  + weights['b1']
    H = sigmoid(Z1)
    Z2 = np.dot(H, weights['W2'].T) + weights['b2']
    Y = sigmoid(Z2)
    return Y, Z2, H, Z1
>> *)
Definition forward_propagation (X : ndarray) (weights : loc)
  : M (ndarray * ndarray * ndarray * ndarray) :=
  let* _ := enter_forward_propagation in
  let* W1 := getitem weights "W1" in
  let* XW1 := lift (np.dot X (T W1)) in
  let* b1 := getitem weights "b1" in
  let* Z1 := lift (np.add XW1 b1) in
  let H := sigmoid Z1 in
  let* W2 := getitem weights "W2" in
  let* HW2 := lift (np.dot H (T W2)) in
  let* b2 := getitem weights "b2" in
  let* Z2 := lift (np.add HW2 b2) in
  let Y := sigmoid Z2 in
  ret (Y, Z2, H, Z1).

(** [1 - a] *)
Definition one_minus (a : ndarray) : result ndarray := np.subtract (Scalar 1) a.

(** The statements of [back_propagation], one definition per line of the
    source; [a * b] on arrays is [np.multiply], [a - b] is [np.subtract],
    and the operands of every operator are evaluated from left to right.

    [L = (1/N_points) * np.sum(-Y_T * np.log(Y) - (1 - Y_T) * np.log(1 - Y))] *)
Definition line_L (N_points : nat) (Y Y_T : ndarray) : result ndarray :=
  let? invN := py_inv N_points in
  let? t1 := np.multiply (np.negative Y_T) (np.log Y) in
  let? omYT := one_minus Y_T in
  let? omY := one_minus Y in
  let? t2 := np.multiply omYT (np.log omY) in
  let? t := np.subtract t1 t2 in
  np.multiply (Scalar invN) (np.sum t).

(** [dLdY = 1/N_points * np.divide(Y - Y_T, np.multiply(Y, 1-Y))] *)
Definition line_dLdY (N_points : nat) (Y Y_T : ndarray) : result ndarray :=
  let? invN := py_inv N_points in
  let? YmYT := np.subtract Y Y_T in
  let? omY := one_minus Y in
  let? YomY := np.multiply Y omY in
  let? q := np.divide YmYT YomY in
  np.multiply (Scalar invN) q.

(** [sigmoid(Z)*(1-sigmoid(Z))] *)
Definition sigmoid_prime (Z : ndarray) : result ndarray :=
  let? oms := one_minus (sigmoid Z) in
  np.multiply (sigmoid Z) oms.

(** [dLdZ2 = np.multiply(dLdY, (sigmoid(Z2)*(1-sigmoid(Z2))))] *)
Definition line_dLdZ2 (dLdY Z2 : ndarray) : result ndarray :=
  let? ds := sigmoid_prime Z2 in
  np.multiply dLdY ds.

(** [dLdW2 = np.dot(H.T, dLdZ2)] *)
Definition line_dLdW2 (H dLdZ2 : ndarray) : result ndarray :=
  np.dot (T H) dLdZ2.

(** [dLdb2 = np.dot(dLdZ2.T, np.ones(N_points))] *)
Definition line_dLdb2 (dLdZ2 : ndarray) (N_points : nat) : result ndarray :=
  np.dot (T dLdZ2) (np.ones N_points).

(** [dLdH = np.dot(dLdZ2.reshape(N_points, 1), weights['W2'].reshape(1, 3))] *)
Definition line_dLdH (dLdZ2 : ndarray) (N_points : nat) (weights : loc)
  : M ndarray :=
  let* dLdZ2col := lift (reshape dLdZ2 N_points 1) in
  let* W2 := getitem weights "W2" in
  let* W2row := lift (reshape W2 1 3) in
  lift (np.dot dLdZ2col W2row).

(** [dLdZ1 = np.multiply(dLdH, np.multiply(sigmoid(Z1), (1-sigmoid(Z1))))] *)
Definition line_dLdZ1 (dLdH Z1 : ndarray) : result ndarray :=
  let? ds := sigmoid_prime Z1 in
  np.multiply dLdH ds.

(** [dLdW1 = np.dot(dLdZ1.T, X)] *)
Definition line_dLdW1 (dLdZ1 X : ndarray) : result ndarray :=
  np.dot (T dLdZ1) X.

(** [dLdb1 = np.dot(dLdZ1.T, np.ones(N_points))] *)
Definition line_dLdb1 (dLdZ1 : ndarray) (N_points : nat) : result ndarray :=
  np.dot (T dLdZ1) (np.ones N_points).

(**
<<
def back_propagation(X, Y_T, weights):
    N_points = X.shape[0]
    # forward propagation
    Y, Z2, H, Z1 = forward_propagation(X, weights)
    L = ...
    # back propagation
    dLdY = ...
    dLdZ2 = ...
    dLdW2 = ...
    dLdb2 = ...
    dLdH = ...
    dLdZ1 = ...
    dLdW1 = ...
    dLdb1 = ...
    gradients = {'W1': dLdW1, 'b1': dLdb1, 'W2': dLdW2, 'b2': dLdb2}
    return gradients, L
>> *)
Definition back_propagation (X Y_T : ndarray) (weights : loc)
  : M (dict * ndarray) :=
  let* N_points := lift (shape0 X) in
  let* (Y, Z2, H, Z1) := forward_propagation X weights in
  let* L := lift (line_L N_points Y Y_T) in
  let* dLdY := lift (line_dLdY N_points Y Y_T) in
  let* dLdZ2 := lift (line_dLdZ2 dLdY Z2) in
  let* dLdW2 := lift (line_dLdW2 H dLdZ2) in
  let* dLdb2 := lift (line_dLdb2 dLdZ2 N_points) in
  let* dLdH := line_dLdH dLdZ2 N_points weights in
  let* dLdZ1 := lift (line_dLdZ1 dLdH Z1) in
  let* dLdW1 := lift (line_dLdW1 dLdZ1 X) in
  let* dLdb1 := lift (line_dLdb1 dLdZ1 N_points) in
  let gradients : dict :=
    [("W1", dLdW1); ("b1", dLdb1); ("W2", dLdW2); ("b2", dLdb2)] in
  ret (gradients, L).

(**
<<
    for weight_name in weights:
        weights[weight_name] -= epsilon * gradients[weight_name]
>> *)
Fixpoint update (names : list string) (weights : loc) (epsilon : R)
    (gradients : dict) : M unit :=
  match names with
  | [] => ret tt
  | weight_name :: names' =>
      let* w := getitem weights weight_name in
      let* g := lift (dict_get gradients weight_name) in
      let* step := lift (np.multiply (Scalar epsilon) g) in
      let* w' := lift (isub w step) in
      let* _ := setitem weights weight_name w' in
      update names' weights epsilon gradients
  end.

(**
<<
losses = []
for epoch in range(epochs):
    gradients, L = back_propagation(X, Y, weights)
    for weight_name in weights:
        weights[weight_name] -= epsilon * gradients[weight_name]
    losses.append(L)
>> *)
Definition epoch_body (X Y : ndarray) (weights : loc) (epsilon : R)
    (losses : list ndarray) : M (list ndarray) :=
  let* (gradients, L) := back_propagation X Y weights in
  let* names := keys weights in
  let* _ := update names weights epsilon gradients in
  ret (losses ++ [L]).

Fixpoint training_loop (epochs : nat) (X Y : ndarray) (weights : loc)
    (epsilon : R) (losses : list ndarray) : M (list ndarray) :=
  match epochs with
  | O => ret losses
  | S epochs' =>
      let* losses' := epoch_body X Y weights epsilon losses in
      training_loop epochs' X Y weights epsilon losses'
  end.

Definition train (X Y : ndarray) (weights : loc) (epochs : nat) (epsilon : R)
  : M (list ndarray) :=
  training_loop epochs X Y weights epsilon [].

(** * 4. Arrays given by their entries *)

(** [tabulate n f] is [[f 0; ...; f (n-1)]]; [Rsum n f] is the sum of
    these values. *)
Definition tabulate {A} (n : nat) (f : nat -> A) : list A := map f (seq 0 n).
Definition Rsum (n : nat) (f : nat -> R) : R := Rsum_list (tabulate n f).

Definition vec_of (n : nat) (f : nat -> R) : ndarray := Vec (tabulate n f).
Definition mat_of (r c : nat) (f : nat -> nat -> R) : ndarray :=
  Mat c (tabulate r (fun i => tabulate c (f i))).

(** Entry [i] of a vector and entry [(i, j)] of a list of rows. *)
Definition at1 (v : list R) (i : nat) : R := nth i v 0.
Definition at2 (m : list (list R)) (i j : nat) : R := nth j (nth i m []) 0.

(** * 5. The network in the words of the specification

    The definitions [spec_...] below restate sections 4.1 to 4.4 of the
    specification entry by entry, as sums over indices; they are not used
    by the code of section 3, and the lemmas [forward_propagation_run]
    and [back_propagation_run] compare the code with them. *)

(** The canonical parameter dictionary of the notebook,
    [{'W1': W1, 'b1': b1, 'W2': W2, 'b2': b2}], for input width [d]. *)
Definition params (d : nat) (W1 : list (list R)) (b1 W2 : list R) (b2 : R) : dict :=
  [("W1", Mat d W1); ("b1", Vec b1); ("W2", Vec W2); ("b2", Scalar b2)].

(** Shape consistency of a parameter set of hidden width [h] for inputs
    of width [d]. *)
Definition consistent (d h : nat) (W1 : list (list R)) (b1 W2 : list R) : Prop :=
  length W1 = h /\ wf (Mat d W1) /\ length b1 = h /\ length W2 = h.

(** An input batch of [N] examples of width [d]. *)
Definition batch (N d : nat) (X : list (list R)) : Prop :=
  length X = N /\ wf (Mat d X).

Definition expit' (x : R) : R := expit x * (1 - expit x).

Section Network.
Variables (N d h : nat).
Variables (X W1 : list (list R)) (b1 W2 : list R) (b2 : R) (Y_T : list R).

(** Forward trace, entry by entry. *)
Definition spec_Z1 (n j : nat) : R :=
  Rsum d (fun k => at2 X n k * at2 W1 j k) + at1 b1 j.
Definition spec_H (n j : nat) : R := expit (spec_Z1 n j).
Definition spec_Z2 (n : nat) : R :=
  Rsum h (fun j => spec_H n j * at1 W2 j) + b2.
Definition spec_Y (n : nat) : R := expit (spec_Z2 n).

(** Batch-mean cross-entropy. *)
Definition spec_L : R :=
  1 / INR N *
  Rsum N (fun n => - at1 Y_T n * ln (spec_Y n)
                   - (1 - at1 Y_T n) * ln (1 - spec_Y n)).

(** The chain-rule stages 1 to 6. *)
Definition spec_dLdY (n : nat) : R :=
  1 / INR N * ((spec_Y n - at1 Y_T n) / (spec_Y n * (1 - spec_Y n))).
Definition spec_dLdZ2 (n : nat) : R := spec_dLdY n * expit' (spec_Z2 n).
Definition spec_dLdW2 (j : nat) : R :=
  Rsum N (fun n => spec_H n j * spec_dLdZ2 n).
Definition spec_dLdb2 : R := Rsum N spec_dLdZ2.
Definition spec_dLdH (n j : nat) : R := spec_dLdZ2 n * at1 W2 j.
Definition spec_dLdZ1 (n j : nat) : R := spec_dLdH n j * expit' (spec_Z1 n j).
Definition spec_dLdW1 (j k : nat) : R :=
  Rsum N (fun n => spec_dLdZ1 n j * at2 X n k).
Definition spec_dLdb1 (j : nat) : R :=
  Rsum N (fun n => spec_dLdZ1 n j).

Definition spec_gradients : dict :=
  [("W1", mat_of h d spec_dLdW1); ("b1", vec_of h spec_dLdb1);
   ("W2", vec_of h spec_dLdW2); ("b2", Scalar spec_dLdb2)].
End Network.

(** The outcome of [back_propagation] on a well-shaped batch and a
    shape-consistent parameter set of hidden width [h]. *)
Definition back_propagation_outcome (N d h : nat) X W1 b1 W2 b2 Y_T
  : result (dict * ndarray) :=
  if decide (h = 3%nat)
  then Ok (spec_gradients N d h X W1 b1 W2 b2 Y_T,
           Scalar (spec_L N d h X W1 b1 W2 b2 Y_T))
  else Raise (ValueError_reshape h [1%nat; 3%nat]).

(** A parameter set, and the dictionary that holds it. *)
Record pset := mkPset {
  pW1 : list (list R);
  pb1 : list R;
  pW2 : list R;
  pb2 : R
}.

Definition params_of (d : nat) (p : pset) : dict :=
  params d (pW1 p) (pb1 p) (pW2 p) (pb2 p).

Definition consistent_pset (d h : nat) (p : pset) : Prop :=
  consistent d h (pW1 p) (pb1 p) (pW2 p).

Section Descent.
Variables (N d : nat) (epsilon : R) (X : list (list R)) (Y_T : list R).

(** The loss of a parameter set on the data set (specification, 4.2). *)
Definition loss_of (p : pset) : R :=
  spec_L N d 3 X (pW1 p) (pb1 p) (pW2 p) (pb2 p) Y_T.

(** [P <- P - epsilon * dL/dP] for each of the four tensors
    (specification, 4.4). *)
Definition descent_step (p : pset) : pset :=
  let W1 := pW1 p in let b1 := pb1 p in
  let W2 := pW2 p in let b2 := pb2 p in
  mkPset
    (tabulate 3 (fun j => tabulate d (fun k =>
       at2 W1 j k - epsilon * spec_dLdW1 N d 3 X W1 b1 W2 b2 Y_T j k)))
    (tabulate 3 (fun j =>
       at1 b1 j - epsilon * spec_dLdb1 N d 3 X W1 b1 W2 b2 Y_T j))
    (tabulate 3 (fun j =>
       at1 W2 j - epsilon * spec_dLdW2 N d 3 X W1 b1 W2 b2 Y_T j))
    (b2 - epsilon * spec_dLdb2 N d 3 X W1 b1 W2 b2 Y_T).

(** The parameters after [i] updates. *)
Definition params_after (i : nat) (p : pset) : pset := Nat.iter i descent_step p.
End Descent.

(** * 6. States and effects *)

(** The state after [forward_propagation] has been entered once more. *)
Definition entered (s : state) : state := mkState (store s) (S (fp_calls s)).

(** The state in which the dictionary at [weights] has been replaced. *)
Definition set_weights (weights : loc) (dct : dict) (s : state) : state :=
  mkState (<[weights := dct]> (store s)) (fp_calls s).

(** A computation that neither writes the store nor enters
    [forward_propagation]. *)
Definition reads_only {A} (c : M A) : Prop := forall s, fst (c s) = s.

(** * 7. The clamping policy of the specification *)



(** * 8. The scenario of the specification *)

(** [np.zeros((3, 2))] and [np.zeros(3)] *)
Definition zeros32 : list (list R) := [[0; 0]; [0; 0]; [0; 0]].
Definition zeros3 : list R := [0; 0; 0].

(** The scenario of the specification: one example [[1, 0]], all
    parameters zero, in a store that holds only the parameter dictionary. *)
Definition scenario_X : list (list R) := [[1; 0]].
Definition scenario_params : dict := params 2 zeros32 zeros3 zeros3 0.
Definition scenario_state : state := mkState {[ 0%nat := scenario_params ]} 0.

(** The all-zero parameter set of the scenario. *)
Definition scenario_pset : pset := mkPset zeros32 zeros3 zeros3 0.

(** * 9. The exponential series *)

(** [pow_fact x n] is [x ^ n / n!], by the recurrence of its terms: the
    partial sums of the exponential series enclose [ln 2]. *)
Fixpoint pow_fact (x : R) (n : nat) : R :=
  match n with
  | O => 1
  | S k => pow_fact x k * x / INR (S k)
  end.

(** * 9b. Further definitions: perturbed parameters *)

(** The parameter set [p] with one entry replaced by [t]: the paths along
    which the partial derivatives of the loss are taken. *)
Definition with_b2 (p : pset) (t : R) : pset :=
  mkPset (pW1 p) (pb1 p) (pW2 p) t.
Definition with_W2 (p : pset) (j : nat) (t : R) : pset :=
  mkPset (pW1 p) (pb1 p) (<[j := t]> (pW2 p)) (pb2 p).
Definition with_b1 (p : pset) (j : nat) (t : R) : pset :=
  mkPset (pW1 p) (<[j := t]> (pb1 p)) (pW2 p) (pb2 p).
Definition with_W1 (p : pset) (j k : nat) (t : R) : pset :=
  mkPset (<[j := <[k := t]> (nth j (pW1 p) [])]> (pW1 p)) (pb1 p) (pW2 p) (pb2 p).

(** From [s] to [s'] the dictionary at [weights] keeps its keys, in their
    order, and the count of forward passes does not decrease. *)
Definition same_frame (weights : loc) (s s' : state) : Prop :=
  (store s !! weights = None -> store s' !! weights = None) /\
  (forall dct, store s !! weights = Some dct ->
     exists dct', store s' !! weights = Some dct'
                  /\ dict_keys dct' = dict_keys dct) /\
  (fp_calls s <= fp_calls s')%nat.

(** * 9c. The random number generator and the data generators *)

(** The global generator of [np.random], by the two samplers that the
    calls of the notebook come down to: a uniform draw from [[0, 1)] and a
    standard normal draw, each returning the next state of the generator. *)
Class RandomState (G : Type) := {
  random_sample : G -> R * G;
  standard_normal : G -> R * G
}.

(** Exceptions of the cells that build the data: those of the tensor
    operations above, and those of [np.concatenate]. *)
Inductive gen_exn :=
| NumPyError (e : exn)
| ValueError_concatenate (s1 s2 : list nat)
| AxisError (axis ndim : nat).

Inductive gresult (A : Type) :=
| GOk (a : A)
| GRaise (e : gen_exn).
Arguments GOk {A} a.
Arguments GRaise {A} e.

(** [np.cos], [np.sin], [np.full((n,), v)], [np.zeros(n)] *)
Definition np_cos : ndarray -> ndarray := ufunc1 cos.
Definition np_sin : ndarray -> ndarray := ufunc1 sin.
Definition full (n : nat) (v : R) : ndarray := Vec (repeat v n).
Definition zeros (n : nat) : ndarray := Vec (repeat 0 n).

(** [np.concatenate((a, b), axis)] *)
Definition concatenate (a b : ndarray) (axis : nat) : gresult ndarray :=
  match a, b with
  | Vec u, Vec v =>
      match axis with
      | O => GOk (Vec (u ++ v))
      | _ => GRaise (AxisError axis 1)
      end
  | Mat c m, Mat c' m' =>
      match axis with
      | O =>
          if (c =? c')%nat then GOk (Mat c (m ++ m'))
          else GRaise (ValueError_concatenate (shape a) (shape b))
      | 1%nat =>
          if (length m =? length m')%nat
          then GOk (Mat (c + c') (zip_with (@app R) m m'))
          else GRaise (ValueError_concatenate (shape a) (shape b))
      | _ => GRaise (AxisError axis 2)
      end
  | _, _ => GRaise (ValueError_concatenate (shape a) (shape b))
  end.

Section Generators.
Context {G : Type} `{RandomState G}.

(** Computations that advance the generator and may raise. *)
Definition Gen (A : Type) : Type := G -> G * gresult A.

Definition gret {A} (a : A) : Gen A := fun g => (g, GOk a).

Definition gbind {A B} (c : Gen A) (k : A -> Gen B) : Gen B :=
  fun g =>
    match c g with
    | (g', GOk a) => k a g'
    | (g', GRaise e) => (g', GRaise e)
    end.

Definition glift {A} (r : result A) : Gen A :=
  fun g => (g, match r with Ok a => GOk a | Raise e => GRaise (NumPyError e) end).

Definition gtry {A} (r : gresult A) : Gen A := fun g => (g, r).

(** [size] successive draws of a sampler. *)
Fixpoint sample (f : G -> R * G) (size : nat) (g : G) : G * list R :=
  match size with
  | O => (g, [])
  | S n =>
      let (x, g1) := f g in
      let (g2, xs) := sample f n g1 in
      (g2, x :: xs)
  end.

(** [np.random.uniform(low, high, size=size)] *)
Definition uniform (low high : R) (size : nat) : Gen ndarray :=
  fun g =>
    let (g', us) := sample random_sample size g in
    (g', GOk (Vec (map (fun u => low + (high - low) * u) us))).

(** [np.random.normal(loc, scale, size=size)] *)
Definition normal (loc scale : R) (size : nat) : Gen ndarray :=
  fun g =>
    let (g', zs) := sample standard_normal size g in
    (g', GOk (Vec (map (fun z => loc + scale * z) zs))).

(** [np.random.randn(n)] and [np.random.randn(r, c)] *)
Definition randn (n : nat) : Gen ndarray :=
  fun g => let (g', zs) := sample standard_normal n g in (g', GOk (Vec zs)).

Definition randn2 (r c : nat) : Gen ndarray :=
  fun g =>
    let (g', zs) := sample standard_normal (r * c) g in
    glift (reshape (Vec zs) r c) g'.

End Generators.

Notation "'let+' x ':=' c 'in' k" := (gbind c (fun x => k))
  (at level 10, x pattern, c at level 100, k at level 200).

Section GeneratorCode.
Context {G : Type} `{RandomState G}.

(** [generate_dataset(N_points)]: two classes of [N_points // 2] points
    each, given by a radius and an angle. *)
Definition generate_dataset (N_points : nat) : Gen (ndarray * ndarray) :=
  (* 1 class *)
  let+ radiuses := uniform 0 (5 / 10) (N_points / 2) in
  let+ angles := uniform 0 (2 * PI) (N_points / 2) in
  let+ r_cos := glift (np.multiply radiuses (np_cos angles)) in
  let+ x_1 := glift (reshape r_cos (N_points / 2) 1) in
  let+ r_sin := glift (np.multiply radiuses (np_sin angles)) in
  let+ x_2 := glift (reshape r_sin (N_points / 2) 1) in
  let+ X_class_1 := gtry (concatenate x_1 x_2 1) in
  let Y_class_1 := full (N_points / 2) 1 in
  (* 0 class *)
  let+ radiuses := uniform (6 / 10) 1 (N_points / 2) in
  let+ angles := uniform 0 (2 * PI) (N_points / 2) in
  let+ r_cos := glift (np.multiply radiuses (np_cos angles)) in
  let+ x_1 := glift (reshape r_cos (N_points / 2) 1) in
  let+ r_sin := glift (np.multiply radiuses (np_sin angles)) in
  let+ x_2 := glift (reshape r_sin (N_points / 2) 1) in
  let+ X_class_0 := gtry (concatenate x_1 x_2 1) in
  let Y_class_0 := full (N_points / 2) 0 in
  let+ X := gtry (concatenate X_class_1 X_class_0 0) in
  let+ Y := gtry (concatenate Y_class_1 Y_class_0 0) in
  gret (X, Y).

(** [generate_xor_like_dataset(N_points)]: four blocks of [N_points // 4]
    points with normal coordinates, and two blocks of [N_points // 2]
    labels. *)
Definition generate_xor_like_dataset (N_points : nat) : Gen (ndarray * ndarray) :=
  (* 1 class *)
  let+ a := normal (25 / 100) (15 / 100) (N_points / 4) in
  let+ a := glift (reshape a (N_points / 4) 1) in
  let+ b := normal (75 / 100) (15 / 100) (N_points / 4) in
  let+ b := glift (reshape b (N_points / 4) 1) in
  let+ ab := gtry (concatenate a b 1) in
  let+ c := normal (75 / 100) (15 / 100) (N_points / 4) in
  let+ c := glift (reshape c (N_points / 4) 1) in
  let+ d := normal (25 / 100) (15 / 100) (N_points / 4) in
  let+ d := glift (reshape d (N_points / 4) 1) in
  let+ cd := gtry (concatenate c d 1) in
  let+ X_class_1 := gtry (concatenate ab cd 0) in
  let Y_class_1 := full (N_points / 2) 1 in
  (* 0 class *)
  let+ a := normal (25 / 100) (15 / 100) (N_points / 4) in
  let+ a := glift (reshape a (N_points / 4) 1) in
  let+ b := normal (25 / 100) (15 / 100) (N_points / 4) in
  let+ b := glift (reshape b (N_points / 4) 1) in
  let+ ab := gtry (concatenate a b 1) in
  let+ c := normal (75 / 100) (15 / 100) (N_points / 4) in
  let+ c := glift (reshape c (N_points / 4) 1) in
  let+ d := normal (75 / 100) (15 / 100) (N_points / 4) in
  let+ d := glift (reshape d (N_points / 4) 1) in
  let+ cd := gtry (concatenate c d 1) in
  let+ X_class_0 := gtry (concatenate ab cd 0) in
  let Y_class_0 := full (N_points / 2) 0 in
  let+ X := gtry (concatenate X_class_1 X_class_0 0) in
  let+ Y := gtry (concatenate Y_class_1 Y_class_0 0) in
  gret (X, Y).

(** The cell that creates the parameters:
    [{'W1': np.random.randn(3, 2), 'b1': np.zeros(3),
      'W2': np.random.randn(3), 'b2': 0}]. *)
Definition new_weights : Gen dict :=
  let+ W1 := randn2 3 2 in
  let b1 := zeros 3 in
  let+ W2 := randn 3 in
  gret [("W1", W1); ("b1", b1); ("W2", W2); ("b2", Scalar 0)].

(** The generator after [n] draws of the sampler [f], and the value of
    draw number [i]. *)
Fixpoint after (f : G -> R * G) (n : nat) (g : G) : G :=
  match n with
  | O => g
  | S n => after f n (snd (f g))
  end.

Definition draw (f : G -> R * G) (i : nat) (g : G) : R := fst (f (after f i g)).

End GeneratorCode.

(** A small concrete generator (a linear congruential generator on
    [0..15]), used to run the generators on an example. *)
Definition lcg_next (n : nat) : nat := ((5 * n + 3) mod 16)%nat.

#[export] Instance lcg : RandomState nat := {|
  random_sample n := (INR (n mod 16) / 16, lcg_next n);
  standard_normal n := (INR (n mod 16) / 4 - 2, lcg_next n)
|}.

(** * 9d. The visualization *)

(** The calls of [matplotlib.pyplot] that the notebook's function makes,
    as the events of a drawing. *)
Module plt.
Inductive call :=
| pcolormesh (X1 X2 C : ndarray)
| colorbar (label : string)
| scatter (x y : ndarray) (color : string)
| title (text : string)
| show.
End plt.

(** Exceptions of [visualization]: those of the tensor operations above,
    and those of the reductions, of the nested list handed to
    [np.transpose], and of the slices. *)
Inductive vis_exn :=
| VNumPy (e : exn)
| ValueError_zero_size
| ValueError_inhomogeneous (n1 n2 : nat)
| IndexError_too_many_indices (ndim : nat)
| IndexError_out_of_bounds (index axis size : nat).

Inductive presult (A : Type) :=
| POk (a : A)
| PRaise (e : vis_exn).
Arguments POk {A} a.
Arguments PRaise {A} e.

(** Computations on the parameter store that draw and may raise: the
    state is the store with the calls of [plt] made so far. *)
Definition Plot (A : Type) : Type :=
  state * list plt.call -> (state * list plt.call) * presult A.

Definition pret {A} (a : A) : Plot A := fun st => (st, POk a).

Definition pbind {A B} (c : Plot A) (k : A -> Plot B) : Plot B :=
  fun st =>
    match c st with
    | (st', POk a) => k a st'
    | (st', PRaise e) => (st', PRaise e)
    end.

Notation "'let&' x ':=' c 'in' k" := (pbind c (fun x => k))
  (at level 10, x pattern, c at level 100, k at level 200).

Definition ptry {A} (r : presult A) : Plot A := fun st => (st, r).

Definition plift {A} (r : result A) : Plot A :=
  fun st =>
    (st, match r with Ok a => POk a | Raise e => PRaise (VNumPy e) end).

(** A call of the notebook's code on the store. *)
Definition run_M {A} (c : M A) : Plot A :=
  fun st =>
    let (s, out) := st in
    let (s', r) := c s in
    ((s', out), match r with Ok a => POk a | Raise e => PRaise (VNumPy e) end).

(** A call of [plt]. *)
Definition emit (c : plt.call) : Plot unit :=
  fun st => let (s, out) := st in ((s, out ++ [c]), POk tt).

(** [np.min(a)] and [np.max(a)] *)
Definition amin (a : ndarray) : presult R :=
  match ravel a with
  | [] => PRaise ValueError_zero_size
  | x :: l => POk (fold_left Rmin l x)
  end.

Definition amax (a : ndarray) : presult R :=
  match ravel a with
  | [] => PRaise ValueError_zero_size
  | x :: l => POk (fold_left Rmax l x)
  end.

(** [np.linspace(start, stop, num)], a one-dimensional array *)
Definition linspace (start stop : R) (num : nat) : list R :=
  tabulate num (fun i => INR i * ((stop - start) / INR (num - 1)) + start).

(** [np.tile(v, reps)] and [np.repeat(v, repeats)] of a one-dimensional
    array *)
Definition tile (v : list R) (reps : nat) : list R := concat (repeat v reps).

Definition np_repeat (v : list R) (repeats : nat) : list R :=
  flat_map (fun x => repeat x repeats) v.

(** [np.transpose([u, v])] of two one-dimensional arrays *)
Definition transpose_pair (u v : list R) : presult ndarray :=
  if (length u =? length v)%nat then POk (T (Mat (length u) [u; v]))
  else PRaise (ValueError_inhomogeneous (length u) (length v)).

(** [np.meshgrid(x, y)] of two one-dimensional arrays *)
Definition meshgrid (x y : list R) : ndarray * ndarray :=
  (Mat (length x) (map (fun _ => x) y),
   Mat (length x) (map (fun yi => map (fun _ => yi) x) y)).

(** [a[:k, j]] and [a[k:, j]]: column [j] of the rows selected by [rows] *)
Definition slice_col (rows : list (list R) -> list (list R)) (j : nat)
    (a : ndarray) : presult ndarray :=
  match a with
  | Mat c m =>
      if (j <? c)%nat then POk (Vec (column j (rows m)))
      else PRaise (IndexError_out_of_bounds j 1 c)
  | _ => PRaise (IndexError_too_many_indices 2)
  end.

Definition N_test_points : nat := 1000.

(** [visualization(weights, X_data, title, superposed_training)]; the
    global [N_points] that the function reads is its first argument. *)
Definition visualization (N_points : nat) (weights : loc) (X_data : ndarray)
    (title : string) (superposed_training : bool) : Plot unit :=
  let& lo := ptry (amin X_data) in
  let& hi := ptry (amax X_data) in
  let xs := linspace (11 / 10 * lo) (11 / 10 * hi) N_test_points in
  let& datapoints :=
    ptry (transpose_pair (tile xs (length xs)) (np_repeat xs (length xs))) in
  let& (Y, _, _, _) := run_M (forward_propagation datapoints weights) in
  let& Y_initial := plift (reshape Y N_test_points N_test_points) in
  let (X1, X2) := meshgrid xs xs in
  let& _ := emit (plt.pcolormesh X1 X2 Y_initial) in
  let& _ := emit (plt.colorbar "P(1)") in
  let& _ :=
    if superposed_training then
      let& x := ptry (slice_col (firstn (N_points / 2)) 0 X_data) in
      let& y := ptry (slice_col (firstn (N_points / 2)) 1 X_data) in
      let& _ := emit (plt.scatter x y "red") in
      let& x := ptry (slice_col (skipn (N_points / 2)) 0 X_data) in
      let& y := ptry (slice_col (skipn (N_points / 2)) 1 X_data) in
      emit (plt.scatter x y "blue")
    else pret tt in
  let& _ := emit (plt.title title) in
  emit plt.show.

(** * 9e. The arithmetic of the machine: the two functions over binary64 *)

(** The embedding above computes with real numbers.  NumPy computes with
    IEEE 754 binary64 numbers, rounding to nearest, ties to even: the
    type [float] of the kernel.  [F64] is the code of
    [forward_propagation] and [back_propagation] once more, line by line,
    with the tensor operations on [float] entries.

    - [sigmoid] ([scipy.special.expit]) and [np.log] are functions of the
      C library: they are the parameters [expit] and [ln] of the model,
      and a statement about [F64] says which of their values it uses.
    - [np.dot] and [np.sum] add the terms from left to right, starting
      from 0, without fused multiply-add.  The kernels of a BLAS and
      NumPy's pairwise summation may associate a sum of four or more
      terms in another order.
    - The two functions read the dictionary and write nothing (see the
      effects of the model above): here they are functions of the
      contents of the dictionary. *)
Module F64.
Import PrimFloat.
Local Open Scope float_scope.

Inductive ndarray :=
| Scalar (x : float)
| Vec (v : list float)
| Mat (ncols : nat) (rows : list (list float)).

Definition dict := list (string * ndarray).

Fixpoint dict_get (d : dict) (k : string) : result ndarray :=
  match d with
  | [] => Raise (KeyError k)
  | (k', v) :: d' => if String.eqb k' k then Ok v else dict_get d' k
  end.

Definition shape (a : ndarray) : list nat :=
  match a with
  | Scalar _ => []
  | Vec v => [length v]
  | Mat c m => [length m; c]
  end.

Definition shape0 (a : ndarray) : result nat :=
  match a with
  | Scalar _ => Raise IndexError
  | Vec v => Ok (length v)
  | Mat _ m => Ok (length m)
  end.

(** The sum of a list, accumulated from the left. *)
Definition fsum (l : list float) : float := fold_left add l 0.

Definition inner (u v : list float) : float := fsum (zip_with mul u v).

Definition column (j : nat) (m : list (list float)) : list float :=
  map (fun r => nth j r 0) m.

Definition columns (c : nat) (m : list (list float)) : list (list float) :=
  map (fun j => column j m) (seq 0 c).

Definition T (a : ndarray) : ndarray :=
  match a with
  | Mat c m => Mat (length m) (columns c m)
  | _ => a
  end.

Definition brow (f : float -> float -> float) (n : nat) (u v : list float)
  : list float :=
  zip_with f (stretch 0 n u) (stretch 0 n v).

Definition ufunc2 (f : float -> float -> float) (a b : ndarray)
  : result ndarray :=
  match a, b with
  | Scalar x, Scalar y => Ok (Scalar (f x y))
  | Scalar x, Vec v => Ok (Vec (map (f x) v))
  | Scalar x, Mat c m => Ok (Mat c (map (map (f x)) m))
  | Vec u, Scalar y => Ok (Vec (map (fun x => f x y) u))
  | Mat c m, Scalar y => Ok (Mat c (map (map (fun x => f x y)) m))
  | Vec u, Vec v =>
      match bdim (length u) (length v) with
      | Some n => Ok (Vec (brow f n u v))
      | None => Raise (ValueError_broadcast (shape a) (shape b))
      end
  | Mat c m, Vec v =>
      match bdim c (length v) with
      | Some n => Ok (Mat n (map (fun r => brow f n r v) m))
      | None => Raise (ValueError_broadcast (shape a) (shape b))
      end
  | Vec u, Mat c m =>
      match bdim (length u) c with
      | Some n => Ok (Mat n (map (fun r => brow f n u r) m))
      | None => Raise (ValueError_broadcast (shape a) (shape b))
      end
  | Mat c m, Mat c' m' =>
      match bdim (length m) (length m'), bdim c c' with
      | Some r, Some n =>
          Ok (Mat n (zip_with (brow f n) (stretch [] r m) (stretch [] r m')))
      | _, _ => Raise (ValueError_broadcast (shape a) (shape b))
      end
  end.

Definition ufunc1 (f : float -> float) (a : ndarray) : ndarray :=
  match a with
  | Scalar x => Scalar (f x)
  | Vec v => Vec (map f v)
  | Mat c m => Mat c (map (map f) m)
  end.

Definition ravel (a : ndarray) : list float :=
  match a with
  | Scalar x => [x]
  | Vec v => v
  | Mat _ m => concat m
  end.

Definition np_add := ufunc2 add.
Definition np_subtract := ufunc2 sub.
Definition np_multiply := ufunc2 mul.
Definition np_divide := ufunc2 div.
Definition np_negative := ufunc1 opp.

Definition np_dot (a b : ndarray) : result ndarray :=
  match a, b with
  | Scalar _, _ | _, Scalar _ => np_multiply a b
  | Vec u, Vec v =>
      if (length u =? length v)%nat then Ok (Scalar (inner u v))
      else Raise (ValueError_dot (shape a) (shape b))
  | Mat c m, Vec v =>
      if (c =? length v)%nat then Ok (Vec (map (fun r => inner r v) m))
      else Raise (ValueError_dot (shape a) (shape b))
  | Vec u, Mat c m =>
      if (length u =? length m)%nat then Ok (Vec (map (inner u) (columns c m)))
      else Raise (ValueError_dot (shape a) (shape b))
  | Mat c m, Mat c' m' =>
      if (c =? length m')%nat
      then Ok (Mat c' (map (fun r => map (inner r) (columns c' m')) m))
      else Raise (ValueError_dot (shape a) (shape b))
  end.

Definition np_sum (a : ndarray) : ndarray := Scalar (fsum (ravel a)).

Definition np_ones (n : nat) : ndarray := Vec (repeat 1 n).

Definition reshape (a : ndarray) (r c : nat) : result ndarray :=
  let data := ravel a in
  if (length data =? r * c)%nat
  then Ok (Mat c (map (fun i => firstn c (skipn (i * c) data)) (seq 0 r)))
  else Raise (ValueError_reshape (length data) [r; c]).

(** The number [n] as a [float] (exact below 2^53). *)
Fixpoint of_nat (n : nat) : float :=
  match n with
  | O => 0
  | S n => of_nat n + 1
  end.

(** Python's true division [1 / n] of integers: the quotient, rounded. *)
Definition py_inv (n : nat) : result float :=
  match n with
  | O => Raise ZeroDivisionError
  | _ => Ok (1 / of_nat n)
  end.

Section Libm.
Variables (expit ln : float -> float).

Definition sigmoid : ndarray -> ndarray := ufunc1 expit.
Definition np_log : ndarray -> ndarray := ufunc1 ln.

Definition forward_propagation (X : ndarray) (weights : dict)
  : result (ndarray * ndarray * ndarray * ndarray) :=
  let? W1 := dict_get weights "W1" in
  let? XW1 := np_dot X (T W1) in
  let? b1 := dict_get weights "b1" in
  let? Z1 := np_add XW1 b1 in
  let H := sigmoid Z1 in
  let? W2 := dict_get weights "W2" in
  let? HW2 := np_dot H (T W2) in
  let? b2 := dict_get weights "b2" in
  let? Z2 := np_add HW2 b2 in
  let Y := sigmoid Z2 in
  Ok (Y, Z2, H, Z1).

Definition one_minus (a : ndarray) : result ndarray := np_subtract (Scalar 1) a.

Definition line_L (N_points : nat) (Y Y_T : ndarray) : result ndarray :=
  let? invN := py_inv N_points in
  let? t1 := np_multiply (np_negative Y_T) (np_log Y) in
  let? omYT := one_minus Y_T in
  let? omY := one_minus Y in
  let? t2 := np_multiply omYT (np_log omY) in
  let? t := np_subtract t1 t2 in
  np_multiply (Scalar invN) (np_sum t).

Definition line_dLdY (N_points : nat) (Y Y_T : ndarray) : result ndarray :=
  let? invN := py_inv N_points in
  let? YmYT := np_subtract Y Y_T in
  let? omY := one_minus Y in
  let? YomY := np_multiply Y omY in
  let? q := np_divide YmYT YomY in
  np_multiply (Scalar invN) q.

Definition sigmoid_prime (Z : ndarray) : result ndarray :=
  let? oms := one_minus (sigmoid Z) in
  np_multiply (sigmoid Z) oms.

Definition line_dLdZ2 (dLdY Z2 : ndarray) : result ndarray :=
  let? ds := sigmoid_prime Z2 in
  np_multiply dLdY ds.

Definition line_dLdW2 (H dLdZ2 : ndarray) : result ndarray :=
  np_dot (T H) dLdZ2.

Definition line_dLdb2 (dLdZ2 : ndarray) (N_points : nat) : result ndarray :=
  np_dot (T dLdZ2) (np_ones N_points).

Definition line_dLdH (dLdZ2 : ndarray) (N_points : nat) (weights : dict)
  : result ndarray :=
  let? dLdZ2col := reshape dLdZ2 N_points 1 in
  let? W2 := dict_get weights "W2" in
  let? W2row := reshape W2 1 3 in
  np_dot dLdZ2col W2row.

Definition line_dLdZ1 (dLdH Z1 : ndarray) : result ndarray :=
  let? ds := sigmoid_prime Z1 in
  np_multiply dLdH ds.

Definition line_dLdW1 (dLdZ1 X : ndarray) : result ndarray :=
  np_dot (T dLdZ1) X.

Definition line_dLdb1 (dLdZ1 : ndarray) (N_points : nat) : result ndarray :=
  np_dot (T dLdZ1) (np_ones N_points).

Definition back_propagation (X Y_T : ndarray) (weights : dict)
  : result (dict * ndarray) :=
  let? N_points := shape0 X in
  let? (Y, Z2, H, Z1) := forward_propagation X weights in
  let? L := line_L N_points Y Y_T in
  let? dLdY := line_dLdY N_points Y Y_T in
  let? dLdZ2 := line_dLdZ2 dLdY Z2 in
  let? dLdW2 := line_dLdW2 H dLdZ2 in
  let? dLdb2 := line_dLdb2 dLdZ2 N_points in
  let? dLdH := line_dLdH dLdZ2 N_points weights in
  let? dLdZ1 := line_dLdZ1 dLdH Z1 in
  let? dLdW1 := line_dLdW1 dLdZ1 X in
  let? dLdb1 := line_dLdb1 dLdZ1 N_points in
  let gradients : dict :=
    [("W1", dLdW1); ("b1", dLdb1); ("W2", dLdW2); ("b2", dLdb2)] in
  Ok (gradients, L).

End Libm.

(** An example on which the number of copies in the batch shows in the
    last bit: the point [(1, 1)] with label 1, and parameters with
    [W1 = 0], [b1 = 0], [W2 = [7, -3, -4]], [b2 = 0], for which every
    argument of [sigmoid] is 0. *)
Definition example_weights : dict :=
  [("W1", Mat 2 [[0; 0]; [0; 0]; [0; 0]]); ("b1", Vec [0; 0; 0]);
   ("W2", Vec [7; -3; -4]); ("b2", Scalar 0)].

Definition example_X (N : nat) : ndarray := Mat 2 (repeat [1; 1] N).
Definition example_Y_T (N : nat) : ndarray := Vec (repeat 1 N).

(** The gradients of the single example, and those of three copies. *)
Definition gradients_of_one : dict :=
  [("W1", Mat 2 [[-0.875; -0.875]; [0.375; 0.375]; [0.5; 0.5]]);
   ("b1", Vec [-0.875; 0.375; 0.5]);
   ("W2", Vec [-0.25; -0.25; -0.25]); ("b2", Scalar (-0.5))].

Definition gradients_of_three : dict :=
  [("W1", Mat 2 [[-0x1.bffffffffffffp-1; -0x1.bffffffffffffp-1];
                 [0.375; 0.375]; [0.5; 0.5]]);
   ("b1", Vec [-0x1.bffffffffffffp-1; 0.375; 0.5]);
   ("W2", Vec [-0.25; -0.25; -0.25]); ("b2", Scalar (-0.5))].

Definition half : float := 0.5.

(** The first entry of the gradient of [b1], and [x != y] on numbers. *)
Definition first_of_b1 (gradients : dict) : float :=
  match dict_get gradients "b1" with
  | Ok (Vec (x :: _)) => x
  | _ => nan
  end.

Definition differ (x y : float) : bool := negb (eqb x y).

End F64.

(** * 10. Arrays given by their entries: lemmas *)

Section Tabulate.
Context {A : Type}.

Lemma tabulate_length n (f : nat -> A) : length (tabulate n f) = n.
Proof. unfold tabulate. now rewrite length_map, length_seq. Qed.

Lemma tabulate_ext n (f g : nat -> A) :
  (forall i, (i < n)%nat -> f i = g i) -> tabulate n f = tabulate n g.
Proof.
  intros H. unfold tabulate. apply map_ext_in.
  intros i Hi. apply in_seq in Hi. apply H. lia.
Qed.

Lemma tabulate_nth n (f : nat -> A) d i :
  (i < n)%nat -> nth i (tabulate n f) d = f i.
Proof.
  intros Hi. unfold tabulate.
  rewrite (nth_indep _ d (f 0%nat)) by now rewrite length_map, length_seq.
  rewrite map_nth, seq_nth; auto.
Qed.

Lemma tabulate_S n (f : nat -> A) :
  tabulate (S n) f = f 0%nat :: tabulate n (fun i => f (S i)).
Proof.
  unfold tabulate. simpl. f_equal. rewrite <- seq_shift, map_map. reflexivity.
Qed.

Lemma tabulate_of_list (l : list A) d :
  l = tabulate (length l) (fun i => nth i l d).
Proof.
  induction l as [|x l IH]; [reflexivity|].
  simpl length. rewrite tabulate_S. simpl. f_equal. exact IH.
Qed.

Lemma tabulate_map {B} n (f : nat -> A) (g : A -> B) :
  map g (tabulate n f) = tabulate n (fun i => g (f i)).
Proof. unfold tabulate. now rewrite map_map. Qed.

Lemma tabulate_const n (x : A) : repeat x n = tabulate n (fun _ => x).
Proof.
  induction n as [|n IH]; [reflexivity|].
  rewrite tabulate_S. simpl. now rewrite IH.
Qed.
End Tabulate.

Lemma zip_with_tabulate {A B C} (f : A -> B -> C) n g g' :
  zip_with f (tabulate n g) (tabulate n g') = tabulate n (fun i => f (g i) (g' i)).
Proof.
  revert g g'. induction n as [|n IH]; intros g g'; [reflexivity|].
  rewrite !tabulate_S. simpl. now rewrite IH.
Qed.

Lemma stretch_same {A} (d : A) n l : length l = n -> stretch d n l = l.
Proof. intros H. unfold stretch. now rewrite H, Nat.eqb_refl. Qed.

Lemma bdim_same n : bdim n n = Some n.
Proof. unfold bdim. now rewrite Nat.eqb_refl. Qed.

Lemma brow_tabulate f n g g' :
  brow f n (tabulate n g) (tabulate n g') = tabulate n (fun i => f (g i) (g' i)).
Proof.
  unfold brow. rewrite !stretch_same by apply tabulate_length.
  apply zip_with_tabulate.
Qed.

Lemma Rsum_ext n f g :
  (forall i, (i < n)%nat -> f i = g i) -> Rsum n f = Rsum n g.
Proof. intros H. unfold Rsum. now rewrite (tabulate_ext n f g H). Qed.

Lemma Rsum_S n f : Rsum (S n) f = f 0%nat + Rsum n (fun i => f (S i)).
Proof. unfold Rsum. now rewrite tabulate_S. Qed.

Lemma inner_tabulate n g g' :
  inner (tabulate n g) (tabulate n g') = Rsum n (fun k => g k * g' k).
Proof. unfold inner, Rsum. now rewrite zip_with_tabulate. Qed.

(** Every well-formed array is given by its entries. *)
Lemma Vec_tabulate v : Vec v = vec_of (length v) (at1 v).
Proof. unfold vec_of, at1. f_equal. apply tabulate_of_list. Qed.

Lemma Mat_tabulate c m :
  wf (Mat c m) -> Mat c m = mat_of (length m) c (at2 m).
Proof.
  simpl. intros Hwf. unfold mat_of. f_equal.
  rewrite (tabulate_of_list m []) at 1.
  apply tabulate_ext. intros i Hi.
  assert (Hlen : length (nth i m []) = c).
  { rewrite List.Forall_forall in Hwf. apply Hwf. now apply nth_In. }
  rewrite (tabulate_of_list (nth i m []) 0) at 1. now rewrite Hlen.
Qed.

Lemma shape_vec_of n f : shape (vec_of n f) = [n].
Proof. simpl. now rewrite tabulate_length. Qed.

Lemma shape_mat_of r c f : shape (mat_of r c f) = [r; c].
Proof. simpl. now rewrite tabulate_length. Qed.

Lemma wf_mat_of r c f : wf (mat_of r c f).
Proof.
  simpl. unfold tabulate. rewrite Forall_map. apply Forall_forall.
  intros i _. now rewrite length_map, length_seq.
Qed.

(** ** The NumPy operations on arrays given by their entries *)

Lemma ufunc1_vec_of f n g :
  ufunc1 f (vec_of n g) = vec_of n (fun i => f (g i)).
Proof. unfold vec_of. simpl. now rewrite tabulate_map. Qed.

Lemma ufunc1_mat_of f r c g :
  ufunc1 f (mat_of r c g) = mat_of r c (fun i j => f (g i j)).
Proof.
  unfold mat_of. simpl. f_equal. rewrite tabulate_map.
  apply tabulate_ext. intros i _. now rewrite tabulate_map.
Qed.

Lemma ufunc2_scalar_vec_of f x n g :
  ufunc2 f (Scalar x) (vec_of n g) = Ok (vec_of n (fun i => f x (g i))).
Proof. unfold vec_of. simpl. now rewrite tabulate_map. Qed.

Lemma ufunc2_vec_of_scalar f y n g :
  ufunc2 f (vec_of n g) (Scalar y) = Ok (vec_of n (fun i => f (g i) y)).
Proof. unfold vec_of. simpl. now rewrite tabulate_map. Qed.

Lemma ufunc2_scalar_mat_of f x r c g :
  ufunc2 f (Scalar x) (mat_of r c g) = Ok (mat_of r c (fun i j => f x (g i j))).
Proof.
  unfold mat_of. simpl. do 2 f_equal. rewrite tabulate_map.
  apply tabulate_ext. intros i _. now rewrite tabulate_map.
Qed.

Lemma ufunc2_vec_of f n g g' :
  ufunc2 f (vec_of n g) (vec_of n g') = Ok (vec_of n (fun i => f (g i) (g' i))).
Proof.
  unfold vec_of. simpl. rewrite !tabulate_length, bdim_same.
  now rewrite brow_tabulate.
Qed.

Lemma ufunc2_mat_of_vec_of f r c g g' :
  ufunc2 f (mat_of r c g) (vec_of c g')
  = Ok (mat_of r c (fun i j => f (g i j) (g' j))).
Proof.
  unfold mat_of, vec_of. simpl. rewrite tabulate_length, bdim_same.
  do 2 f_equal. rewrite tabulate_map. apply tabulate_ext. intros i _.
  apply brow_tabulate.
Qed.

Lemma ufunc2_mat_of f r c g g' :
  ufunc2 f (mat_of r c g) (mat_of r c g')
  = Ok (mat_of r c (fun i j => f (g i j) (g' i j))).
Proof.
  unfold mat_of. simpl. rewrite !tabulate_length, !bdim_same.
  do 2 f_equal. rewrite !stretch_same by apply tabulate_length.
  rewrite zip_with_tabulate. apply tabulate_ext. intros i _.
  apply brow_tabulate.
Qed.

Lemma T_vec_of n g : T (vec_of n g) = vec_of n g.
Proof. reflexivity. Qed.

Lemma T_mat_of r c g : T (mat_of r c g) = mat_of c r (fun j i => g i j).
Proof.
  unfold mat_of. simpl. rewrite tabulate_length. f_equal.
  unfold columns. fold (tabulate c (fun j => column j (tabulate r (fun i => tabulate c (g i))))).
  apply tabulate_ext. intros j Hj. unfold column. rewrite tabulate_map.
  apply tabulate_ext. intros i _. now apply tabulate_nth.
Qed.

Lemma columns_mat_of r c g :
  columns c (tabulate r (fun i => tabulate c (g i)))
  = tabulate c (fun j => tabulate r (fun i => g i j)).
Proof.
  pose proof (T_mat_of r c g) as H. unfold mat_of in H. simpl in H.
  now injection H.
Qed.

Lemma dot_vec_of n g g' :
  np.dot (vec_of n g) (vec_of n g') = Ok (Scalar (Rsum n (fun k => g k * g' k))).
Proof.
  unfold vec_of. simpl. rewrite !tabulate_length, Nat.eqb_refl.
  now rewrite inner_tabulate.
Qed.

Lemma dot_mat_of_vec_of r c g g' :
  np.dot (mat_of r c g) (vec_of c g')
  = Ok (vec_of r (fun i => Rsum c (fun k => g i k * g' k))).
Proof.
  unfold mat_of, vec_of. simpl. rewrite tabulate_length, Nat.eqb_refl.
  do 2 f_equal. rewrite tabulate_map. apply tabulate_ext. intros i _.
  apply inner_tabulate.
Qed.

Lemma dot_mat_of r c c' g g' :
  np.dot (mat_of r c g) (mat_of c c' g')
  = Ok (mat_of r c' (fun i j => Rsum c (fun k => g i k * g' k j))).
Proof.
  unfold mat_of. simpl. rewrite tabulate_length, Nat.eqb_refl.
  do 2 f_equal. rewrite tabulate_map. apply tabulate_ext. intros i _.
  rewrite columns_mat_of, tabulate_map. apply tabulate_ext. intros j _.
  apply inner_tabulate.
Qed.

Lemma ones_vec_of n : np.ones n = vec_of n (fun _ => 1).
Proof. unfold np.ones, vec_of. now rewrite tabulate_const. Qed.

Lemma sum_vec_of n g : np.sum (vec_of n g) = Scalar (Rsum n g).
Proof. reflexivity. Qed.

Lemma skipn_tabulate {A} i n (g : nat -> A) :
  skipn i (tabulate n g) = tabulate (n - i) (fun k => g (i + k)%nat).
Proof.
  revert n g. induction i as [|i IH]; intros n g.
  - rewrite Nat.sub_0_r. reflexivity.
  - destruct n as [|n]; [reflexivity|].
    rewrite tabulate_S. simpl. apply IH.
Qed.

Lemma reshape_column n g :
  reshape (vec_of n g) n 1 = Ok (mat_of n 1 (fun i _ => g i)).
Proof.
  unfold reshape, vec_of, mat_of. simpl ravel.
  rewrite tabulate_length, Nat.mul_1_r, Nat.eqb_refl. do 2 f_equal.
  apply tabulate_ext. intros i Hi.
  rewrite Nat.mul_1_r, skipn_tabulate.
  destruct (n - i)%nat as [|k] eqn:E; [lia|].
  rewrite tabulate_S. simpl. now rewrite Nat.add_0_r.
Qed.

Lemma reshape_row v c :
  length v = c -> reshape (Vec v) 1 c = Ok (mat_of 1 c (fun _ j => at1 v j)).
Proof.
  intros Hlen. unfold reshape, mat_of. simpl ravel.
  rewrite Hlen, Nat.mul_1_l, Nat.eqb_refl. do 2 f_equal.
  unfold tabulate at 1. simpl. f_equal. subst c. rewrite firstn_all.
  apply tabulate_of_list.
Qed.

Lemma reshape_size_mismatch a r c :
  length (ravel a) <> (r * c)%nat ->
  reshape a r c = Raise (ValueError_reshape (length (ravel a)) [r; c]).
Proof.
  intros H. unfold reshape. apply Nat.eqb_neq in H. now rewrite H.
Qed.

Lemma vec_of_ext n f g :
  (forall i, (i < n)%nat -> f i = g i) -> vec_of n f = vec_of n g.
Proof. intros H. unfold vec_of. f_equal. now apply tabulate_ext. Qed.

Lemma mat_of_ext r c f g :
  (forall i j, (i < r)%nat -> (j < c)%nat -> f i j = g i j) ->
  mat_of r c f = mat_of r c g.
Proof.
  intros H. unfold mat_of. f_equal. apply tabulate_ext. intros i Hi.
  apply tabulate_ext. intros j Hj. now apply H.
Qed.

Lemma Rsum_1 f : Rsum 1 f = f 0%nat.
Proof. unfold Rsum, tabulate. simpl. ring. Qed.

Lemma Rsum_3 f : Rsum 3 f = f 0%nat + (f 1%nat + (f 2%nat + 0)).
Proof. reflexivity. Qed.

Lemma Rsum_const n c : Rsum n (fun _ => c) = INR n * c.
Proof.
  induction n as [|n IH].
  - unfold Rsum, tabulate. simpl. ring.
  - rewrite Rsum_S, IH, S_INR. ring.
Qed.

Lemma Rsum_const_ext n f c :
  (forall i, (i < n)%nat -> f i = c) -> Rsum n f = INR n * c.
Proof. intros H. rewrite <- Rsum_const. now apply Rsum_ext. Qed.

(** * 11. Running the code on well-shaped inputs *)

Lemma getitem_run s weights dct k :
  store s !! weights = Some dct -> getitem weights k s = (s, dict_get dct k).
Proof. intros H. unfold getitem. now rewrite H. Qed.

Ltac run_getitem H :=
  unfold bind at 1; erewrite getitem_run by exact H; simpl dict_get; cbv iota beta.
Ltac run_lift := unfold bind at 1; unfold lift at 1; cbv iota beta.

Lemma keys_run s weights dct :
  store s !! weights = Some dct -> keys weights s = (s, Ok (dict_keys dct)).
Proof. intros H. unfold keys. now rewrite H. Qed.

Lemma py_inv_pos n : (0 < n)%nat -> py_inv n = Ok (1 / INR n).
Proof. destruct n; [lia | reflexivity]. Qed.

Lemma ufunc2_scalars f x y :
  ufunc2 f (Scalar x) (Scalar y) = Ok (Scalar (f x y)).
Proof. reflexivity. Qed.

Lemma bind_lift_ok {A B} (a : A) (k : A -> M B) s :
  bind (lift (Ok a)) k s = k a s.
Proof. reflexivity. Qed.

Lemma bind_lift_raise {A B} e (k : A -> M B) s :
  bind (lift (Raise e)) k s = (s, Raise e).
Proof. reflexivity. Qed.

Lemma rbind_ok {A B} (a : A) (k : A -> result B) : rbind (Ok a) k = k a.
Proof. reflexivity. Qed.

Create Rewrite HintDb np.
#[local] Hint Rewrite ufunc1_vec_of ufunc1_mat_of ufunc2_scalar_vec_of
  ufunc2_vec_of_scalar ufunc2_scalar_mat_of ufunc2_vec_of
  ufunc2_mat_of_vec_of ufunc2_mat_of T_vec_of T_mat_of dot_vec_of
  dot_mat_of_vec_of dot_mat_of ones_vec_of sum_vec_of reshape_column
  ufunc2_scalars : np.

Ltac np_unfold :=
  unfold sigmoid_prime, np.negative, np.log, one_minus, np.add, np.multiply,
    np.subtract, np.divide, sigmoid.

Ltac run :=
  repeat (progress (autorewrite with np;
                    rewrite ?bind_lift_ok, ?rbind_ok; cbv beta)).

Lemma forward_propagation_run N d h X W1 b1 W2 b2 weights s :
  batch N d X -> consistent d h W1 b1 W2 ->
  store s !! weights = Some (params d W1 b1 W2 b2) ->
  forward_propagation (Mat d X) weights s
  = (entered s,
     Ok (vec_of N (spec_Y d h X W1 b1 W2 b2),
         vec_of N (spec_Z2 d h X W1 b1 W2 b2),
         mat_of N h (spec_H d X W1 b1),
         mat_of N h (spec_Z1 d X W1 b1))).
Proof.
  intros [HN HX] (Hh & HW1 & Hb1 & HW2) Hst.
  assert (Hst' : store (entered s) !! weights = Some (params d W1 b1 W2 b2))
    by exact Hst.
  unfold forward_propagation.
  unfold bind at 1. unfold enter_forward_propagation at 1. fold (entered s).
  cbv iota beta.
  run_getitem Hst'.
  rewrite (Mat_tabulate d X HX), (Mat_tabulate d W1 HW1), HN, Hh.
  rewrite T_mat_of. run_lift. rewrite dot_mat_of. cbv iota beta.
  run_getitem Hst'.
  rewrite (Vec_tabulate b1), Hb1.
  run_lift. unfold np.add. rewrite ufunc2_mat_of_vec_of. cbv iota beta.
  run_getitem Hst'.
  rewrite (Vec_tabulate W2), HW2, T_vec_of.
  unfold sigmoid. rewrite ufunc1_mat_of.
  run_lift. rewrite dot_mat_of_vec_of. cbv iota beta.
  run_getitem Hst'.
  run_lift. rewrite ufunc2_vec_of_scalar. cbv iota beta.
  rewrite ufunc1_vec_of. unfold ret.
  reflexivity.
Qed.

(** ** The lines of [back_propagation] on arrays given by their entries *)

Section Lines.
Variables (N : nat) (HN : (0 < N)%nat).

Lemma line_L_run y yt :
  line_L N (vec_of N y) (vec_of N yt)
  = Ok (Scalar (1 / INR N *
                Rsum N (fun n => - yt n * ln (y n) - (1 - yt n) * ln (1 - y n)))).
Proof.
  unfold line_L. rewrite (py_inv_pos N HN). np_unfold. run. reflexivity.
Qed.

Lemma line_dLdY_run y yt :
  line_dLdY N (vec_of N y) (vec_of N yt)
  = Ok (vec_of N (fun n => 1 / INR N * ((y n - yt n) / (y n * (1 - y n))))).
Proof.
  unfold line_dLdY. rewrite (py_inv_pos N HN). np_unfold. run. reflexivity.
Qed.
End Lines.

Lemma line_dLdZ2_run N g z :
  line_dLdZ2 (vec_of N g) (vec_of N z)
  = Ok (vec_of N (fun n => g n * expit' (z n))).
Proof. unfold line_dLdZ2. np_unfold. run. reflexivity. Qed.

Lemma line_dLdW2_run N h H g :
  line_dLdW2 (mat_of N h H) (vec_of N g)
  = Ok (vec_of h (fun j => Rsum N (fun n => H n j * g n))).
Proof. unfold line_dLdW2. run. reflexivity. Qed.

Lemma line_dLdb2_run N g :
  line_dLdb2 (vec_of N g) N = Ok (Scalar (Rsum N g)).
Proof.
  unfold line_dLdb2. run. do 2 f_equal. apply Rsum_ext. intros n _. ring.
Qed.

Lemma line_dLdH_run N h g weights s dct W2 :
  store s !! weights = Some dct -> dict_get dct "W2" = Ok (Vec W2) ->
  length W2 = h ->
  line_dLdH (vec_of N g) N weights s
  = (s, if decide (h = 3%nat)
        then Ok (mat_of N 3 (fun n j => g n * at1 W2 j))
        else Raise (ValueError_reshape h [1%nat; 3%nat])).
Proof.
  intros Hst HW2 Hlen. unfold line_dLdH. run.
  unfold bind at 1. rewrite (getitem_run s weights dct _ Hst), HW2.
  destruct (decide (h = 3%nat)) as [Hh|Hh].
  - rewrite (reshape_row W2 3) by congruence. run. unfold lift. do 2 f_equal.
    apply mat_of_ext. intros n j _ _. apply Rsum_1.
  - rewrite reshape_size_mismatch by (simpl; congruence).
    rewrite bind_lift_raise. simpl. now rewrite Hlen.
Qed.

Lemma line_dLdZ1_run N h g z :
  line_dLdZ1 (mat_of N h g) (mat_of N h z)
  = Ok (mat_of N h (fun n j => g n j * expit' (z n j))).
Proof. unfold line_dLdZ1. np_unfold. run. reflexivity. Qed.

Lemma line_dLdW1_run N h d g x :
  line_dLdW1 (mat_of N h g) (mat_of N d x)
  = Ok (mat_of h d (fun j k => Rsum N (fun n => g n j * x n k))).
Proof. unfold line_dLdW1. run. reflexivity. Qed.

Lemma line_dLdb1_run N h g :
  line_dLdb1 (mat_of N h g) N
  = Ok (vec_of h (fun j => Rsum N (fun n => g n j))).
Proof.
  unfold line_dLdb1. run. f_equal. apply vec_of_ext. intros j _.
  apply Rsum_ext. intros n _. ring.
Qed.

Lemma back_propagation_run N d h X W1 b1 W2 b2 Y_T weights s :
  (0 < N)%nat ->
  batch N d X -> length Y_T = N -> consistent d h W1 b1 W2 ->
  store s !! weights = Some (params d W1 b1 W2 b2) ->
  back_propagation (Mat d X) (Vec Y_T) weights s
  = (entered s, back_propagation_outcome N d h X W1 b1 W2 b2 Y_T).
Proof.
  intros HN0 HX HYT Hc Hst.
  assert (Hst' : store (entered s) !! weights = Some (params d W1 b1 W2 b2))
    by exact Hst.
  unfold back_propagation.
  destruct HX as [HN HX'].
  simpl shape0. rewrite HN, bind_lift_ok.
  unfold bind at 1.
  rewrite (forward_propagation_run N d h X W1 b1 W2 b2 weights s
             (conj HN HX') Hc Hst).
  cbv iota beta.
  destruct Hc as (Hh & HW1 & Hb1 & HW2).
  rewrite (Vec_tabulate Y_T), HYT.
  rewrite (line_L_run N HN0), bind_lift_ok.
  rewrite (line_dLdY_run N HN0), bind_lift_ok.
  rewrite line_dLdZ2_run, bind_lift_ok.
  rewrite line_dLdW2_run, bind_lift_ok.
  rewrite line_dLdb2_run, bind_lift_ok.
  unfold bind at 1.
  rewrite (line_dLdH_run N h _ weights (entered s) _ W2 Hst' eq_refl HW2).
  unfold back_propagation_outcome.
  destruct (decide (h = 3%nat)) as [Hh3|Hh3]; [|reflexivity].
  subst h. rewrite Hh3.
  rewrite line_dLdZ1_run, bind_lift_ok.
  rewrite (Mat_tabulate d X HX'), HN.
  rewrite line_dLdW1_run, bind_lift_ok.
  rewrite line_dLdb1_run, bind_lift_ok.
  reflexivity.
Qed.

(** * 12. Effects of the code on the state, for every input *)

Lemma reads_only_ret {A} (a : A) : reads_only (ret a).
Proof. intros s. reflexivity. Qed.

Lemma reads_only_lift {A} (r : result A) : reads_only (lift r).
Proof. intros s. reflexivity. Qed.

Lemma reads_only_getitem weights k : reads_only (getitem weights k).
Proof. intros s. unfold getitem. now destruct (store s !! weights). Qed.

Lemma reads_only_keys weights : reads_only (keys weights).
Proof. intros s. unfold keys. now destruct (store s !! weights). Qed.

Lemma reads_only_bind {A B} (c : M A) (k : A -> M B) :
  reads_only c -> (forall a, reads_only (k a)) -> reads_only (bind c k).
Proof.
  intros Hc Hk s. unfold bind. specialize (Hc s).
  destruct (c s) as [s' [a|e]]; simpl in Hc; subst s'; [apply Hk | reflexivity].
Qed.

Ltac reads_only_tac :=
  repeat first
    [ apply reads_only_ret | apply reads_only_lift | apply reads_only_getitem
    | apply reads_only_keys
    | apply reads_only_bind; [| intros ?]
    | match goal with |- reads_only (match ?p with _ => _ end) => destruct p end ].

Lemma reads_only_line_dLdH dLdZ2 N_points weights :
  reads_only (line_dLdH dLdZ2 N_points weights).
Proof. unfold line_dLdH. reads_only_tac. Qed.

Lemma bind_state {A B} (c : M A) (k : A -> M B) s s' :
  fst (c s) = s' -> (forall a, reads_only (k a)) -> fst (bind c k s) = s'.
Proof.
  intros Hc Hk. unfold bind. destruct (c s) as [s1 [a|e]]; simpl in Hc; subst s1.
  - apply Hk.
  - reflexivity.
Qed.

Lemma forward_propagation_state X weights s :
  fst (forward_propagation X weights s) = entered s.
Proof.
  unfold forward_propagation. unfold bind at 1.
  unfold enter_forward_propagation at 1. fold (entered s). cbv iota beta.
  generalize (entered s). change (reads_only
   (let* W1 := getitem weights "W1" in
    let* XW1 := lift (np.dot X (T W1)) in
    let* b1 := getitem weights "b1" in
    let* Z1 := lift (np.add XW1 b1) in
    let* W2 := getitem weights "W2" in
    let* HW2 := lift (np.dot (sigmoid Z1) (T W2)) in
    let* b2 := getitem weights "b2" in
    let* Z2 := lift (np.add HW2 b2) in
    ret (sigmoid Z2, Z2, sigmoid Z1, Z1))).
  reads_only_tac.
Qed.

Lemma back_propagation_state X Y_T weights s :
  fst (back_propagation X Y_T weights s)
  = match shape0 X with Ok _ => entered s | Raise _ => s end.
Proof.
  unfold back_propagation. destruct (shape0 X) as [N_points|e].
  - rewrite bind_lift_ok. apply bind_state.
    + apply forward_propagation_state.
    + intros [[[Y Z2] H] Z1]. reads_only_tac.
  - reflexivity.
Qed.

Lemma back_propagation_raise_shape0 X Y_T weights s e :
  shape0 X = Raise e -> back_propagation X Y_T weights s = (s, Raise e).
Proof. intros H. unfold back_propagation. now rewrite H, bind_lift_raise. Qed.

Lemma update_frame names : forall weights epsilon gradients s l,
  l <> weights ->
  store (fst (update names weights epsilon gradients s)) !! l = store s !! l.
Proof.
  induction names as [|k ks IH]; intros weights epsilon gradients s l Hl.
  - reflexivity.
  - cbn [update]. unfold bind at 1.
    pose proof (reads_only_getitem weights k s) as Hg.
    destruct (getitem weights k s) as [s1 [w|e]]; simpl in Hg; subst s1;
      [|reflexivity].
    destruct (dict_get gradients k) as [g|e]; [|reflexivity].
    rewrite bind_lift_ok.
    destruct (np.multiply (Scalar epsilon) g) as [step|e]; [|reflexivity].
    rewrite bind_lift_ok.
    destruct (isub w step) as [w'|e]; [|reflexivity].
    rewrite bind_lift_ok.
    unfold bind at 1. unfold setitem at 1.
    destruct (store s !! weights) as [dct|] eqn:E; [|reflexivity].
    rewrite IH by assumption. cbn [store].
    now apply lookup_insert_ne.
Qed.

(** * 13. The training loop on well-shaped inputs *)

Lemma isub_mat_of r c f g :
  isub (mat_of r c f) (mat_of r c g) = Ok (mat_of r c (fun i j => f i j - g i j)).
Proof.
  unfold isub.
  assert (E : np.subtract (mat_of r c f) (mat_of r c g)
              = Ok (mat_of r c (fun i j => f i j - g i j)))
    by apply ufunc2_mat_of.
  unfold mat_of at 1. fold (mat_of r c f). rewrite E.
  rewrite !shape_mat_of. now destruct (decide ([r; c] = [r; c])).
Qed.

Lemma isub_vec_of n f g :
  isub (vec_of n f) (vec_of n g) = Ok (vec_of n (fun i => f i - g i)).
Proof.
  unfold isub.
  assert (E : np.subtract (vec_of n f) (vec_of n g)
              = Ok (vec_of n (fun i => f i - g i)))
    by apply ufunc2_vec_of.
  unfold vec_of at 1. fold (vec_of n f). rewrite E.
  rewrite !shape_vec_of. now destruct (decide ([n] = [n])).
Qed.

Lemma isub_scalars x y : isub (Scalar x) (Scalar y) = Ok (Scalar (x - y)).
Proof. reflexivity. Qed.

(** One turn of [for weight_name in weights]. *)
Lemma update_cons k ks weights epsilon gradients s dct a g a' :
  store s !! weights = Some dct ->
  dict_get dct k = Ok a ->
  dict_get gradients k = Ok g ->
  (let? step := np.multiply (Scalar epsilon) g in isub a step) = Ok a' ->
  update (k :: ks) weights epsilon gradients s
  = update ks weights epsilon gradients
      (mkState (<[weights := dict_set dct k a']> (store s)) (fp_calls s)).
Proof.
  intros Hst Ha Hg Hsub. cbn [update].
  unfold bind at 1. rewrite (getitem_run s weights dct k Hst), Ha.
  cbv iota beta. rewrite Hg, bind_lift_ok.
  destruct (np.multiply (Scalar epsilon) g) as [step|e]; [|discriminate].
  rewrite bind_lift_ok. rewrite rbind_ok in Hsub. rewrite Hsub, bind_lift_ok.
  unfold bind at 1. unfold setitem at 1. rewrite Hst. reflexivity.
Qed.

Section DescentFacts.
Variables (N d : nat) (epsilon : R) (X : list (list R)) (Y_T : list R).

Lemma descent_step_consistent p :
  consistent_pset d 3 (descent_step N d epsilon X Y_T p).
Proof.
  unfold consistent_pset, consistent, descent_step. cbn [pW1 pb1 pW2].
  rewrite !tabulate_length. repeat split.
  apply (wf_mat_of 3 d).
Qed.

Lemma params_after_consistent i p :
  consistent_pset d 3 p ->
  consistent_pset d 3 (params_after N d epsilon X Y_T i p).
Proof.
  destruct i as [|i]; [trivial|]. intros _. apply descent_step_consistent.
Qed.

Lemma params_after_shift i p :
  params_after N d epsilon X Y_T i (descent_step N d epsilon X Y_T p)
  = params_after N d epsilon X Y_T (S i) p.
Proof. unfold params_after. now rewrite <- Nat.iter_succ_r. Qed.
End DescentFacts.

Lemma update_run N d epsilon X Y_T p weights s :
  consistent_pset d 3 p ->
  store s !! weights = Some (params_of d p) ->
  update (dict_keys (params_of d p)) weights epsilon
    (spec_gradients N d 3 X (pW1 p) (pb1 p) (pW2 p) (pb2 p) Y_T) s
  = (set_weights weights (params_of d (descent_step N d epsilon X Y_T p)) s,
     Ok tt).
Proof.
  destruct p as [W1 b1 W2 b2]. unfold consistent_pset, params_of. cbn [pW1 pb1 pW2 pb2].
  intros (Hh & HW1 & Hb1 & HW2) Hst.
  cbn [dict_keys params map fst].
  erewrite (update_cons "W1"); [| exact Hst | reflexivity | reflexivity |].
  2:{ rewrite (Mat_tabulate d W1 HW1), Hh. np_unfold. run. apply isub_mat_of. }
  erewrite (update_cons "b1");
    [| cbn [store]; apply lookup_insert_eq | reflexivity | reflexivity |].
  2:{ rewrite (Vec_tabulate b1), Hb1. np_unfold. run. apply isub_vec_of. }
  erewrite (update_cons "W2");
    [| cbn [store]; apply lookup_insert_eq | reflexivity | reflexivity |].
  2:{ rewrite (Vec_tabulate W2), HW2. np_unfold. run. apply isub_vec_of. }
  erewrite (update_cons "b2");
    [| cbn [store]; apply lookup_insert_eq | reflexivity | reflexivity |].
  2:{ np_unfold. run. apply isub_scalars. }
  cbn [update store fp_calls]. unfold ret, set_weights.
  rewrite !insert_insert_eq. reflexivity.
Qed.

Section TrainingRun.
Variables (N d : nat) (epsilon : R) (X : list (list R)) (Y_T : list R).
Variable weights : loc.
Hypothesis HN : (0 < N)%nat.
Hypothesis HX : batch N d X.
Hypothesis HY : length Y_T = N.

Let step := descent_step N d epsilon X Y_T.
Let loss p := Scalar (loss_of N d X Y_T p).

Lemma epoch_body_run p losses s :
  consistent_pset d 3 p ->
  store s !! weights = Some (params_of d p) ->
  epoch_body (Mat d X) (Vec Y_T) weights epsilon losses s
  = (set_weights weights (params_of d (step p)) (entered s),
     Ok (losses ++ [loss p])).
Proof.
  intros Hp Hst. unfold epoch_body.
  unfold bind at 1.
  rewrite (back_propagation_run N d 3 X (pW1 p) (pb1 p) (pW2 p) (pb2 p)
             Y_T weights s HN HX HY Hp Hst).
  unfold back_propagation_outcome.
  destruct (decide (3 = 3)%nat) as [_|Hne]; [|congruence].
  cbv iota beta.
  unfold bind at 1. rewrite (keys_run (entered s) weights _ Hst). cbv iota beta.
  unfold bind at 1.
  rewrite (update_run N d epsilon X Y_T p weights (entered s) Hp Hst).
  reflexivity.
Qed.

Lemma training_loop_run epochs : forall p losses s,
  consistent_pset d 3 p ->
  store s !! weights = Some (params_of d p) ->
  training_loop epochs (Mat d X) (Vec Y_T) weights epsilon losses s
  = (mkState (<[weights := params_of d (params_after N d epsilon X Y_T epochs p)]>
                (store s))
             (fp_calls s + epochs),
     Ok (losses ++ tabulate epochs
                     (fun i => loss (params_after N d epsilon X Y_T i p)))).
Proof.
  induction epochs as [|epochs IH]; intros p losses s Hp Hst.
  - cbn [training_loop]. unfold ret. cbn [params_after Nat.iter tabulate seq map].
    rewrite app_nil_r, Nat.add_0_r, insert_id by exact Hst.
    now destruct s.
  - cbn [training_loop]. unfold bind at 1.
    rewrite (epoch_body_run p losses s Hp Hst). cbv iota beta.
    rewrite (IH (step p)).
    + cbn [store fp_calls set_weights entered].
      rewrite insert_insert_eq. f_equal.
      * f_equal; [| lia].
        unfold step. now rewrite params_after_shift.
      * rewrite tabulate_S, <- app_assoc. cbn [app]. do 3 f_equal.
        apply tabulate_ext. intros i _. unfold step.
        now rewrite params_after_shift.
    + apply descent_step_consistent.
    + cbn [store set_weights entered]. apply lookup_insert_eq.
Qed.
End TrainingRun.

(** * 14. The logistic function and the logarithm of 2 *)

Lemma expit_0 : expit 0 = 1 / 2.
Proof. unfold expit. rewrite Ropp_0, exp_0. lra. Qed.

Lemma expit_range x : 0 < expit x < 1.
Proof.
  unfold expit. pose proof (exp_pos (- x)) as He.
  split.
  - apply Rdiv_lt_0_compat; lra.
  - apply Rmult_lt_reg_r with (1 + exp (- x)); [lra|].
    unfold Rdiv. rewrite Rmult_assoc, Rinv_l by lra. lra.
Qed.

Lemma expit'_0 : expit' 0 = 1 / 4.
Proof. unfold expit'. rewrite expit_0. lra. Qed.

Lemma expit_gt_half z : 0 < z -> 1 / 2 < expit z.
Proof.
  intros Hz. unfold expit.
  assert (He : exp (- z) < 1) by (rewrite <- exp_0; apply exp_increasing; lra).
  pose proof (exp_pos (- z)) as Hp.
  apply Rmult_lt_reg_r with (1 + exp (- z)); [lra|].
  unfold Rdiv at 2. rewrite Rmult_assoc, Rinv_l by lra. lra.
Qed.


Lemma pow_fact_eq x n : / INR (fact n) * x ^ n = pow_fact x n.
Proof.
  induction n as [|n IH].
  - simpl. field.
  - cbn [pow_fact]. rewrite <- IH.
    change (fact (S n)) with ((S n) * fact n)%nat.
    rewrite mult_INR. cbn [pow].
    field. split; [apply INR_fact_neq_0 | apply not_0_INR; lia].
Qed.

Lemma pow_fact_nonneg x n : 0 <= x -> 0 <= pow_fact x n.
Proof.
  intros Hx. induction n as [|n IH]; cbn [pow_fact]; [lra|].
  apply Rmult_le_pos; [now apply Rmult_le_pos|].
  left. apply Rinv_0_lt_compat. apply lt_0_INR. lia.
Qed.

Lemma exp_series x : Un_cv (fun n => sum_f_R0 (pow_fact x) n) (exp x).
Proof.
  unfold exp. destruct (exist_exp x) as [l Hl]. simpl.
  unfold exp_in, infinite_sum in Hl. intros eps Heps.
  destruct (Hl eps Heps) as [n0 Hn0]. exists n0. intros n Hn.
  rewrite <- (sum_eq (fun i => / INR (fact i) * x ^ i)).
  - now apply Hn0.
  - intros i _. apply pow_fact_eq.
Qed.

Lemma exp_partial_le x n : 0 <= x -> sum_f_R0 (pow_fact x) n <= exp x.
Proof.
  intros Hx. apply sum_incr.
  - apply exp_series.
  - intros i. now apply pow_fact_nonneg.
Qed.

Lemma pow_fact_opp x n : pow_fact (- x) n = (-1) ^ n * pow_fact x n.
Proof.
  induction n as [|n IH]; cbn [pow_fact pow]; [ring|].
  rewrite IH. unfold Rdiv. ring.
Qed.

Lemma exp_opp_partial_ge x m :
  0 <= x <= 1 -> sum_f_R0 (tg_alt (pow_fact x)) (S (2 * m)) <= exp (- x).
Proof.
  intros [Hx0 Hx1].
  apply (alternated_series_ineq (pow_fact x) (exp (- x)) m).
  - intros n. cbn [pow_fact].
    pose proof (pow_fact_nonneg x n Hx0) as Hp.
    assert (Hk : 1 <= INR (S n)) by (rewrite S_INR; pose proof (pos_INR n); lra).
    unfold Rdiv. rewrite Rmult_assoc.
    rewrite <- (Rmult_1_r (pow_fact x n)) at 2.
    apply Rmult_le_compat_l; [exact Hp|].
    apply Rmult_le_reg_r with (INR (S n)); [lra|].
    rewrite Rmult_assoc, Rinv_l by lra. lra.
  - intros eps Heps. destruct (cv_speed_pow_fact x eps Heps) as [n0 Hn0].
    exists n0. intros n Hn. specialize (Hn0 n Hn).
    rewrite <- pow_fact_eq. unfold Rdiv in Hn0. now rewrite Rmult_comm.
  - intros eps Heps. destruct (exp_series (- x) eps Heps) as [n0 Hn0].
    exists n0. intros n Hn. specialize (Hn0 n Hn).
    rewrite (sum_eq _ (pow_fact (- x))); [exact Hn0|].
    intros i _. unfold tg_alt. now rewrite pow_fact_opp.
Qed.

Lemma ln_2_bounds : 693147 / 1000000 < ln 2 < 693148 / 1000000.
Proof.
  split.
  - (* exp a < 2, from a lower bound of exp (- a) *)
    set (a := 693147 / 1000000).
    assert (Ha : 0 <= a <= 1) by (unfold a; lra).
    assert (Hlow : 1 / 2 < exp (- a)).
    { eapply Rlt_le_trans; [| apply (exp_opp_partial_ge a 5 Ha)].
      unfold tg_alt. cbn [sum_f_R0 Nat.mul Nat.add pow_fact pow].
      rewrite !S_INR. cbn [INR]. unfold a. lra. }
    rewrite <- (ln_exp a). apply ln_increasing; [apply exp_pos|].
    pose proof (exp_pos a) as Hp.
    assert (Hinv : exp a * exp (- a) = 1)
      by (rewrite <- exp_plus, Rplus_opp_r; apply exp_0).
    nra.
  - set (b := 693148 / 1000000).
    assert (Hb : 0 <= b) by (unfold b; lra).
    rewrite <- (ln_exp b). apply ln_increasing; [lra|].
    eapply Rlt_le_trans; [| apply (exp_partial_le b 10 Hb)].
    cbn [sum_f_R0 pow_fact]. rewrite !S_INR. cbn [INR]. unfold b. lra.
Qed.

Lemma neg_ln_half : - ln (1 / 2) = ln 2.
Proof.
  replace (1 / 2) with (/ 2) by lra. rewrite ln_Rinv by lra. ring.
Qed.

(** * 15. Stacking one example *)

Lemma at2_repeat (x : list R) N n k :
  (n < N)%nat -> at2 (repeat x N) n k = at2 [x] 0 k.
Proof.
  intros Hn. unfold at2. f_equal. simpl.
  rewrite tabulate_const. now apply tabulate_nth.
Qed.

Lemma at1_repeat (y : R) N n : (n < N)%nat -> at1 (repeat y N) n = at1 [y] 0.
Proof.
  intros Hn. unfold at1. simpl. rewrite tabulate_const. now apply tabulate_nth.
Qed.

Lemma batch_repeat (x : list R) N d : length x = d -> batch N d (repeat x N).
Proof.
  intros Hx. split; [apply repeat_length|]. simpl.
  induction N as [|N IH]; simpl; constructor; assumption.
Qed.

Section Stacked.
Variables (N d : nat) (x : list R) (y_t : R).
Variables (W1 : list (list R)) (b1 W2 : list R) (b2 : R).
Hypothesis HN : (0 < N)%nat.

Let Xs := repeat x N.
Let Ys := repeat y_t N.

Lemma INR_N_neq_0 : INR N <> 0.
Proof. apply not_0_INR. lia. Qed.

Lemma stacked_Z1 n j :
  (n < N)%nat -> spec_Z1 d Xs W1 b1 n j = spec_Z1 d [x] W1 b1 0 j.
Proof.
  intros Hn. unfold spec_Z1. f_equal. apply Rsum_ext. intros k _.
  unfold Xs. now rewrite at2_repeat.
Qed.

Lemma stacked_H n j :
  (n < N)%nat -> spec_H d Xs W1 b1 n j = spec_H d [x] W1 b1 0 j.
Proof. intros Hn. unfold spec_H. now rewrite stacked_Z1. Qed.

Lemma stacked_Z2 n :
  (n < N)%nat ->
  spec_Z2 d 3 Xs W1 b1 W2 b2 n = spec_Z2 d 3 [x] W1 b1 W2 b2 0.
Proof.
  intros Hn. unfold spec_Z2. f_equal. apply Rsum_ext. intros j _.
  now rewrite stacked_H.
Qed.

Lemma stacked_Y n :
  (n < N)%nat ->
  spec_Y d 3 Xs W1 b1 W2 b2 n = spec_Y d 3 [x] W1 b1 W2 b2 0.
Proof. intros Hn. unfold spec_Y. now rewrite stacked_Z2. Qed.

(** Each row of the stacked batch carries the single-example gradient
    divided by [N]. *)
Lemma stacked_dLdZ2 n :
  (n < N)%nat ->
  spec_dLdZ2 N d 3 Xs W1 b1 W2 b2 Ys n
  = / INR N * spec_dLdZ2 1 d 3 [x] W1 b1 W2 b2 [y_t] 0.
Proof.
  intros Hn. unfold spec_dLdZ2, spec_dLdY.
  rewrite stacked_Y, stacked_Z2 by assumption.
  unfold Ys. rewrite at1_repeat by assumption.
  simpl INR. unfold Rdiv. rewrite Rinv_1. ring.
Qed.

Lemma stacked_dLdZ1 n j :
  (n < N)%nat ->
  spec_dLdZ1 N d 3 Xs W1 b1 W2 b2 Ys n j
  = / INR N * spec_dLdZ1 1 d 3 [x] W1 b1 W2 b2 [y_t] 0 j.
Proof.
  intros Hn. unfold spec_dLdZ1, spec_dLdH.
  rewrite stacked_dLdZ2, stacked_Z1 by assumption. ring.
Qed.

Lemma stacked_gradients :
  spec_gradients N d 3 Xs W1 b1 W2 b2 Ys
  = spec_gradients 1 d 3 [x] W1 b1 W2 b2 [y_t].
Proof.
  pose proof INR_N_neq_0 as HN0.
  unfold spec_gradients.
  repeat match goal with
         | |- _ :: _ = _ :: _ => f_equal
         | |- (_, _) = (_, _) => f_equal
         | |- Scalar _ = Scalar _ => f_equal
         end.
  - apply mat_of_ext. intros j k _ _. unfold spec_dLdW1.
    rewrite Rsum_1.
    rewrite (Rsum_const_ext N _
               (/ INR N * (spec_dLdZ1 1 d 3 [x] W1 b1 W2 b2 [y_t] 0 j
                           * at2 [x] 0 k))).
    + now field.
    + intros n Hn. unfold Xs at 2. rewrite stacked_dLdZ1, at2_repeat by assumption.
      ring.
  - apply vec_of_ext. intros j _. unfold spec_dLdb1.
    rewrite Rsum_1.
    rewrite (Rsum_const_ext N _
               (/ INR N * spec_dLdZ1 1 d 3 [x] W1 b1 W2 b2 [y_t] 0 j)).
    + now field.
    + intros n Hn. now apply stacked_dLdZ1.
  - apply vec_of_ext. intros j _. unfold spec_dLdW2.
    rewrite Rsum_1.
    rewrite (Rsum_const_ext N _
               (/ INR N * (spec_H d [x] W1 b1 0 j
                           * spec_dLdZ2 1 d 3 [x] W1 b1 W2 b2 [y_t] 0))).
    + now field.
    + intros n Hn. rewrite stacked_H, stacked_dLdZ2 by assumption. ring.
  - unfold spec_dLdb2.
    rewrite Rsum_1.
    rewrite (Rsum_const_ext N _
               (/ INR N * spec_dLdZ2 1 d 3 [x] W1 b1 W2 b2 [y_t] 0)).
    + now field.
    + intros n Hn. now apply stacked_dLdZ2.
Qed.
End Stacked.

(** * 16. The scenario and the clamped evaluation *)

Lemma scenario_batch : batch 1 2 scenario_X.
Proof. split; [reflexivity | repeat constructor]. Qed.

Lemma scenario_consistent :
  consistent 2 3 [[0; 0]; [0; 0]; [0; 0]] [0; 0; 0] [0; 0; 0].
Proof. repeat split; repeat constructor. Qed.

Lemma scenario_store : store scenario_state !! 0%nat = Some scenario_params.
Proof. reflexivity. Qed.

Ltac index_cases j :=
  destruct j as [|[|[|j]]]; try (destruct j).

Lemma scenario_Z1 n j : spec_Z1 2 scenario_X zeros32 zeros3 n j = 0.
Proof.
  unfold spec_Z1, Rsum, tabulate, at1, at2, scenario_X, zeros32, zeros3.
  index_cases j; destruct n as [|[|n]]; simpl; ring.
Qed.

Lemma scenario_H n j : spec_H 2 scenario_X zeros32 zeros3 n j = 1 / 2.
Proof. unfold spec_H. rewrite scenario_Z1. apply expit_0. Qed.

Lemma scenario_Z2 n : spec_Z2 2 3 scenario_X zeros32 zeros3 zeros3 0 n = 0.
Proof.
  unfold spec_Z2, Rsum, tabulate, at1, zeros3. simpl. ring.
Qed.

Lemma scenario_Y n : spec_Y 2 3 scenario_X zeros32 zeros3 zeros3 0 n = 1 / 2.
Proof. unfold spec_Y. rewrite scenario_Z2. apply expit_0. Qed.

Lemma scenario_dLdZ2 :
  spec_dLdZ2 1 2 3 scenario_X zeros32 zeros3 zeros3 0 [1] 0 = - (1 / 2).
Proof.
  unfold spec_dLdZ2, spec_dLdY. rewrite scenario_Y, scenario_Z2, expit'_0.
  unfold at1. simpl. lra.
Qed.

Lemma scenario_L :
  spec_L 1 2 3 scenario_X zeros32 zeros3 zeros3 0 [1] = - ln (1 / 2).
Proof.
  unfold spec_L. rewrite Rsum_1, scenario_Y. unfold at1. simpl. lra.
Qed.

Lemma scenario_forward :
  forward_propagation (Mat 2 scenario_X) 0%nat scenario_state
  = (entered scenario_state,
     Ok (Vec [1 / 2], Vec [0], Mat 3 [[1 / 2; 1 / 2; 1 / 2]], Mat 3 [[0; 0; 0]])).
Proof.
  rewrite (forward_propagation_run 1 2 3 scenario_X zeros32 zeros3 zeros3 0
             0%nat scenario_state scenario_batch scenario_consistent
             scenario_store).
  unfold vec_of, mat_of, tabulate. cbn [seq map].
  now rewrite !scenario_Y, !scenario_Z2, !scenario_H, !scenario_Z1.
Qed.

Lemma scenario_lines :
  line_L 1 (Vec [1 / 2]) (Vec [1]) = Ok (Scalar (- ln (1 / 2))) /\
  line_dLdY 1 (Vec [1 / 2]) (Vec [1]) = Ok (Vec [-2]) /\
  sigmoid_prime (Vec [0]) = Ok (Vec [1 / 4]) /\
  line_dLdZ2 (Vec [-2]) (Vec [0]) = Ok (Vec [- (1 / 2)]).
Proof.
  repeat split.
  - unfold line_L. cbn. do 2 f_equal. lra.
  - unfold line_dLdY. cbn. do 3 f_equal. lra.
  - unfold sigmoid_prime. cbn. rewrite expit_0. do 3 f_equal. lra.
  - unfold line_dLdZ2, sigmoid_prime. cbn. rewrite expit_0. do 3 f_equal. lra.
Qed.

Lemma scenario_backward :
  back_propagation (Mat 2 scenario_X) (Vec [1]) 0%nat scenario_state
  = (entered scenario_state,
     Ok ([("W1", Mat 2 [[0; 0]; [0; 0]; [0; 0]]); ("b1", Vec [0; 0; 0]);
          ("W2", Vec [- (1 / 4); - (1 / 4); - (1 / 4)]);
          ("b2", Scalar (- (1 / 2)))],
         Scalar (- ln (1 / 2)))).
Proof.
  rewrite (back_propagation_run 1 2 3 scenario_X zeros32 zeros3 zeros3 0 [1]
             0%nat scenario_state); [| lia | apply scenario_batch | reflexivity
             | apply scenario_consistent | apply scenario_store].
  unfold back_propagation_outcome.
  destruct (decide (3 = 3)%nat) as [_|Hne]; [|congruence].
  rewrite scenario_L.
  unfold spec_gradients, vec_of, mat_of, tabulate. cbn [seq map].
  unfold spec_dLdW1, spec_dLdb1, spec_dLdW2, spec_dLdb2.
  rewrite !Rsum_1. unfold spec_dLdZ1, spec_dLdH.
  rewrite !scenario_dLdZ2, !scenario_Z1, !scenario_H, expit'_0.
  unfold at1, at2, zeros3, scenario_X. cbn [nth].
  repeat match goal with
         | |- _ = _ => f_equal
         end; lra.
Qed.


Lemma scenario_step_W2 j :
  (j < 3)%nat ->
  at1 (pW2 (descent_step 1 2 1 scenario_X [1] scenario_pset)) j = 1 / 4.
Proof.
  intros Hj. unfold descent_step. cbn [scenario_pset pW1 pb1 pW2 pb2].
  unfold at1 at 1. rewrite tabulate_nth by assumption.
  unfold spec_dLdW2. rewrite Rsum_1, scenario_dLdZ2, scenario_H.
  assert (H0 : at1 zeros3 j = 0) by (unfold at1, zeros3; index_cases j; reflexivity).
  rewrite H0. lra.
Qed.

Lemma scenario_step_b2 :
  pb2 (descent_step 1 2 1 scenario_X [1] scenario_pset) = 1 / 2.
Proof.
  unfold descent_step. cbn [scenario_pset pW1 pb1 pW2 pb2].
  unfold spec_dLdb2. rewrite Rsum_1, scenario_dLdZ2. lra.
Qed.

Lemma scenario_step_Z2 :
  let p1 := descent_step 1 2 1 scenario_X [1] scenario_pset in
  0 < spec_Z2 2 3 scenario_X (pW1 p1) (pb1 p1) (pW2 p1) (pb2 p1) 0.
Proof.
  intros p1. unfold spec_Z2. rewrite Rsum_3. unfold p1.
  rewrite !scenario_step_W2, scenario_step_b2 by lia.
  fold p1. unfold spec_H.
  pose proof (expit_range (spec_Z1 2 scenario_X (pW1 p1) (pb1 p1) 0 0)).
  pose proof (expit_range (spec_Z1 2 scenario_X (pW1 p1) (pb1 p1) 0 1)).
  pose proof (expit_range (spec_Z1 2 scenario_X (pW1 p1) (pb1 p1) 0 2)).
  lra.
Qed.

(** In the scenario, one update with learning rate 1 changes the loss. *)
Lemma scenario_loss_after_update :
  loss_of 1 2 scenario_X [1] (descent_step 1 2 1 scenario_X [1] scenario_pset)
  < loss_of 1 2 scenario_X [1] scenario_pset.
Proof.
  unfold loss_of at 2. cbn [scenario_pset pW1 pb1 pW2 pb2]. rewrite scenario_L.
  unfold loss_of, spec_L. rewrite Rsum_1. unfold spec_Y at 1 2.
  pose proof scenario_step_Z2 as HZ. cbv zeta in HZ.
  set (z := spec_Z2 _ _ _ _ _ _ _ _) in *. clearbody z.
  pose proof (expit_gt_half z HZ) as HY.
  pose proof (ln_increasing (1 / 2) (expit z) ltac:(lra) HY) as Hln.
  unfold at1. simpl. lra.
Qed.


(** At a prediction equal to 1 the divisor [Y (1 - Y)] of the line of
    [dLdY] is 0: nothing in the line guards the division. *)
Lemma line_dLdY_divisor_at_saturation :
  (let? omY := one_minus (Vec [1]) in np.multiply (Vec [1]) omY) = Ok (Vec [1 * (1 - 1)])
  /\ 1 * (1 - 1) = 0.
Proof. split; [reflexivity | ring]. Qed.

(** Over binary64 the quotient of that line is then not a number for the
    label 1, and infinite for the label 0. *)
Lemma line_dLdY_at_saturation_binary64 :
  F64.line_dLdY 1 (F64.Vec [PrimFloat.one]) (F64.Vec [PrimFloat.one])
  = Ok (F64.Vec [PrimFloat.nan]) /\
  F64.line_dLdY 1 (F64.Vec [PrimFloat.one]) (F64.Vec [PrimFloat.zero])
  = Ok (F64.Vec [PrimFloat.infinity]).
Proof. split; reflexivity. Qed.

(** * 17. The claims *)

(** C1.  For every batch [X] of shape (N, 2), label vector [Y_T] of length
    N and parameter set of hidden width 3, [back_propagation] returns the
    four gradients of the chain-rule stages
    [dL/dY = (1/N) (Y - Y_T) / (Y (1 - Y))],
    [dL/dZ2 = dL/dY * sigmoid'(Z2)] with
    [sigmoid'(x) = sigmoid(x) (1 - sigmoid(x))] computed from [Z2],
    [dL/dW2 = H^T . dL/dZ2], [dL/db2 = 1^T . dL/dZ2],
    [dL/dH = dL/dZ2 . W2], [dL/dZ1 = dL/dH * sigmoid'(Z1)],
    [dL/dW1 = (dL/dZ1)^T . X], [dL/db1 = (dL/dZ1)^T . 1],
    where [(Y, Z2, H, Z1)] is the forward trace of [X] under the current
    parameters, and each gradient has the shape of its parameter. *)
Theorem back_propagation_chain_rule N X W1 b1 W2 b2 Y_T weights s :
  (0 < N)%nat ->
  batch N 2 X -> length Y_T = N -> consistent 2 3 W1 b1 W2 ->
  store s !! weights = Some (params 2 W1 b1 W2 b2) ->
  let Z1 := spec_Z1 2 X W1 b1 in
  let H := fun n j => expit (Z1 n j) in
  let Z2 := fun n => Rsum 3 (fun j => H n j * at1 W2 j) + b2 in
  let Y := fun n => expit (Z2 n) in
  let dLdY := fun n => 1 / INR N * ((Y n - at1 Y_T n) / (Y n * (1 - Y n))) in
  let dLdZ2 := fun n => dLdY n * (expit (Z2 n) * (1 - expit (Z2 n))) in
  let dLdH := fun n j => dLdZ2 n * at1 W2 j in
  let dLdZ1 := fun n j => dLdH n j * (expit (Z1 n j) * (1 - expit (Z1 n j))) in
  exists dLdW1 dLdb1 dLdW2 dLdb2 L s' s'',
    forward_propagation (Mat 2 X) weights s
      = (s', Ok (vec_of N Y, vec_of N Z2, mat_of N 3 H, mat_of N 3 Z1)) /\
    back_propagation (Mat 2 X) (Vec Y_T) weights s
      = (s'', Ok ([("W1", dLdW1); ("b1", dLdb1); ("W2", dLdW2); ("b2", dLdb2)],
                  L)) /\
    dLdW2 = vec_of 3 (fun j => Rsum N (fun n => H n j * dLdZ2 n)) /\
    dLdb2 = Scalar (Rsum N (fun n => dLdZ2 n)) /\
    dLdW1 = mat_of 3 2 (fun j k => Rsum N (fun n => dLdZ1 n j * at2 X n k)) /\
    dLdb1 = vec_of 3 (fun j => Rsum N (fun n => dLdZ1 n j)) /\
    shape dLdW1 = shape (Mat 2 W1) /\ shape dLdb1 = shape (Vec b1) /\
    shape dLdW2 = shape (Vec W2) /\ shape dLdb2 = shape (Scalar b2).
Proof.
  intros HN HX HY Hc Hst. intros.
  eexists _, _, _, _, _, _, _. split; [| split].
  - apply (forward_propagation_run N 2 3); eassumption.
  - rewrite (back_propagation_run N 2 3 X W1 b1 W2 b2 Y_T weights s);
      try assumption.
    reflexivity.
  - destruct Hc as (Hh & HW1 & Hb1 & HW2).
    rewrite !shape_vec_of, !shape_mat_of. simpl shape.
    rewrite Hh, Hb1, HW2. repeat split; reflexivity.
Qed.

Lemma back_propagation_chain_rule_witness :
  exists dLdW1 dLdb1 dLdW2 dLdb2 L s'',
    back_propagation (Mat 2 scenario_X) (Vec [1]) 0%nat scenario_state
      = (s'', Ok ([("W1", dLdW1); ("b1", dLdb1); ("W2", dLdW2); ("b2", dLdb2)],
                  L)) /\
    shape dLdW1 = [3%nat; 2%nat] /\ shape dLdb1 = [3%nat] /\
    shape dLdW2 = [3%nat] /\ shape dLdb2 = [].
Proof.
  destruct (back_propagation_chain_rule 1 scenario_X
              [[0; 0]; [0; 0]; [0; 0]] [0; 0; 0] [0; 0; 0] 0 [1] 0%nat
              scenario_state)
    as (dLdW1 & dLdb1 & dLdW2 & dLdb2 & L & s' & s'' & _ & Hrun & _ & _ & _ & _
        & S1 & S2 & S3 & S4).
  - lia.
  - split; [reflexivity | repeat constructor].
  - reflexivity.
  - repeat split; repeat constructor.
  - reflexivity.
  - exists dLdW1, dLdb1, dLdW2, dLdb2, L, s''. repeat split; assumption.
Defined.

(** C2.  For [X = [[1, 0]]] and all-zero parameters ([W1 = zeros(3,2)],
    [b1 = zeros(3)], [W2 = zeros(3)], [b2 = 0]), [forward_propagation]
    returns [Z1] with the single row [[0, 0, 0]], [H] with the single row
    [[0.5, 0.5, 0.5]], [Z2 = [0]] and [Y = [0.5]]; with [Y_T = [1]] the
    loss returned by [back_propagation] is [- log 0.5], a number between
    0.693147 and 0.693148; the backward intermediates that the lines of
    [back_propagation] compute from that forward trace are [dL/dY = -2],
    [sigmoid'(0) = 0.25] and [dL/dZ2 = -0.5]; and the gradients that
    [back_propagation] returns are the ones its lines compute from these
    intermediates: [dL/db2 = -0.5], [dL/dW2 = [-0.25, -0.25, -0.25]], and
    zero for [W1] and [b1]. *)
Theorem scenario_values :
  exists Y Z2 H Z1 L dLdY ds dLdZ2 dLdW2 dLdb2 dLdW1 dLdb1,
    forward_propagation (Mat 2 [[1; 0]]) 0%nat scenario_state
    = (entered scenario_state, Ok (Y, Z2, H, Z1)) /\
    Z1 = Mat 3 [[0; 0; 0]] /\ H = Mat 3 [[1 / 2; 1 / 2; 1 / 2]] /\
    Z2 = Vec [0] /\ Y = Vec [1 / 2] /\
    back_propagation (Mat 2 [[1; 0]]) (Vec [1]) 0%nat scenario_state
    = (entered scenario_state,
       Ok ([("W1", dLdW1); ("b1", dLdb1); ("W2", dLdW2); ("b2", dLdb2)], L)) /\
    line_L 1 Y (Vec [1]) = Ok L /\ L = Scalar (- ln (1 / 2)) /\
    693147 / 1000000 < - ln (1 / 2) < 693148 / 1000000 /\
    line_dLdY 1 Y (Vec [1]) = Ok dLdY /\
    dLdY = Vec [(1 / 2 - 1) / (1 / 2 * (1 / 2))] /\
    (1 / 2 - 1) / (1 / 2 * (1 / 2)) = -2 /\
    sigmoid_prime Z2 = Ok ds /\ ds = Vec [25 / 100] /\
    line_dLdZ2 dLdY Z2 = Ok dLdZ2 /\ dLdZ2 = Vec [- (5 / 10)] /\
    line_dLdW2 H dLdZ2 = Ok dLdW2 /\
    dLdW2 = Vec [- (25 / 100); - (25 / 100); - (25 / 100)] /\
    line_dLdb2 dLdZ2 1 = Ok dLdb2 /\ dLdb2 = Scalar (- (5 / 10)) /\
    dLdW1 = Mat 2 [[0; 0]; [0; 0]; [0; 0]] /\ dLdb1 = Vec [0; 0; 0].
Proof.
  destruct scenario_lines as (HL & HdY & Hs & HdZ).
  assert (E2 : (1 / 2 - 1) / (1 / 2 * (1 / 2)) = -2) by lra.
  exists (Vec [1 / 2]), (Vec [0]), (Mat 3 [[1 / 2; 1 / 2; 1 / 2]]),
    (Mat 3 [[0; 0; 0]]), (Scalar (- ln (1 / 2))),
    (Vec [(1 / 2 - 1) / (1 / 2 * (1 / 2))]), (Vec [25 / 100]),
    (Vec [- (5 / 10)]), (Vec [- (25 / 100); - (25 / 100); - (25 / 100)]),
    (Scalar (- (5 / 10))), (Mat 2 [[0; 0]; [0; 0]; [0; 0]]), (Vec [0; 0; 0]).
  split; [exact scenario_forward|].
  do 4 (split; [reflexivity|]).
  split.
  { pose proof scenario_backward as B.
    assert (E4 : - (1 / 4) = - (25 / 100)) by lra.
    assert (E5 : - (1 / 2) = - (5 / 10)) by lra.
    rewrite E4, E5 in B. exact B. }
  split; [exact HL|]. split; [reflexivity|].
  split; [rewrite neg_ln_half; exact ln_2_bounds|].
  split; [rewrite HdY; now rewrite E2|]. split; [reflexivity|].
  split; [exact E2|].
  split; [rewrite Hs; do 3 f_equal; lra|]. split; [reflexivity|].
  split; [rewrite E2, HdZ; do 3 f_equal; lra|]. split; [reflexivity|].
  split; [unfold line_dLdW2; cbn; repeat f_equal; lra|].
  split; [reflexivity|].
  split; [unfold line_dLdb2; cbn; do 2 f_equal; lra|].
  repeat split.
Qed.

(** C3.  For every batch [X] of shape (N, d_in) and every shape-consistent
    parameter set of hidden width [h], [forward_propagation] returns the
    quadruple [(Y, Z2, H, Z1)] with [Z1 = X.W1^T + b1] (the bias added to
    each of the N rows), [H = sigmoid(Z1)], [Z2 = H.W2^T + b2] and
    [Y = sigmoid(Z2)], where [sigmoid x = 1 / (1 + exp (- x))]; [Y] and
    [Z2] have length N, [H] and [Z1] have shape N x h; and the store, hence
    the parameter set, is the same after the call as before. *)
Theorem forward_propagation_contract N d h X W1 b1 W2 b2 weights s :
  batch N d X -> consistent d h W1 b1 W2 ->
  store s !! weights = Some (params d W1 b1 W2 b2) ->
  exists Y Z2 H Z1 s',
    forward_propagation (Mat d X) weights s = (s', Ok (Y, Z2, H, Z1)) /\
    Z1 = mat_of N h (spec_Z1 d X W1 b1) /\
    H = mat_of N h (spec_H d X W1 b1) /\
    Z2 = vec_of N (spec_Z2 d h X W1 b1 W2 b2) /\
    Y = vec_of N (spec_Y d h X W1 b1 W2 b2) /\
    shape Y = [N] /\ shape Z2 = [N] /\ shape H = [N; h] /\ shape Z1 = [N; h] /\
    store s' = store s.
Proof.
  intros HX Hc Hst.
  eexists _, _, _, _, _. split.
  - apply (forward_propagation_run N d h); eassumption.
  - rewrite !shape_vec_of, !shape_mat_of. repeat split; reflexivity.
Qed.

Lemma forward_propagation_contract_witness :
  exists Y Z2 H Z1 s',
    forward_propagation (Mat 2 scenario_X) 0%nat scenario_state
      = (s', Ok (Y, Z2, H, Z1)) /\
    Z1 = mat_of 1 3 (spec_Z1 2 scenario_X [[0; 0]; [0; 0]; [0; 0]] [0; 0; 0]) /\
    H = mat_of 1 3 (spec_H 2 scenario_X [[0; 0]; [0; 0]; [0; 0]] [0; 0; 0]) /\
    Z2 = vec_of 1 (spec_Z2 2 3 scenario_X [[0; 0]; [0; 0]; [0; 0]] [0; 0; 0]
                     [0; 0; 0] 0) /\
    Y = vec_of 1 (spec_Y 2 3 scenario_X [[0; 0]; [0; 0]; [0; 0]] [0; 0; 0]
                    [0; 0; 0] 0) /\
    shape Y = [1%nat] /\ shape Z2 = [1%nat] /\
    shape H = [1%nat; 3%nat] /\ shape Z1 = [1%nat; 3%nat] /\
    store s' = store scenario_state.
Proof.
  apply (forward_propagation_contract 1 2 3 scenario_X
           [[0; 0]; [0; 0]; [0; 0]] [0; 0; 0] [0; 0; 0] 0 0%nat scenario_state).
  - split; [reflexivity | repeat constructor].
  - repeat split; repeat constructor.
  - reflexivity.
Defined.




(** C5.  For every data set, initial parameter set, epoch count [E] and
    learning rate [epsilon], the training loop runs exactly [E] iterations,
    whatever the losses are: each iteration computes the gradients on the
    whole data set (one call of [back_propagation], hence one forward
    pass), then replaces each of the four parameter tensors [P] by
    [P - epsilon * dL/dP], then appends the loss to the history; after the
    run the history has [E] entries, in the order of the iterations. *)
Theorem training_loop_runs_all_epochs N d X Y_T p weights epochs epsilon s :
  (0 < N)%nat ->
  batch N d X -> length Y_T = N -> consistent_pset d 3 p ->
  store s !! weights = Some (params_of d p) ->
  exists losses s',
    train (Mat d X) (Vec Y_T) weights epochs epsilon s = (s', Ok losses) /\
    length losses = epochs /\
    fp_calls s' = (fp_calls s + epochs)%nat /\
    store s' !! weights
      = Some (params_of d (params_after N d epsilon X Y_T epochs p)) /\
    (forall i, (i < epochs)%nat ->
       nth i losses (Scalar 0)
       = Scalar (loss_of N d X Y_T (params_after N d epsilon X Y_T i p))) /\
    (forall losses0,
       epoch_body (Mat d X) (Vec Y_T) weights epsilon losses0 s
       = (set_weights weights
            (params_of d (descent_step N d epsilon X Y_T p)) (entered s),
          Ok (losses0 ++ [Scalar (loss_of N d X Y_T p)]))) /\
    back_propagation (Mat d X) (Vec Y_T) weights s
    = (entered s,
       Ok (spec_gradients N d 3 X (pW1 p) (pb1 p) (pW2 p) (pb2 p) Y_T,
           Scalar (loss_of N d X Y_T p))).
Proof.
  intros HN HX HY Hp Hst.
  eexists _, _. split; [| split; [| split; [| split; [| split; [| split]]]]].
  - unfold train. apply (training_loop_run N d epsilon X Y_T weights HN HX HY);
      eassumption.
  - cbn [app]. apply tabulate_length.
  - reflexivity.
  - cbn [store]. apply lookup_insert_eq.
  - intros i Hi. cbn [app]. now rewrite tabulate_nth by assumption.
  - intros losses0.
    now apply (epoch_body_run N d epsilon X Y_T weights HN HX HY).
  - rewrite (back_propagation_run N d 3 X (pW1 p) (pb1 p) (pW2 p) (pb2 p)
               Y_T weights s HN HX HY Hp Hst).
    unfold back_propagation_outcome.
    now destruct (decide (3 = 3)%nat).
Qed.

Lemma training_loop_runs_all_epochs_witness :
  exists losses s',
    train (Mat 2 scenario_X) (Vec [1]) 0%nat 4 1 scenario_state
      = (s', Ok losses) /\
    length losses = 4%nat /\
    fp_calls s' = 4%nat.
Proof.
  destruct (training_loop_runs_all_epochs 1 2 scenario_X [1] scenario_pset
              0%nat 4 1 scenario_state)
    as (losses & s' & Hrun & Hlen & Hcalls & _).
  - lia.
  - split; [reflexivity | repeat constructor].
  - reflexivity.
  - repeat split; repeat constructor.
  - reflexivity.
  - exists losses, s'. repeat split; assumption.
Defined.

(** C6, as stated, fails: over binary64 the four gradient tensors of a
    stacked batch are not always exactly those of the single example.
    For the point [(1, 1)] with label 1 and the parameters [W1 = 0],
    [b1 = 0], [W2 = [7, -3, -4]], [b2 = 0], whatever the C library
    computes for [sigmoid] away from 0 and for [np.log] (with
    [sigmoid(0) = 0.5]), [back_propagation] on three copies of the example
    returns [-0.87499999999999989] where it returns [-0.875] on the single
    example, in the gradients of [W1] and of [b1]: the sum of three times
    a third of a number is rounded. *)
Lemma back_propagation_stacking_rounds :
  (forall expit ln : PrimFloat.float -> PrimFloat.float,
     expit PrimFloat.zero = F64.half ->
     exists L3 L1,
       F64.back_propagation expit ln (F64.example_X 3) (F64.example_Y_T 3)
         F64.example_weights
       = Ok (F64.gradients_of_three, L3) /\
       F64.back_propagation expit ln (F64.example_X 1) (F64.example_Y_T 1)
         F64.example_weights
       = Ok (F64.gradients_of_one, L1)) /\
  F64.gradients_of_three <> F64.gradients_of_one /\
  F64.differ (F64.first_of_b1 F64.gradients_of_three)
    (F64.first_of_b1 F64.gradients_of_one) = true.
Proof.
  split; [| split].
  - intros expit ln H0. cbv in H0.
    eexists _, _. split.
    + cbv. rewrite !H0. cbv. rewrite !H0. cbv. reflexivity.
    + cbv. rewrite !H0. cbv. rewrite !H0. cbv. reflexivity.
  - intros E.
    assert (H : F64.differ (F64.first_of_b1 F64.gradients_of_three)
                  (F64.first_of_b1 F64.gradients_of_one) = true)
      by reflexivity.
    rewrite E in H. vm_compute in H. discriminate.
  - reflexivity.
Qed.

(** C6, amended.  Over exact real arithmetic: for every example
    [(x, y_t)] and every parameter set, [back_propagation] on the batch
    made of that example stacked [N >= 1] times, with the label repeated,
    returns the same four gradients as on the batch of the single
    example. *)
Theorem back_propagation_batch_size_invariance
    N d x y_t W1 b1 W2 b2 weights s :
  (0 < N)%nat -> length x = d -> consistent d 3 W1 b1 W2 ->
  store s !! weights = Some (params d W1 b1 W2 b2) ->
  exists gradients L L' s1 s2,
    back_propagation (Mat d (repeat x N)) (Vec (repeat y_t N)) weights s
      = (s1, Ok (gradients, L)) /\
    back_propagation (Mat d [x]) (Vec [y_t]) weights s
      = (s2, Ok (gradients, L')) /\
    map fst gradients = ["W1"; "b1"; "W2"; "b2"].
Proof.
  intros HN Hx Hc Hst.
  eexists _, _, _, _, _. split; [| split].
  - rewrite (back_propagation_run N d 3 (repeat x N) W1 b1 W2 b2
               (repeat y_t N) weights s); try assumption.
    + unfold back_propagation_outcome.
      destruct (decide (3 = 3)%nat) as [_|Hne]; [|congruence].
      rewrite stacked_gradients by assumption. reflexivity.
    + now apply batch_repeat.
    + apply repeat_length.
  - rewrite (back_propagation_run 1 d 3 [x] W1 b1 W2 b2 [y_t] weights s);
      try assumption; try lia.
    + reflexivity.
    + split; [reflexivity|]. simpl. now constructor.
    + reflexivity.
  - reflexivity.
Qed.

Lemma back_propagation_batch_size_invariance_witness :
  exists gradients L L' s1 s2,
    back_propagation (Mat 2 (repeat [1; 0] 5)) (Vec (repeat 1 5)) 0%nat
      scenario_state = (s1, Ok (gradients, L)) /\
    back_propagation (Mat 2 [[1; 0]]) (Vec [1]) 0%nat scenario_state
      = (s2, Ok (gradients, L')) /\
    map fst gradients = ["W1"; "b1"; "W2"; "b2"].
Proof.
  apply (back_propagation_batch_size_invariance 5 2 [1; 0] 1
           [[0; 0]; [0; 0]; [0; 0]] [0; 0; 0] [0; 0; 0] 0 0%nat scenario_state).
  - lia.
  - reflexivity.
  - repeat split; repeat constructor.
  - reflexivity.
Defined.

(** C7.  One call of [back_propagation] enters [forward_propagation] at
    most once, and exactly once when it returns the gradients of the four
    parameter tensors; the stages after the forward pass work on the
    tensors [Z1], [H], [Z2], [Y] of that pass: the only one of them that is
    not a pure array expression, the line of [dLdH], reads [weights['W2']]
    and leaves the state, hence the count of forward passes, as it is. *)
Theorem back_propagation_one_forward_pass X Y_T weights s :
  (fp_calls (fst (back_propagation X Y_T weights s)) <= fp_calls s + 1)%nat /\
  (forall r, snd (back_propagation X Y_T weights s) = Ok r ->
     fp_calls (fst (back_propagation X Y_T weights s)) = (fp_calls s + 1)%nat) /\
  (forall dLdZ2 N_points s0,
     fst (line_dLdH dLdZ2 N_points weights s0) = s0).
Proof.
  rewrite back_propagation_state. split; [| split].
  - destruct (shape0 X); simpl; lia.
  - intros r Hr. destruct (shape0 X) as [n|e] eqn:E; simpl; [lia|].
    rewrite (back_propagation_raise_shape0 X Y_T weights s e E) in Hr.
    discriminate.
  - intros dLdZ2 N_points s0. apply reads_only_line_dLdH.
Qed.

(** C8.  [back_propagation] is defined only for hidden width 3: for a
    shape-consistent parameter set of hidden width [h <> 3] ([W1] of shape
    (h, 2), [b1] and [W2] of length h), [forward_propagation] succeeds
    with the documented output shapes, while [back_propagation] fails in
    the line of [dLdH], where [weights['W2'].reshape(1, 3)] cannot reshape
    the [h] entries of [W2]. *)
Theorem back_propagation_hidden_width_3 N h X W1 b1 W2 b2 Y_T weights s :
  (0 < N)%nat -> h <> 3%nat ->
  batch N 2 X -> length Y_T = N -> consistent 2 h W1 b1 W2 ->
  store s !! weights = Some (params 2 W1 b1 W2 b2) ->
  (exists Y Z2 H Z1 s',
     forward_propagation (Mat 2 X) weights s = (s', Ok (Y, Z2, H, Z1)) /\
     shape Y = [N] /\ shape Z2 = [N] /\ shape H = [N; h] /\ shape Z1 = [N; h]) /\
  snd (back_propagation (Mat 2 X) (Vec Y_T) weights s)
  = Raise (ValueError_reshape h [1%nat; 3%nat]) /\
  (forall dLdZ2,
     line_dLdH (vec_of N dLdZ2) N weights s
     = (s, Raise (ValueError_reshape h [1%nat; 3%nat]))).
Proof.
  intros HN Hh HX HY Hc Hst. split; [| split].
  - eexists _, _, _, _, _. split.
    + apply (forward_propagation_run N 2 h); eassumption.
    + rewrite !shape_vec_of, !shape_mat_of. repeat split; reflexivity.
  - rewrite (back_propagation_run N 2 h X W1 b1 W2 b2 Y_T weights s);
      try assumption.
    unfold back_propagation_outcome. simpl.
    now destruct (decide (h = 3%nat)).
  - intros dLdZ2.
    destruct Hc as (_ & _ & _ & HW2).
    rewrite (line_dLdH_run N h dLdZ2 weights s _ W2 Hst eq_refl HW2).
    now destruct (decide (h = 3%nat)).
Qed.

Lemma back_propagation_hidden_width_3_witness :
  snd (back_propagation (Mat 2 scenario_X) (Vec [1]) 0%nat
         (mkState {[ 0%nat := params 2 [[0; 0]; [0; 0]] [0; 0] [0; 0] 0 ]} 0))
  = Raise (ValueError_reshape 2 [1%nat; 3%nat]).
Proof.
  apply (back_propagation_hidden_width_3 1 2 scenario_X [[0; 0]; [0; 0]]
           [0; 0] [0; 0] 0 [1] 0%nat).
  - lia.
  - lia.
  - split; [reflexivity | repeat constructor].
  - reflexivity.
  - repeat split; repeat constructor.
  - reflexivity.
Defined.

(** C9.  [back_propagation] never writes the parameter set: for every
    input the store is the same after the call as before (and so it is
    after [forward_propagation]).  In an iteration of the training loop the
    store is written by the update step alone: the state after the
    iteration is the state that [update] leaves, started in the state that
    [back_propagation] left; and [update] writes no other dictionary than
    [weights]. *)
Theorem back_propagation_preserves_parameters X Y_T weights s :
  store (fst (back_propagation X Y_T weights s)) = store s /\
  store (fst (forward_propagation X weights s)) = store s /\
  (forall epsilon losses,
     match back_propagation X Y_T weights s with
     | (s1, Ok (gradients, L)) =>
         match keys weights s1 with
         | (_, Ok names) =>
             fst (epoch_body X Y_T weights epsilon losses s)
             = fst (update names weights epsilon gradients s1)
         | (_, Raise _) =>
             store (fst (epoch_body X Y_T weights epsilon losses s)) = store s
         end
     | (_, Raise _) =>
         store (fst (epoch_body X Y_T weights epsilon losses s)) = store s
     end) /\
  (forall names epsilon gradients l,
     l <> weights ->
     store (fst (update names weights epsilon gradients s)) !! l = store s !! l).
Proof.
  assert (Hb : store (fst (back_propagation X Y_T weights s)) = store s).
  { rewrite back_propagation_state. now destruct (shape0 X). }
  split; [exact Hb | split; [| split]].
  - now rewrite forward_propagation_state.
  - intros epsilon losses.
    destruct (back_propagation X Y_T weights s) as [s1 [[gradients L]|e]] eqn:E;
      simpl in Hb.
    + pose proof (reads_only_keys weights s1) as Hk.
      destruct (keys weights s1) as [s2 [names|e]] eqn:K; simpl in Hk; subst s2.
      * unfold epoch_body, bind. rewrite E, K.
        now destruct (update names weights epsilon gradients s1) as [s3 [[]|e]].
      * unfold epoch_body, bind. now rewrite E, K.
    + unfold epoch_body, bind. now rewrite E.
  - intros names epsilon gradients l Hl. now apply update_frame.
Qed.

(** C10.  The loss appended in iteration [i] (counted from 0) is the loss
    that [back_propagation] computes from the parameters before the update
    of that iteration, that is after [i] updates; so the last entry of the
    history is the loss of the parameters before the last update, while the
    store holds the parameters after it. *)
Theorem loss_history_precedes_update N d X Y_T p weights epochs epsilon s :
  (0 < N)%nat ->
  batch N d X -> length Y_T = N -> consistent_pset d 3 p ->
  store s !! weights = Some (params_of d p) ->
  exists losses s',
    train (Mat d X) (Vec Y_T) weights epochs epsilon s = (s', Ok losses) /\
    (forall i s_i,
       (i < epochs)%nat ->
       store s_i !! weights
         = Some (params_of d (params_after N d epsilon X Y_T i p)) ->
       exists gradients s_i',
         back_propagation (Mat d X) (Vec Y_T) weights s_i
         = (s_i', Ok (gradients, nth i losses (Scalar 0)))) /\
    store s' !! weights
      = Some (params_of d (params_after N d epsilon X Y_T epochs p)) /\
    (forall epochs', epochs = S epochs' ->
       List.last losses (Scalar 0)
       = Scalar (loss_of N d X Y_T
                   (params_after N d epsilon X Y_T epochs' p))).
Proof.
  intros HN HX HY Hp Hst.
  eexists _, _. split; [| split; [| split]].
  - unfold train. apply (training_loop_run N d epsilon X Y_T weights HN HX HY);
      eassumption.
  - intros i s_i Hi Hsi. cbn [app]. rewrite tabulate_nth by assumption.
    eexists _, _.
    rewrite (back_propagation_run N d 3 X _ _ _ _ Y_T weights s_i HN HX HY
               (params_after_consistent N d epsilon X Y_T i p Hp) Hsi).
    unfold back_propagation_outcome.
    destruct (decide (3 = 3)%nat) as [_|Hne]; [|congruence].
    reflexivity.
  - cbn [store]. apply lookup_insert_eq.
  - intros epochs' ->. cbn [app].
    unfold tabulate. rewrite seq_S, map_app. cbn [map].
    now rewrite List.last_last.
Qed.

Lemma loss_history_precedes_update_witness :
  exists losses s',
    train (Mat 2 scenario_X) (Vec [1]) 0%nat 1 1 scenario_state
      = (s', Ok losses) /\
    List.last losses (Scalar 0) = Scalar (loss_of 1 2 scenario_X [1] scenario_pset) /\
    store s' !! 0%nat
      = Some (params_of 2 (descent_step 1 2 1 scenario_X [1] scenario_pset)) /\
    loss_of 1 2 scenario_X [1] (descent_step 1 2 1 scenario_X [1] scenario_pset)
    <> loss_of 1 2 scenario_X [1] scenario_pset.
Proof.
  destruct (loss_history_precedes_update 1 2 scenario_X [1] scenario_pset
              0%nat 1 1 scenario_state)
    as (losses & s' & Hrun & _ & Hfinal & Hlast).
  - lia.
  - split; [reflexivity | repeat constructor].
  - reflexivity.
  - repeat split; repeat constructor.
  - reflexivity.
  - exists losses, s'. split; [exact Hrun|]. split; [exact (Hlast 0%nat eq_refl)|].
    split; [exact Hfinal|].
    pose proof scenario_loss_after_update. lra.
Defined.

(** * 18. Further properties of the code *)

(** ** Derivatives *)

Lemma D_const c x : derivable_pt_lim (fun _ => c) x 0.
Proof. apply (derivable_pt_lim_const c x). Qed.

Lemma D_id x : derivable_pt_lim (fun t => t) x 1.
Proof. apply (derivable_pt_lim_id x). Qed.

Lemma D_plus f g x a b :
  derivable_pt_lim f x a -> derivable_pt_lim g x b ->
  derivable_pt_lim (fun t => f t + g t) x (a + b).
Proof. intros Hf Hg. apply (derivable_pt_lim_plus f g x a b Hf Hg). Qed.

Lemma D_minus f g x a b :
  derivable_pt_lim f x a -> derivable_pt_lim g x b ->
  derivable_pt_lim (fun t => f t - g t) x (a - b).
Proof. intros Hf Hg. apply (derivable_pt_lim_minus f g x a b Hf Hg). Qed.

Lemma D_mult f g x a b :
  derivable_pt_lim f x a -> derivable_pt_lim g x b ->
  derivable_pt_lim (fun t => f t * g t) x (a * g x + f x * b).
Proof. intros Hf Hg. apply (derivable_pt_lim_mult f g x a b Hf Hg). Qed.

Lemma D_comp f g x a b :
  derivable_pt_lim g x a -> derivable_pt_lim f (g x) b ->
  derivable_pt_lim (fun t => f (g t)) x (b * a).
Proof. intros Hg Hf. apply (derivable_pt_lim_comp g f x a b Hg Hf). Qed.

Lemma D_eq f x a b : derivable_pt_lim f x a -> a = b -> derivable_pt_lim f x b.
Proof. now intros H <-. Qed.

Lemma expit_derivative z : derivable_pt_lim expit z (expit' z).
Proof.
  pose proof (exp_pos (- z)) as He.
  assert (Hg : derivable_pt_lim (fun t => 1 + exp (- t)) z (0 + exp (- z) * (-1))).
  { apply D_plus; [apply D_const|].
    apply (D_comp exp (fun t => - t)).
    - apply (D_eq (fun t => - t) z (- 1)); [| ring].
      apply (derivable_pt_lim_opp (fun t => t) z 1), D_id.
    - apply derivable_pt_lim_exp. }
  pose proof (derivable_pt_lim_div (fun _ => 1) (fun t => 1 + exp (- t)) z
                0 (0 + exp (- z) * (-1)) (D_const 1 z) Hg ltac:(lra)) as Hd.
  apply (D_eq _ _ _ (expit' z)) in Hd.
  - exact Hd.
  - unfold expit', expit, Rsqr. cbv beta. field. lra.
Qed.

(** The cross-entropy of one example as a function of its logit. *)
Lemma xent_derivative y z :
  derivable_pt_lim
    (fun t => - y * ln (expit t) - (1 - y) * ln (1 - expit t)) z (expit z - y).
Proof.
  destruct (expit_range z) as [H0 H1].
  assert (Hl : derivable_pt_lim (fun t => ln (expit t)) z (/ expit z * expit' z)).
  { apply (D_comp ln expit); [apply expit_derivative|].
    now apply derivable_pt_lim_ln. }
  assert (Hr : derivable_pt_lim (fun t => ln (1 - expit t)) z
                 (/ (1 - expit z) * (0 - expit' z))).
  { apply (D_comp ln (fun t => 1 - expit t)).
    - apply D_minus; [apply D_const | apply expit_derivative].
    - apply derivable_pt_lim_ln. lra. }
  eapply D_eq.
  - apply D_minus.
    + apply D_mult; [apply D_const | exact Hl].
    + apply D_mult; [apply D_const | exact Hr].
  - unfold expit'. cbv beta. field. lra.
Qed.

Lemma D_Rsum n : forall (F : nat -> R -> R) (F' : nat -> R) x,
  (forall i, (i < n)%nat -> derivable_pt_lim (F i) x (F' i)) ->
  derivable_pt_lim (fun t => Rsum n (fun i => F i t)) x (Rsum n F').
Proof.
  induction n as [|n IH]; intros F F' x HF.
  - apply (D_const 0 x).
  - rewrite Rsum_S.
    apply (derivable_pt_lim_ext
             (fun t => F 0%nat t + Rsum n (fun i => F (S i) t))).
    + intros t. now rewrite Rsum_S.
    + apply D_plus; [apply HF; lia|].
      apply (IH (fun i => F (S i)) (fun i => F' (S i))).
      intros i Hi. apply HF. lia.
Qed.

(** ** Sums *)

Lemma Rsum_plus n f g :
  Rsum n (fun i => f i + g i) = Rsum n f + Rsum n g.
Proof.
  revert f g. induction n as [|n IH]; intros f g.
  - unfold Rsum, tabulate. simpl. ring.
  - rewrite !Rsum_S, IH. ring.
Qed.

Lemma Rsum_scal n c f : Rsum n (fun i => c * f i) = c * Rsum n f.
Proof.
  revert f. induction n as [|n IH]; intros f.
  - unfold Rsum, tabulate. simpl. ring.
  - rewrite !Rsum_S, IH. ring.
Qed.

Lemma Rsum_0 n f : (forall i, (i < n)%nat -> f i = 0) -> Rsum n f = 0.
Proof. intros H. rewrite (Rsum_const_ext n f 0 H). ring. Qed.

Lemma Rsum_swap n m (f : nat -> nat -> R) :
  Rsum n (fun i => Rsum m (fun j => f i j))
  = Rsum m (fun j => Rsum n (fun i => f i j)).
Proof.
  revert f. induction n as [|n IH]; intros f.
  - symmetry. apply Rsum_0. intros j _. reflexivity.
  - rewrite Rsum_S, (IH (fun i j => f (S i) j)), <- Rsum_plus.
    apply Rsum_ext. intros j _. now rewrite Rsum_S.
Qed.

(** A sum against the indicator of one index picks that term. *)
Lemma Rsum_pick n j0 f :
  (j0 < n)%nat ->
  Rsum n (fun j => f j * (if (j =? j0)%nat then 1 else 0)) = f j0.
Proof.
  revert j0 f. induction n as [|n IH]; intros j0 f Hj; [lia|].
  rewrite Rsum_S. destruct j0 as [|j0].
  - cbn [Nat.eqb]. rewrite Rsum_0; [ring|]. intros i _. cbn [Nat.eqb]. ring.
  - cbn [Nat.eqb]. rewrite (IH j0 (fun j => f (S j))) by lia. ring.
Qed.

(** ** The derivative of the loss along a path of parameter sets *)

Section LossDerivative.
Variables (N d h : nat) (X : list (list R)) (Y_T : list R).
Variables (W1 : R -> list (list R)) (b1 W2 : R -> list R) (b2 : R -> R).
Variable t0 : R.
Variables (w1' : nat -> nat -> R) (b1' w2' : nat -> R) (b2' : R).
Hypothesis HW1 : forall j k, (j < h)%nat -> (k < d)%nat ->
  derivable_pt_lim (fun t => at2 (W1 t) j k) t0 (w1' j k).
Hypothesis Hb1 : forall j, (j < h)%nat ->
  derivable_pt_lim (fun t => at1 (b1 t) j) t0 (b1' j).
Hypothesis HW2 : forall j, (j < h)%nat ->
  derivable_pt_lim (fun t => at1 (W2 t) j) t0 (w2' j).
Hypothesis Hb2 : derivable_pt_lim b2 t0 b2'.

Let Z1 := spec_Z1 d X (W1 t0) (b1 t0).
Let Z2 := spec_Z2 d h X (W1 t0) (b1 t0) (W2 t0) (b2 t0).
Let Z1' (n j : nat) : R := Rsum d (fun k => at2 X n k * w1' j k) + b1' j.
Let Z2' (n : nat) : R :=
  Rsum h (fun j => expit' (Z1 n j) * Z1' n j * at1 (W2 t0) j
                   + expit (Z1 n j) * w2' j) + b2'.

Lemma D_spec_Z1 n j :
  (j < h)%nat ->
  derivable_pt_lim (fun t => spec_Z1 d X (W1 t) (b1 t) n j) t0 (Z1' n j).
Proof.
  intros Hj. unfold spec_Z1, Z1'. apply D_plus; [| now apply Hb1].
  apply (D_Rsum d (fun k t => at2 X n k * at2 (W1 t) j k)).
  intros k Hk. eapply D_eq.
  - apply D_mult; [apply D_const | now apply HW1].
  - cbv beta. ring.
Qed.

Lemma D_spec_Z2 n :
  derivable_pt_lim
    (fun t => spec_Z2 d h X (W1 t) (b1 t) (W2 t) (b2 t) n) t0 (Z2' n).
Proof.
  unfold spec_Z2, Z2'. apply D_plus; [| exact Hb2].
  apply (D_Rsum h (fun j t => spec_H d X (W1 t) (b1 t) n j * at1 (W2 t) j)).
  intros j Hj. eapply D_eq.
  - apply D_mult; [| now apply HW2].
    unfold spec_H.
    apply (D_comp expit (fun t => spec_Z1 d X (W1 t) (b1 t) n j));
      [now apply D_spec_Z1 | apply expit_derivative].
  - reflexivity.
Qed.

Lemma D_spec_L :
  derivable_pt_lim
    (fun t => spec_L N d h X (W1 t) (b1 t) (W2 t) (b2 t) Y_T) t0
    (1 / INR N * Rsum N (fun n => (expit (Z2 n) - at1 Y_T n) * Z2' n)).
Proof.
  unfold spec_L. eapply D_eq.
  - apply D_mult; [apply D_const|].
    apply (D_Rsum N (fun n t =>
             - at1 Y_T n * ln (spec_Y d h X (W1 t) (b1 t) (W2 t) (b2 t) n)
             - (1 - at1 Y_T n)
               * ln (1 - spec_Y d h X (W1 t) (b1 t) (W2 t) (b2 t) n))).
    intros n Hn. unfold spec_Y.
    apply (D_comp (fun z => - at1 Y_T n * ln (expit z)
                            - (1 - at1 Y_T n) * ln (1 - expit z))
                  (fun t => spec_Z2 d h X (W1 t) (b1 t) (W2 t) (b2 t) n)).
    + apply D_spec_Z2.
    + apply xent_derivative.
  - cbv beta. fold Z2. lra.
Qed.

(** The backward stage [dL/dZ2] is the residual divided by [N]. *)
Lemma spec_dLdZ2_residual n :
  spec_dLdZ2 N d h X (W1 t0) (b1 t0) (W2 t0) (b2 t0) Y_T n
  = 1 / INR N * (expit (Z2 n) - at1 Y_T n).
Proof.
  unfold spec_dLdZ2, spec_dLdY, spec_Y, expit'. fold Z2.
  destruct (expit_range (Z2 n)) as [H0 H1].
  rewrite Rmult_assoc. f_equal. field. lra.
Qed.

Lemma D_spec_L_gradient :
  derivable_pt_lim
    (fun t => spec_L N d h X (W1 t) (b1 t) (W2 t) (b2 t) Y_T) t0
    (Rsum h (fun j => Rsum d (fun k =>
       spec_dLdW1 N d h X (W1 t0) (b1 t0) (W2 t0) (b2 t0) Y_T j k * w1' j k))
     + Rsum h (fun j =>
         spec_dLdb1 N d h X (W1 t0) (b1 t0) (W2 t0) (b2 t0) Y_T j * b1' j)
     + Rsum h (fun j =>
         spec_dLdW2 N d h X (W1 t0) (b1 t0) (W2 t0) (b2 t0) Y_T j * w2' j)
     + spec_dLdb2 N d h X (W1 t0) (b1 t0) (W2 t0) (b2 t0) Y_T * b2').
Proof.
  eapply D_eq; [apply D_spec_L|].
  set (dZ := spec_dLdZ2 N d h X (W1 t0) (b1 t0) (W2 t0) (b2 t0) Y_T).
  rewrite <- Rsum_scal.
  rewrite (Rsum_ext N _ (fun n =>
            Rsum h (fun j => Rsum d (fun k =>
              dZ n * at1 (W2 t0) j * expit' (Z1 n j) * at2 X n k * w1' j k))
            + Rsum h (fun j => dZ n * at1 (W2 t0) j * expit' (Z1 n j) * b1' j)
            + Rsum h (fun j => expit (Z1 n j) * dZ n * w2' j)
            + dZ n * b2')).
  2:{ intros n _. rewrite <- Rmult_assoc, <- (spec_dLdZ2_residual n). fold dZ.
      unfold Z2'. rewrite Rmult_plus_distr_l. f_equal.
      rewrite <- Rsum_scal, <- !Rsum_plus. apply Rsum_ext. intros j _.
      assert (HA : Rsum d (fun k => dZ n * at1 (W2 t0) j * expit' (Z1 n j)
                                    * at2 X n k * w1' j k)
                   = dZ n * at1 (W2 t0) j * expit' (Z1 n j)
                     * Rsum d (fun k => at2 X n k * w1' j k)).
      { rewrite <- Rsum_scal. apply Rsum_ext. intros k _. ring. }
      rewrite HA. unfold Z1'. ring. }
  rewrite !Rsum_plus. f_equal; [f_equal; [f_equal|]|].
  - rewrite Rsum_swap. apply Rsum_ext. intros j _.
    rewrite Rsum_swap. apply Rsum_ext. intros k _.
    unfold spec_dLdW1. rewrite Rmult_comm, <- Rsum_scal.
    apply Rsum_ext. intros n _. unfold spec_dLdZ1, spec_dLdH. fold dZ Z1. ring.
  - rewrite Rsum_swap. apply Rsum_ext. intros j _.
    unfold spec_dLdb1. rewrite Rmult_comm, <- Rsum_scal.
    apply Rsum_ext. intros n _. unfold spec_dLdZ1, spec_dLdH. fold dZ Z1. ring.
  - rewrite Rsum_swap. apply Rsum_ext. intros j _.
    unfold spec_dLdW2. rewrite Rmult_comm, <- Rsum_scal.
    apply Rsum_ext. intros n _. unfold spec_H. fold dZ Z1. ring.
  - unfold spec_dLdb2. fold dZ. rewrite Rmult_comm, <- Rsum_scal.
    apply Rsum_ext. intros n _. ring.
Qed.
End LossDerivative.

(** ** Entries of a list with one entry replaced *)

Lemma at1_insert (l : list R) j0 t j :
  (j0 < length l)%nat ->
  at1 (<[j0 := t]> l) j = if (j =? j0)%nat then t else at1 l j.
Proof.
  unfold at1. revert j0 j. induction l as [|a l IH]; intros j0 j Hj; [simpl in Hj; lia|].
  destruct j0 as [|j0]; destruct j as [|j]; simpl; try reflexivity.
  apply IH. simpl in Hj. lia.
Qed.

Lemma at2_insert (m : list (list R)) j0 k0 t j k :
  (j0 < length m)%nat -> (k0 < length (nth j0 m []))%nat ->
  at2 (<[j0 := <[k0 := t]> (nth j0 m [])]> m) j k
  = if (j =? j0)%nat then (if (k =? k0)%nat then t else at2 m j k) else at2 m j k.
Proof.
  intros Hj Hk. unfold at2.
  assert (Hrow : forall (r : list R) j,
            nth j (<[j0 := r]> m) [] = if (j =? j0)%nat then r else nth j m []).
  { clear Hk. revert j0 Hj. induction m as [|a m IH]; intros j0 Hj r i;
      [simpl in Hj; lia|].
    destruct j0 as [|j0]; destruct i as [|i]; simpl; try reflexivity.
    apply IH. simpl in Hj. lia. }
  rewrite Hrow. destruct (j =? j0)%nat eqn:E; [|reflexivity].
  apply Nat.eqb_eq in E. subst j.
  exact (at1_insert (nth j0 m []) k0 t k Hk).
Qed.

Lemma insert_same (l : list R) j : <[j := at1 l j]> l = l.
Proof.
  unfold at1. revert j. induction l as [|a l IH]; intros j; [reflexivity|].
  destruct j as [|j]; simpl; [reflexivity|]. f_equal. apply IH.
Qed.

Lemma insert_same2 (m : list (list R)) j k :
  <[j := <[k := at2 m j k]> (nth j m [])]> m = m.
Proof.
  unfold at2. change (nth k (nth j m []) 0) with (at1 (nth j m []) k).
  rewrite insert_same. revert j.
  induction m as [|a m IH]; intros j; [reflexivity|].
  destruct j as [|j]; simpl; [reflexivity|]. f_equal. apply IH.
Qed.

(** The derivative of the identity or of a constant, by cases. *)
Lemma D_pick (c : R) (b : bool) x :
  derivable_pt_lim (fun t => if b then t else c) x (if b then 1 else 0).
Proof. destruct b; [apply D_id | apply D_const]. Qed.

(** ** The returned gradients are the partial derivatives of the loss *)

Section Partials.
Variables (N d : nat) (X : list (list R)) (Y_T : list R) (p : pset).
Hypothesis Hp : consistent_pset d 3 p.

Let gW1 := spec_dLdW1 N d 3 X (pW1 p) (pb1 p) (pW2 p) (pb2 p) Y_T.
Let gb1 := spec_dLdb1 N d 3 X (pW1 p) (pb1 p) (pW2 p) (pb2 p) Y_T.
Let gW2 := spec_dLdW2 N d 3 X (pW1 p) (pb1 p) (pW2 p) (pb2 p) Y_T.
Let gb2 := spec_dLdb2 N d 3 X (pW1 p) (pb1 p) (pW2 p) (pb2 p) Y_T.

Lemma partial_b2 :
  derivable_pt_lim (fun t => loss_of N d X Y_T (with_b2 p t)) (pb2 p) gb2.
Proof.
  unfold loss_of, with_b2. cbn [pW1 pb1 pW2 pb2].
  eapply D_eq.
  - apply (D_spec_L_gradient N d 3 X Y_T (fun _ => pW1 p) (fun _ => pb1 p)
             (fun _ => pW2 p) (fun t => t) (pb2 p)
             (fun _ _ => 0) (fun _ => 0) (fun _ => 0) 1).
    + intros j k _ _. apply D_const.
    + intros j _. apply D_const.
    + intros j _. apply D_const.
    + apply D_id.
  - cbv beta. fold gb2.
    rewrite !Rsum_0; [ring | intros; ring | intros; ring |].
    intros j _. apply Rsum_0. intros k _. ring.
Qed.

Lemma partial_W2 j0 :
  (j0 < 3)%nat ->
  derivable_pt_lim (fun t => loss_of N d X Y_T (with_W2 p j0 t))
    (at1 (pW2 p) j0) (gW2 j0).
Proof.
  intros Hj. destruct Hp as (Hh & HW1 & Hb1 & HW2).
  unfold loss_of, with_W2. cbn [pW1 pb1 pW2 pb2].
  eapply D_eq.
  - apply (D_spec_L_gradient N d 3 X Y_T (fun _ => pW1 p) (fun _ => pb1 p)
             (fun t => <[j0 := t]> (pW2 p)) (fun _ => pb2 p) (at1 (pW2 p) j0)
             (fun _ _ => 0) (fun _ => 0)
             (fun j => if (j =? j0)%nat then 1 else 0) 0).
    + intros j k _ _. apply D_const.
    + intros j _. apply D_const.
    + intros j _.
      apply (derivable_pt_lim_ext
               (fun t => if (j =? j0)%nat then t else at1 (pW2 p) j)).
      * intros t. symmetry. apply at1_insert. lia.
      * apply D_pick.
    + apply D_const.
  - cbv beta. rewrite insert_same. fold gW2.
    rewrite Rsum_pick by assumption.
    rewrite !Rsum_0; [ring | intros; ring |].
    intros j _. apply Rsum_0. intros k _. ring.
Qed.

Lemma partial_b1 j0 :
  (j0 < 3)%nat ->
  derivable_pt_lim (fun t => loss_of N d X Y_T (with_b1 p j0 t))
    (at1 (pb1 p) j0) (gb1 j0).
Proof.
  intros Hj. destruct Hp as (Hh & HW1 & Hb1 & HW2).
  unfold loss_of, with_b1. cbn [pW1 pb1 pW2 pb2].
  eapply D_eq.
  - apply (D_spec_L_gradient N d 3 X Y_T (fun _ => pW1 p)
             (fun t => <[j0 := t]> (pb1 p))
             (fun _ => pW2 p) (fun _ => pb2 p) (at1 (pb1 p) j0)
             (fun _ _ => 0) (fun j => if (j =? j0)%nat then 1 else 0)
             (fun _ => 0) 0).
    + intros j k _ _. apply D_const.
    + intros j _.
      apply (derivable_pt_lim_ext
               (fun t => if (j =? j0)%nat then t else at1 (pb1 p) j)).
      * intros t. symmetry. apply at1_insert. lia.
      * apply D_pick.
    + intros j _. apply D_const.
    + apply D_const.
  - cbv beta. rewrite insert_same. fold gb1.
    rewrite Rsum_pick by assumption.
    rewrite !Rsum_0; [ring | intros; ring |].
    intros j _. apply Rsum_0. intros k _. ring.
Qed.

Lemma partial_W1 j0 k0 :
  (j0 < 3)%nat -> (k0 < d)%nat ->
  derivable_pt_lim (fun t => loss_of N d X Y_T (with_W1 p j0 k0 t))
    (at2 (pW1 p) j0 k0) (gW1 j0 k0).
Proof.
  intros Hj Hk. destruct Hp as (Hh & HW1 & Hb1 & HW2).
  assert (Hrow : length (nth j0 (pW1 p) []) = d).
  { simpl in HW1. rewrite List.Forall_forall in HW1. apply HW1.
    apply nth_In. lia. }
  unfold loss_of, with_W1. cbn [pW1 pb1 pW2 pb2].
  eapply D_eq.
  - apply (D_spec_L_gradient N d 3 X Y_T
             (fun t => <[j0 := <[k0 := t]> (nth j0 (pW1 p) [])]> (pW1 p))
             (fun _ => pb1 p) (fun _ => pW2 p) (fun _ => pb2 p)
             (at2 (pW1 p) j0 k0)
             (fun j k => if (j =? j0)%nat
                         then (if (k =? k0)%nat then 1 else 0) else 0)
             (fun _ => 0) (fun _ => 0) 0).
    + intros j k _ _.
      apply (derivable_pt_lim_ext
               (fun t => if (j =? j0)%nat
                         then (if (k =? k0)%nat then t else at2 (pW1 p) j k)
                         else at2 (pW1 p) j k)).
      * intros t. symmetry. apply at2_insert; lia.
      * destruct (j =? j0)%nat; [apply D_pick | apply D_const].
    + intros j _. apply D_const.
    + intros j _. apply D_const.
    + apply D_const.
  - cbv beta. rewrite insert_same2. fold gW1.
    rewrite (Rsum_ext 3 _ (fun j =>
               Rsum d (fun k => gW1 j k * (if (k =? k0)%nat then 1 else 0))
               * (if (j =? j0)%nat then 1 else 0))).
    2:{ intros j _. destruct (j =? j0)%nat.
        - now rewrite Rmult_1_r.
        - rewrite Rmult_0_r. apply Rsum_0. intros k _. ring. }
    rewrite Rsum_pick by assumption. rewrite Rsum_pick by assumption.
    rewrite !Rsum_0; [ring | intros; ring | intros; ring].
Qed.
End Partials.

Lemma at1_tabulate n f i : (i < n)%nat -> at1 (tabulate n f) i = f i.
Proof. intros Hi. unfold at1. now apply tabulate_nth. Qed.

Lemma at2_tabulate r c f i j :
  (i < r)%nat -> (j < c)%nat ->
  at2 (tabulate r (fun i => tabulate c (f i))) i j = f i j.
Proof.
  intros Hi Hj. unfold at2. rewrite tabulate_nth by assumption.
  now apply tabulate_nth.
Qed.

Lemma at1_zeros3 j : at1 zeros3 j = 0.
Proof. unfold at1, zeros3. index_cases j; reflexivity. Qed.

Lemma at2_zeros32 j k : at2 zeros32 j k = 0.
Proof.
  unfold at2, zeros32. index_cases j; destruct k as [|[|k]]; try reflexivity;
    destruct k; reflexivity.
Qed.

Lemma back_propagation_returns N d X Y_T p weights s :
  (0 < N)%nat -> batch N d X -> length Y_T = N -> consistent_pset d 3 p ->
  store s !! weights = Some (params_of d p) ->
  back_propagation (Mat d X) (Vec Y_T) weights s
  = (entered s,
     Ok (spec_gradients N d 3 X (pW1 p) (pb1 p) (pW2 p) (pb2 p) Y_T,
         Scalar (loss_of N d X Y_T p))).
Proof.
  intros HN HX HY Hp Hst.
  rewrite (back_propagation_run N d 3 X (pW1 p) (pb1 p) (pW2 p) (pb2 p)
             Y_T weights s HN HX HY Hp Hst).
  unfold back_propagation_outcome. now destruct (decide (3 = 3)%nat).
Qed.

(** X1.  Gradient correctness: on a well-shaped batch, each entry of each
    gradient returned by [back_propagation] is the partial derivative of
    the loss returned by [back_propagation], taken with respect to the
    corresponding entry of the corresponding parameter tensor. *)
Theorem gradients_are_partial_derivatives N d X Y_T p weights s :
  (0 < N)%nat -> batch N d X -> length Y_T = N -> consistent_pset d 3 p ->
  store s !! weights = Some (params_of d p) ->
  exists (loss : pset -> R) gW1 gb1 gW2 gb2,
    (forall q s1,
       consistent_pset d 3 q -> store s1 !! weights = Some (params_of d q) ->
       exists gradients,
         snd (back_propagation (Mat d X) (Vec Y_T) weights s1)
         = Ok (gradients, Scalar (loss q))) /\
    snd (back_propagation (Mat d X) (Vec Y_T) weights s)
    = Ok ([("W1", Mat d gW1); ("b1", Vec gb1); ("W2", Vec gW2);
           ("b2", Scalar gb2)], Scalar (loss p)) /\
    derivable_pt_lim (fun t => loss (with_b2 p t)) (pb2 p) gb2 /\
    (forall j, (j < 3)%nat ->
       derivable_pt_lim (fun t => loss (with_W2 p j t))
         (at1 (pW2 p) j) (at1 gW2 j)) /\
    (forall j, (j < 3)%nat ->
       derivable_pt_lim (fun t => loss (with_b1 p j t))
         (at1 (pb1 p) j) (at1 gb1 j)) /\
    (forall j k, (j < 3)%nat -> (k < d)%nat ->
       derivable_pt_lim (fun t => loss (with_W1 p j k t))
         (at2 (pW1 p) j k) (at2 gW1 j k)).
Proof.
  intros HN HX HY Hp Hst.
  exists (loss_of N d X Y_T).
  eexists _, _, _, _. split; [| split; [| split; [| split; [| split]]]].
  - intros q s1 Hq Hs1. eexists.
    now rewrite (back_propagation_returns N d X Y_T q weights s1).
  - now rewrite (back_propagation_returns N d X Y_T p weights s).
  - now apply partial_b2.
  - intros j Hj. rewrite at1_tabulate by assumption. now apply partial_W2.
  - intros j Hj. rewrite at1_tabulate by assumption. now apply partial_b1.
  - intros j k Hj Hk. rewrite at2_tabulate by assumption. now apply partial_W1.
Qed.

Lemma gradients_are_partial_derivatives_witness :
  exists (loss : pset -> R) gW1 gb1 gW2 gb2,
    snd (back_propagation (Mat 2 scenario_X) (Vec [1]) 0%nat scenario_state)
    = Ok ([("W1", Mat 2 gW1); ("b1", Vec gb1); ("W2", Vec gW2);
           ("b2", Scalar gb2)], Scalar (loss scenario_pset)) /\
    derivable_pt_lim (fun t => loss (with_b2 scenario_pset t)) 0 gb2.
Proof.
  destruct (gradients_are_partial_derivatives 1 2 scenario_X [1] scenario_pset
              0%nat scenario_state)
    as (loss & gW1 & gb1 & gW2 & gb2 & _ & Hrun & Hb2 & _).
  - lia.
  - split; [reflexivity | repeat constructor].
  - reflexivity.
  - repeat split; repeat constructor.
  - reflexivity.
  - exists loss, gW1, gb1, gW2, gb2. split; assumption.
Defined.

(** X2.  Along every differentiable path of shape-consistent parameter
    sets, the loss returned by [back_propagation] is differentiable, and
    its derivative is the inner product of the returned gradients with the
    velocity of the path (the sum over all entries of the four tensors of
    gradient entry times derivative of the parameter entry). *)
Theorem loss_derivative_along_path N d X Y_T (P : R -> pset) (V : pset) t0
    weights :
  (0 < N)%nat -> batch N d X -> length Y_T = N ->
  (forall t, consistent_pset d 3 (P t)) ->
  (forall j k, (j < 3)%nat -> (k < d)%nat ->
     derivable_pt_lim (fun t => at2 (pW1 (P t)) j k) t0 (at2 (pW1 V) j k)) ->
  (forall j, (j < 3)%nat ->
     derivable_pt_lim (fun t => at1 (pb1 (P t)) j) t0 (at1 (pb1 V) j)) ->
  (forall j, (j < 3)%nat ->
     derivable_pt_lim (fun t => at1 (pW2 (P t)) j) t0 (at1 (pW2 V) j)) ->
  derivable_pt_lim (fun t => pb2 (P t)) t0 (pb2 V) ->
  exists (loss : R -> R) gW1 gb1 gW2 gb2,
    (forall t s, store s !! weights = Some (params_of d (P t)) ->
       exists gradients,
         snd (back_propagation (Mat d X) (Vec Y_T) weights s)
         = Ok (gradients, Scalar (loss t))) /\
    (forall s, store s !! weights = Some (params_of d (P t0)) ->
       snd (back_propagation (Mat d X) (Vec Y_T) weights s)
       = Ok ([("W1", Mat d gW1); ("b1", Vec gb1); ("W2", Vec gW2);
              ("b2", Scalar gb2)], Scalar (loss t0))) /\
    derivable_pt_lim loss t0
      (Rsum 3 (fun j => Rsum d (fun k => at2 gW1 j k * at2 (pW1 V) j k))
       + Rsum 3 (fun j => at1 gb1 j * at1 (pb1 V) j)
       + Rsum 3 (fun j => at1 gW2 j * at1 (pW2 V) j)
       + gb2 * pb2 V).
Proof.
  intros HN HX HY HP HW1 Hb1 HW2 Hb2.
  exists (fun t => loss_of N d X Y_T (P t)).
  eexists _, _, _, _. split; [| split].
  - intros t s Hs. eexists.
    now rewrite (back_propagation_returns N d X Y_T (P t) weights s).
  - intros s Hs.
    now rewrite (back_propagation_returns N d X Y_T (P t0) weights s).
  - eapply D_eq.
    + apply (D_spec_L_gradient N d 3 X Y_T (fun t => pW1 (P t))
               (fun t => pb1 (P t)) (fun t => pW2 (P t)) (fun t => pb2 (P t))
               t0 (at2 (pW1 V)) (at1 (pb1 V)) (at1 (pW2 V)) (pb2 V));
        assumption.
    + cbv beta.
      apply (f_equal2 Rplus);
        [apply (f_equal2 Rplus); [apply (f_equal2 Rplus)|]|]; try reflexivity.
      apply Rsum_ext. intros j Hj. apply Rsum_ext. intros k Hk.
      now rewrite at2_tabulate.
Qed.

Lemma loss_derivative_along_path_witness :
  exists (loss : R -> R) gb2,
    (forall s, store s !! 0%nat = Some (params_of 2 (with_b2 scenario_pset 0)) ->
       exists gW1 gb1 gW2,
         snd (back_propagation (Mat 2 scenario_X) (Vec [1]) 0%nat s)
         = Ok ([("W1", Mat 2 gW1); ("b1", Vec gb1); ("W2", Vec gW2);
                ("b2", Scalar gb2)], Scalar (loss 0))) /\
    exists l, derivable_pt_lim loss 0 l.
Proof.
  destruct (loss_derivative_along_path 1 2 scenario_X [1]
              (with_b2 scenario_pset) (mkPset zeros32 zeros3 zeros3 1) 0 0%nat)
    as (loss & gW1 & gb1 & gW2 & gb2 & _ & Hrun & HD).
  - lia.
  - split; [reflexivity | repeat constructor].
  - reflexivity.
  - intros t. repeat split; repeat constructor.
  - intros j k _ _.
    eapply D_eq; [exact (D_const (at2 zeros32 j k) 0) | now rewrite at2_zeros32].
  - intros j _.
    eapply D_eq; [exact (D_const (at1 zeros3 j) 0) | now rewrite at1_zeros3].
  - intros j _.
    eapply D_eq; [exact (D_const (at1 zeros3 j) 0) | now rewrite at1_zeros3].
  - exact (D_id 0).
  - exists loss, gb2. split.
    + intros s Hs. exists gW1, gb1, gW2. now apply Hrun.
    + eexists. exact HD.
Defined.

(** ** Empty batches and other hidden widths *)

(** X3.  On an empty batch (a first dimension of 0) on which the forward
    pass succeeds, [back_propagation] raises [ZeroDivisionError], in the
    line of the loss, after its one forward pass and without writing the
    store. *)
Theorem back_propagation_empty_batch X Y_T weights s r :
  shape0 X = Ok 0%nat ->
  snd (forward_propagation X weights s) = Ok r ->
  back_propagation X Y_T weights s = (entered s, Raise ZeroDivisionError).
Proof.
  intros HX Hf. unfold back_propagation. rewrite HX, bind_lift_ok.
  unfold bind at 1.
  pose proof (forward_propagation_state X weights s) as Hs.
  destruct (forward_propagation X weights s) as [s' [[[[Y Z2] H] Z1]|e]];
    simpl in Hs, Hf; [| discriminate].
  subst s'. reflexivity.
Qed.

Lemma back_propagation_empty_batch_witness :
  back_propagation (Mat 2 []) (Vec []) 0%nat scenario_state
  = (entered scenario_state, Raise ZeroDivisionError).
Proof.
  eapply (back_propagation_empty_batch (Mat 2 []) (Vec []) 0%nat scenario_state).
  - reflexivity.
  - rewrite (forward_propagation_run 0 2 3 [] zeros32 zeros3 zeros3 0 0%nat
               scenario_state); [reflexivity | | apply scenario_consistent
               | apply scenario_store].
    split; [reflexivity | constructor].
Defined.

(** X4.  With a parameter set of hidden width [h <> 3] the training loop
    stops in its first iteration: it raises the reshape error of
    [back_propagation], records no loss, and leaves the parameters as they
    were; one forward pass has been made. *)
Theorem train_other_hidden_width N d h X W1 b1 W2 b2 Y_T weights epochs
    epsilon s :
  (0 < N)%nat -> h <> 3%nat ->
  batch N d X -> length Y_T = N -> consistent d h W1 b1 W2 ->
  store s !! weights = Some (params d W1 b1 W2 b2) ->
  train (Mat d X) (Vec Y_T) weights (S epochs) epsilon s
  = (entered s, Raise (ValueError_reshape h [1%nat; 3%nat])).
Proof.
  intros HN Hh HX HY Hc Hst. unfold train. cbn [training_loop].
  unfold bind at 1. unfold epoch_body. unfold bind at 1.
  rewrite (back_propagation_run N d h X W1 b1 W2 b2 Y_T weights s HN HX HY Hc Hst).
  unfold back_propagation_outcome.
  now destruct (decide (h = 3%nat)).
Qed.

Lemma train_other_hidden_width_witness :
  train (Mat 2 scenario_X) (Vec [1]) 0%nat 5 1
    (mkState {[ 0%nat := params 2 [[0; 0]; [0; 0]] [0; 0] [0; 0] 0 ]} 7)
  = (mkState {[ 0%nat := params 2 [[0; 0]; [0; 0]] [0; 0] [0; 0] 0 ]} 8,
     Raise (ValueError_reshape 2 [1%nat; 3%nat])).
Proof.
  apply (train_other_hidden_width 1 2 2 scenario_X [[0; 0]; [0; 0]] [0; 0]
           [0; 0] 0 [1] 0%nat 4 1).
  - lia.
  - lia.
  - split; [reflexivity | repeat constructor].
  - reflexivity.
  - repeat split; repeat constructor.
  - reflexivity.
Defined.

(** ** Label vectors of other lengths *)

Lemma stretch_single {A} (d : A) n y : stretch d n [y] = repeat y n.
Proof.
  unfold stretch. cbn [length hd].
  destruct (1 =? n)%nat eqn:E; [| reflexivity].
  apply Nat.eqb_eq in E. now subst n.
Qed.

Lemma bdim_1_r n : bdim n 1 = Some n.
Proof.
  unfold bdim. destruct (n =? 1)%nat eqn:E; [reflexivity|]. reflexivity.
Qed.

Lemma bdim_1_l n : bdim 1 n = Some n.
Proof.
  unfold bdim. destruct (1 =? n)%nat eqn:E; [| reflexivity].
  apply Nat.eqb_eq in E. now subst n.
Qed.

Lemma ufunc2_vec_of_single f n g y :
  ufunc2 f (vec_of n g) (Vec [y]) = Ok (vec_of n (fun i => f (g i) y)).
Proof.
  unfold vec_of. cbn [ufunc2 length]. rewrite tabulate_length, bdim_1_r.
  unfold brow. rewrite stretch_single, stretch_same by apply tabulate_length.
  now rewrite tabulate_const, zip_with_tabulate.
Qed.

Lemma ufunc2_single_vec_of f n g y :
  ufunc2 f (Vec [y]) (vec_of n g) = Ok (vec_of n (fun i => f y (g i))).
Proof.
  unfold vec_of. cbn [ufunc2 length]. rewrite tabulate_length, bdim_1_l.
  unfold brow. rewrite stretch_single, stretch_same by apply tabulate_length.
  now rewrite tabulate_const, zip_with_tabulate.
Qed.

Lemma bdim_mismatch m n :
  m <> n -> m <> 1%nat -> n <> 1%nat -> bdim m n = None.
Proof.
  intros H1 H2 H3. unfold bdim.
  apply Nat.eqb_neq in H1, H2, H3. now rewrite H1, H2, H3.
Qed.

Lemma ufunc2_vec_mismatch f u v :
  length u <> length v -> length u <> 1%nat -> length v <> 1%nat ->
  ufunc2 f (Vec u) (Vec v)
  = Raise (ValueError_broadcast [length u] [length v]).
Proof.
  intros H1 H2 H3. cbn [ufunc2 shape]. now rewrite bdim_mismatch.
Qed.

(** [back_propagation] uses the labels in the lines of [L] and [dLdY]
    only. *)
Lemma back_propagation_labels N X Y_T Y_T' weights s s' Y Z2 H Z1 :
  shape0 X = Ok N ->
  forward_propagation X weights s = (s', Ok (Y, Z2, H, Z1)) ->
  line_L N Y Y_T = line_L N Y Y_T' ->
  line_dLdY N Y Y_T = line_dLdY N Y Y_T' ->
  back_propagation X Y_T weights s = back_propagation X Y_T' weights s.
Proof.
  intros HX Hf HL HdY. unfold back_propagation.
  rewrite HX, !bind_lift_ok.
  unfold bind at 1. rewrite Hf. cbv iota beta. symmetry.
  unfold bind at 1. rewrite Hf. cbv iota beta.
  now rewrite HL, HdY.
Qed.

Lemma ufunc1_single f c : ufunc1 f (Vec [c]) = Vec [f c].
Proof. reflexivity. Qed.

Lemma ufunc1_scalar f c : ufunc1 f (Scalar c) = Scalar (f c).
Proof. reflexivity. Qed.

Lemma ufunc2_scalar_single f x c :
  ufunc2 f (Scalar x) (Vec [c]) = Ok (Vec [f x c]).
Proof. reflexivity. Qed.

Ltac run_single :=
  repeat first
    [ rewrite rbind_ok | rewrite ufunc1_single | rewrite ufunc1_scalar
    | rewrite ufunc2_scalar_single | rewrite ufunc2_single_vec_of
    | rewrite ufunc2_vec_of_single | rewrite ufunc1_vec_of
    | rewrite ufunc2_scalar_vec_of | rewrite ufunc2_vec_of_scalar
    | rewrite ufunc2_vec_of
    | rewrite sum_vec_of | rewrite ufunc2_scalars ].

Section Labels.
Variables (N : nat) (HN : (0 < N)%nat) (y : nat -> R) (c : R).

Lemma line_L_single :
  line_L N (vec_of N y) (Vec [c]) = line_L N (vec_of N y) (Vec (repeat c N)).
Proof.
  rewrite tabulate_const. fold (vec_of N (fun _ => c)).
  rewrite (line_L_run N HN).
  unfold line_L. rewrite (py_inv_pos N HN). np_unfold. run_single. reflexivity.
Qed.

Lemma line_dLdY_single :
  line_dLdY N (vec_of N y) (Vec [c])
  = line_dLdY N (vec_of N y) (Vec (repeat c N)).
Proof.
  rewrite tabulate_const. fold (vec_of N (fun _ => c)).
  rewrite (line_dLdY_run N HN).
  unfold line_dLdY. rewrite (py_inv_pos N HN). np_unfold. run_single.
  reflexivity.
Qed.

Lemma line_L_scalar :
  line_L N (vec_of N y) (Scalar c) = line_L N (vec_of N y) (Vec (repeat c N)).
Proof.
  rewrite tabulate_const. fold (vec_of N (fun _ => c)).
  rewrite (line_L_run N HN).
  unfold line_L. rewrite (py_inv_pos N HN). np_unfold. run_single. reflexivity.
Qed.

Lemma line_dLdY_scalar :
  line_dLdY N (vec_of N y) (Scalar c)
  = line_dLdY N (vec_of N y) (Vec (repeat c N)).
Proof.
  rewrite tabulate_const. fold (vec_of N (fun _ => c)).
  rewrite (line_dLdY_run N HN).
  unfold line_dLdY. rewrite (py_inv_pos N HN). np_unfold. run_single.
  reflexivity.
Qed.
End Labels.

(** X5.  A label vector of length 1, or a plain number, is not rejected:
    NumPy broadcasts it, and [back_propagation] returns what it returns
    for that label repeated for each of the [N] examples. *)
Theorem back_propagation_broadcasts_single_label
    N d X W1 b1 W2 b2 c weights s :
  (0 < N)%nat -> batch N d X -> consistent d 3 W1 b1 W2 ->
  store s !! weights = Some (params d W1 b1 W2 b2) ->
  back_propagation (Mat d X) (Vec [c]) weights s
  = back_propagation (Mat d X) (Vec (repeat c N)) weights s /\
  back_propagation (Mat d X) (Scalar c) weights s
  = back_propagation (Mat d X) (Vec (repeat c N)) weights s.
Proof.
  intros HN HX Hc Hst.
  pose proof (forward_propagation_run N d 3 X W1 b1 W2 b2 weights s HX Hc Hst)
    as Hf.
  assert (H0 : shape0 (Mat d X) = Ok N) by (destruct HX as [<- _]; reflexivity).
  split.
  - apply (back_propagation_labels N _ _ _ _ _ _ _ _ _ _ H0 Hf).
    + now apply line_L_single.
    + now apply line_dLdY_single.
  - apply (back_propagation_labels N _ _ _ _ _ _ _ _ _ _ H0 Hf).
    + now apply line_L_scalar.
    + now apply line_dLdY_scalar.
Qed.

Lemma back_propagation_broadcasts_single_label_witness :
  back_propagation (Mat 2 [[1; 0]; [0; 1]]) (Vec [1]) 0%nat scenario_state
  = back_propagation (Mat 2 [[1; 0]; [0; 1]]) (Vec [1; 1]) 0%nat scenario_state.
Proof.
  apply (back_propagation_broadcasts_single_label 2 2 [[1; 0]; [0; 1]]
           zeros32 zeros3 zeros3 0 1 0%nat scenario_state).
  - lia.
  - split; [reflexivity | repeat constructor].
  - repeat split; repeat constructor.
  - reflexivity.
Defined.

Lemma back_propagation_mismatch_run N d X W1 b1 W2 b2 Y_T weights s :
  (0 < N)%nat -> batch N d X -> consistent d 3 W1 b1 W2 ->
  store s !! weights = Some (params d W1 b1 W2 b2) ->
  length Y_T <> N -> length Y_T <> 1%nat -> N <> 1%nat ->
  back_propagation (Mat d X) (Vec Y_T) weights s
  = (entered s, Raise (ValueError_broadcast [length Y_T] [N])).
Proof.
  intros HN HX Hc Hst H1 H2 H3.
  unfold back_propagation.
  assert (H0 : shape0 (Mat d X) = Ok N) by (destruct HX as [<- _]; reflexivity).
  rewrite H0, bind_lift_ok. unfold bind at 1.
  rewrite (forward_propagation_run N d 3 X W1 b1 W2 b2 weights s HX Hc Hst).
  cbv iota beta.
  unfold line_L at 1. rewrite (py_inv_pos N HN), rbind_ok.
  unfold np.negative, np.log, np.multiply, vec_of. cbn [ufunc1].
  rewrite ufunc2_vec_mismatch;
    rewrite ?length_map, ?tabulate_length; try assumption.
  reflexivity.
Qed.

(** X6.  A label vector whose length is neither [N] nor 1 (for a batch of
    [N <> 1] examples) makes [back_propagation] raise the broadcast error
    of NumPy in the line of the loss, after the forward pass. *)
Theorem back_propagation_label_length_mismatch
    N d X W1 b1 W2 b2 Y_T weights s :
  (0 < N)%nat -> batch N d X -> consistent d 3 W1 b1 W2 ->
  store s !! weights = Some (params d W1 b1 W2 b2) ->
  length Y_T <> N -> length Y_T <> 1%nat -> N <> 1%nat ->
  back_propagation (Mat d X) (Vec Y_T) weights s
  = (entered s, Raise (ValueError_broadcast [length Y_T] [N])).
Proof. apply back_propagation_mismatch_run. Qed.

Lemma back_propagation_label_length_mismatch_witness :
  back_propagation (Mat 2 [[1; 0]; [0; 1]]) (Vec [1; 0; 1]) 0%nat scenario_state
  = (entered scenario_state, Raise (ValueError_broadcast [3%nat] [2%nat])).
Proof.
  apply (back_propagation_label_length_mismatch 2 2 [[1; 0]; [0; 1]]
           zeros32 zeros3 zeros3 0 [1; 0; 1] 0%nat scenario_state).
  - lia.
  - split; [reflexivity | repeat constructor].
  - repeat split; repeat constructor.
  - reflexivity.
  - simpl; lia.
  - simpl; lia.
  - lia.
Defined.

(** ** Shapes that [forward_propagation] rejects or accepts *)

Lemma columns_length c m : length (columns c m) = c.
Proof. unfold columns. now rewrite length_map, length_seq. Qed.

(** X7.  When the width of the batch differs from the number of columns of
    [W1], [forward_propagation] raises the shape error of [np.dot], having
    read [weights['W1']] only; the store is not written. *)
Theorem forward_propagation_width_mismatch
    N d d' X W1 b1 W2 b2 weights s :
  length X = N -> d <> d' ->
  store s !! weights = Some (params d' W1 b1 W2 b2) ->
  forward_propagation (Mat d X) weights s
  = (entered s, Raise (ValueError_dot [N; d] [d'; length W1])).
Proof.
  intros HN Hd Hst.
  assert (Hst' : store (entered s) !! weights = Some (params d' W1 b1 W2 b2))
    by exact Hst.
  unfold forward_propagation.
  unfold bind at 1. unfold enter_forward_propagation at 1. fold (entered s).
  cbv iota beta.
  run_getitem Hst'. cbn [T np.dot shape].
  rewrite columns_length, HN.
  apply Nat.eqb_neq in Hd. rewrite Hd. reflexivity.
Qed.

Lemma forward_propagation_width_mismatch_witness :
  forward_propagation (Mat 3 [[1; 0; 0]]) 0%nat scenario_state
  = (entered scenario_state, Raise (ValueError_dot [1%nat; 3%nat] [2%nat; 3%nat])).
Proof.
  apply (forward_propagation_width_mismatch 1 3 2 [[1; 0; 0]] zeros32 zeros3
           zeros3 0 0%nat scenario_state).
  - reflexivity.
  - lia.
  - reflexivity.
Defined.

Lemma ufunc2_mat_of_single f r c g y :
  ufunc2 f (mat_of r c g) (Vec [y]) = Ok (mat_of r c (fun i j => f (g i j) y)).
Proof.
  unfold mat_of. cbn [ufunc2 length]. rewrite bdim_1_r. do 2 f_equal.
  rewrite tabulate_map. apply tabulate_ext. intros i _.
  unfold brow. rewrite stretch_single, stretch_same by apply tabulate_length.
  now rewrite tabulate_const, zip_with_tabulate.
Qed.

(** X8.  A bias [b1] of length 1 is accepted for every hidden width [h]:
    NumPy broadcasts it, and [forward_propagation] returns the trace of the
    network whose [b1] repeats that one value [h] times. *)
Theorem forward_propagation_broadcasts_b1
    N d h X W1 c W2 b2 weights s :
  batch N d X -> length W1 = h -> wf (Mat d W1) -> length W2 = h ->
  store s !! weights = Some (params d W1 [c] W2 b2) ->
  forward_propagation (Mat d X) weights s
  = (entered s,
     Ok (vec_of N (spec_Y d h X W1 (repeat c h) W2 b2),
         vec_of N (spec_Z2 d h X W1 (repeat c h) W2 b2),
         mat_of N h (spec_H d X W1 (repeat c h)),
         mat_of N h (spec_Z1 d X W1 (repeat c h)))).
Proof.
  intros [HN HX] Hh HW1 HW2 Hst.
  assert (Hst' : store (entered s) !! weights = Some (params d W1 [c] W2 b2))
    by exact Hst.
  assert (HZ1 : forall n j, (j < h)%nat ->
            Rsum d (fun k => at2 X n k * at2 W1 j k) + c
            = spec_Z1 d X W1 (repeat c h) n j).
  { intros n j Hj. unfold spec_Z1. f_equal. unfold at1.
    rewrite tabulate_const. now rewrite tabulate_nth. }
  assert (HZ2 : forall n,
            Rsum h (fun j => expit (Rsum d (fun k => at2 X n k * at2 W1 j k) + c)
                             * at1 W2 j) + b2
            = spec_Z2 d h X W1 (repeat c h) W2 b2 n).
  { intros n. unfold spec_Z2, spec_H. f_equal. apply Rsum_ext. intros j Hj.
    now rewrite HZ1. }
  unfold forward_propagation.
  unfold bind at 1. unfold enter_forward_propagation at 1. fold (entered s).
  cbv iota beta.
  run_getitem Hst'.
  rewrite (Mat_tabulate d X HX), (Mat_tabulate d W1 HW1), HN, Hh.
  rewrite T_mat_of, dot_mat_of, bind_lift_ok.
  run_getitem Hst'.
  unfold np.add. rewrite ufunc2_mat_of_single, bind_lift_ok.
  run_getitem Hst'.
  rewrite (Vec_tabulate W2), HW2, T_vec_of.
  unfold sigmoid. rewrite ufunc1_mat_of, dot_mat_of_vec_of, bind_lift_ok.
  run_getitem Hst'.
  rewrite ufunc2_vec_of_scalar, bind_lift_ok, ufunc1_vec_of.
  unfold ret. do 2 f_equal.
  repeat match goal with |- (_, _) = (_, _) => f_equal end.
  - apply vec_of_ext. intros n _. unfold spec_Y. f_equal.
    rewrite <- HZ2. apply (f_equal (fun x => x + b2)).
    apply Rsum_ext. intros j _. unfold at1, tabulate. reflexivity.
  - apply vec_of_ext. intros n _. rewrite <- HZ2.
    apply (f_equal (fun x => x + b2)).
    apply Rsum_ext. intros j _. reflexivity.
  - apply mat_of_ext. intros n j _ Hj. unfold spec_H. now rewrite <- HZ1.
  - apply mat_of_ext. intros n j _ Hj. now rewrite <- HZ1.
Qed.

Lemma forward_propagation_broadcasts_b1_witness :
  forward_propagation (Mat 2 scenario_X) 0%nat
    (mkState {[ 0%nat := params 2 zeros32 [5] zeros3 0 ]} 0)
  = (entered (mkState {[ 0%nat := params 2 zeros32 [5] zeros3 0 ]} 0),
     Ok (vec_of 1 (spec_Y 2 3 scenario_X zeros32 (repeat 5 3) zeros3 0),
         vec_of 1 (spec_Z2 2 3 scenario_X zeros32 (repeat 5 3) zeros3 0),
         mat_of 1 3 (spec_H 2 scenario_X zeros32 (repeat 5 3)),
         mat_of 1 3 (spec_Z1 2 scenario_X zeros32 (repeat 5 3)))).
Proof.
  apply (forward_propagation_broadcasts_b1 1 2 3 scenario_X zeros32 5 zeros3 0
           0%nat (mkState {[ 0%nat := params 2 zeros32 [5] zeros3 0 ]} 0)).
  - split; [reflexivity | repeat constructor].
  - reflexivity.
  - repeat constructor.
  - reflexivity.
  - reflexivity.
Defined.

(** ** The dictionary entries that are read *)

Lemma forward_propagation_reads X weights s1 s2 d1 d2 :
  store s1 !! weights = Some d1 -> store s2 !! weights = Some d2 ->
  dict_get d1 "W1" = dict_get d2 "W1" -> dict_get d1 "b1" = dict_get d2 "b1" ->
  dict_get d1 "W2" = dict_get d2 "W2" -> dict_get d1 "b2" = dict_get d2 "b2" ->
  snd (forward_propagation X weights s1) = snd (forward_propagation X weights s2).
Proof.
  intros H1 H2 E1 E2 E3 E4.
  unfold forward_propagation, bind, enter_forward_propagation, getitem, lift, ret.
  repeat (cbv beta iota; cbn [store fst snd];
          rewrite ?H1, ?H2, ?E1, ?E2, ?E3, ?E4;
          match goal with
          | |- context [match ?r with Ok _ => _ | Raise _ => _ end] =>
              destruct r; try reflexivity
          end).
Qed.

Lemma back_propagation_reads X Y_T weights s1 s2 d1 d2 :
  store s1 !! weights = Some d1 -> store s2 !! weights = Some d2 ->
  dict_get d1 "W1" = dict_get d2 "W1" -> dict_get d1 "b1" = dict_get d2 "b1" ->
  dict_get d1 "W2" = dict_get d2 "W2" -> dict_get d1 "b2" = dict_get d2 "b2" ->
  snd (back_propagation X Y_T weights s1) = snd (back_propagation X Y_T weights s2).
Proof.
  intros H1 H2 E1 E2 E3 E4.
  pose proof (forward_propagation_reads X weights s1 s2 d1 d2 H1 H2 E1 E2 E3 E4)
    as Hf.
  pose proof (forward_propagation_state X weights s1) as Hs1.
  pose proof (forward_propagation_state X weights s2) as Hs2.
  unfold back_propagation.
  destruct (shape0 X) as [N_points|e]; [| reflexivity].
  rewrite !bind_lift_ok. unfold bind at 1. symmetry. unfold bind at 1. symmetry.
  destruct (forward_propagation X weights s1) as [s1' r1].
  destruct (forward_propagation X weights s2) as [s2' r2].
  simpl in Hf, Hs1, Hs2. subst r2 s1' s2'.
  destruct r1 as [[[[Y Z2] H] Z1]|e]; [| reflexivity].
  unfold line_dLdH, bind, getitem, lift, ret.
  repeat (cbv beta iota; cbn [store fst snd entered];
          rewrite ?H1, ?H2, ?E3;
          match goal with
          | |- context [match ?r with Ok _ => _ | Raise _ => _ end] =>
              destruct r; try reflexivity
          end).
Qed.

(** X9.  [forward_propagation] and [back_propagation] read the entries
    ['W1'], ['b1'], ['W2'] and ['b2'] of the dictionary and nothing else:
    on two stores whose dictionaries agree on these four keys (whatever
    other keys they hold, in whatever order) they return the same result. *)
Theorem propagation_reads_four_entries X Y_T weights s1 s2 d1 d2 :
  store s1 !! weights = Some d1 -> store s2 !! weights = Some d2 ->
  (forall k, In k ["W1"; "b1"; "W2"; "b2"] -> dict_get d1 k = dict_get d2 k) ->
  snd (forward_propagation X weights s1) = snd (forward_propagation X weights s2)
  /\
  snd (back_propagation X Y_T weights s1) = snd (back_propagation X Y_T weights s2).
Proof.
  intros H1 H2 E.
  split.
  - apply (forward_propagation_reads X weights s1 s2 d1 d2 H1 H2);
      apply E; simpl; auto.
  - apply (back_propagation_reads X Y_T weights s1 s2 d1 d2 H1 H2);
      apply E; simpl; auto.
Qed.

Lemma propagation_reads_four_entries_witness :
  snd (back_propagation (Mat 2 scenario_X) (Vec [1]) 0%nat scenario_state)
  = snd (back_propagation (Mat 2 scenario_X) (Vec [1]) 0%nat
           (mkState {[ 0%nat := [("b2", Scalar 0); ("note", Vec [7]);
                                 ("W2", Vec zeros3); ("b1", Vec zeros3);
                                 ("W1", Mat 2 zeros32)] ]} 3)).
Proof.
  apply (propagation_reads_four_entries (Mat 2 scenario_X) (Vec [1]) 0%nat
           scenario_state
           (mkState {[ 0%nat := [("b2", Scalar 0); ("note", Vec [7]);
                                 ("W2", Vec zeros3); ("b1", Vec zeros3);
                                 ("W1", Mat 2 zeros32)] ]} 3)
           scenario_params
           [("b2", Scalar 0); ("note", Vec [7]); ("W2", Vec zeros3);
            ("b1", Vec zeros3); ("W1", Mat 2 zeros32)]).
  - reflexivity.
  - reflexivity.
  - intros k Hk. simpl in Hk.
    destruct Hk as [<-|[<-|[<-|[<-|[]]]]]; reflexivity.
Defined.

(** ** An iteration that fails in its update step *)

Lemma back_propagation_run_extra N d X Y_T p tail weights s :
  (0 < N)%nat -> batch N d X -> length Y_T = N -> consistent_pset d 3 p ->
  store s !! weights = Some (params_of d p ++ tail) ->
  back_propagation (Mat d X) (Vec Y_T) weights s
  = (entered s,
     Ok (spec_gradients N d 3 X (pW1 p) (pb1 p) (pW2 p) (pb2 p) Y_T,
         Scalar (loss_of N d X Y_T p))).
Proof.
  intros HN HX HY Hp Hst.
  pose proof (back_propagation_state (Mat d X) (Vec Y_T) weights s) as Hfst.
  cbn [shape0] in Hfst.
  pose proof (back_propagation_reads (Mat d X) (Vec Y_T) weights s
                (set_weights weights (params_of d p) s)
                (params_of d p ++ tail) (params_of d p) Hst
                ltac:(cbn [set_weights store]; apply lookup_insert_eq)
                eq_refl eq_refl eq_refl eq_refl) as Hsnd.
  rewrite (back_propagation_returns N d X Y_T p weights
             (set_weights weights (params_of d p) s)) in Hsnd;
    [| assumption .. | cbn [set_weights store]; apply lookup_insert_eq].
  destruct (back_propagation (Mat d X) (Vec Y_T) weights s) as [s' r].
  simpl in Hfst, Hsnd. now subst.
Qed.

(** X10.  An iteration of the training loop is not atomic.  When the
    dictionary holds, after the four parameters, one more key for which
    [back_propagation] returns no gradient, the update step replaces the
    four parameter tensors and then raises [KeyError] for that key: the
    parameters have moved, and no loss has been recorded. *)
Theorem iteration_with_extra_key N d X Y_T p k v weights epsilon losses s :
  (0 < N)%nat -> batch N d X -> length Y_T = N -> consistent_pset d 3 p ->
  ~ In k ["W1"; "b1"; "W2"; "b2"] ->
  store s !! weights = Some (params_of d p ++ [(k, v)]) ->
  epoch_body (Mat d X) (Vec Y_T) weights epsilon losses s
  = (set_weights weights
       (params_of d (descent_step N d epsilon X Y_T p) ++ [(k, v)]) (entered s),
     Raise (KeyError k)).
Proof.
  intros HN HX HY Hp Hk Hst.
  assert (K1 : String.eqb "W1" k = false)
    by (apply String.eqb_neq; intros <-; apply Hk; simpl; auto).
  assert (K2 : String.eqb "b1" k = false)
    by (apply String.eqb_neq; intros <-; apply Hk; simpl; auto).
  assert (K3 : String.eqb "W2" k = false)
    by (apply String.eqb_neq; intros <-; apply Hk; simpl; auto).
  assert (K4 : String.eqb "b2" k = false)
    by (apply String.eqb_neq; intros <-; apply Hk; simpl; auto).
  unfold epoch_body. unfold bind at 1.
  rewrite (back_propagation_run_extra N d X Y_T p [(k, v)] weights s
             HN HX HY Hp Hst).
  cbv iota beta.
  assert (Hst' : store (entered s) !! weights = Some (params_of d p ++ [(k, v)]))
    by exact Hst.
  unfold bind at 1. rewrite (keys_run (entered s) weights _ Hst'). cbv iota beta.
  destruct p as [W1 b1 W2 b2]. destruct Hp as (Hh & HW1 & Hb1 & HW2).
  cbn [pW1 pb1 pW2 pb2] in *.
  cbn [dict_keys params_of params app map fst pW1 pb1 pW2 pb2] in *.
  unfold bind at 1.
  erewrite (update_cons "W1"); [| exact Hst' | reflexivity | reflexivity |].
  2:{ rewrite (Mat_tabulate d W1 HW1), Hh. np_unfold. run. apply isub_mat_of. }
  erewrite (update_cons "b1");
    [| cbn [store]; apply lookup_insert_eq | reflexivity | reflexivity |].
  2:{ rewrite (Vec_tabulate b1), Hb1. np_unfold. run. apply isub_vec_of. }
  erewrite (update_cons "W2");
    [| cbn [store]; apply lookup_insert_eq | reflexivity | reflexivity |].
  2:{ rewrite (Vec_tabulate W2), HW2. np_unfold. run. apply isub_vec_of. }
  erewrite (update_cons "b2");
    [| cbn [store]; apply lookup_insert_eq | reflexivity | reflexivity |].
  2:{ np_unfold. run. apply isub_scalars. }
  match goal with
  | |- context [update _ _ _ _ ?s4] =>
      assert (H4 : store s4 !! weights
                   = Some (params_of d (descent_step N d epsilon X Y_T
                                          (mkPset W1 b1 W2 b2)) ++ [(k, v)]))
        by (cbn [store]; rewrite lookup_insert_eq; reflexivity);
      assert (E4 : s4 = set_weights weights
                          (params_of d (descent_step N d epsilon X Y_T
                                          (mkPset W1 b1 W2 b2)) ++ [(k, v)])
                          (entered s))
        by (unfold set_weights, entered; cbn [store fp_calls];
            rewrite !insert_insert_eq; reflexivity);
      generalize dependent s4
  end.
  intros s4 H4 ->. cbn [update].
  unfold bind at 1. rewrite (getitem_run _ weights _ k H4).
  assert (Hget : dict_get (params_of d (descent_step N d epsilon X Y_T
                                          (mkPset W1 b1 W2 b2)) ++ [(k, v)]) k
                 = Ok v).
  { unfold params_of, params. cbn [app dict_get].
    now rewrite K1, K2, K3, K4, String.eqb_refl. }
  rewrite Hget.
  assert (Hgrad : dict_get (spec_gradients N d 3 X W1 b1 W2 b2 Y_T) k
                  = Raise (KeyError k)).
  { unfold spec_gradients. cbn [dict_get]. now rewrite K1, K2, K3, K4. }
  rewrite Hgrad. reflexivity.
Qed.

Lemma iteration_with_extra_key_witness :
  epoch_body (Mat 2 scenario_X) (Vec [1]) 0%nat 1 []
    (mkState {[ 0%nat := params_of 2 scenario_pset ++ [("lr", Scalar 1)] ]} 0)
  = (set_weights 0%nat
       (params_of 2 (descent_step 1 2 1 scenario_X [1] scenario_pset)
        ++ [("lr", Scalar 1)])
       (entered (mkState {[ 0%nat := params_of 2 scenario_pset
                                     ++ [("lr", Scalar 1)] ]} 0)),
     Raise (KeyError "lr")).
Proof.
  apply (iteration_with_extra_key 1 2 scenario_X [1] scenario_pset "lr"
           (Scalar 1) 0%nat 1 []).
  - lia.
  - split; [reflexivity | repeat constructor].
  - reflexivity.
  - repeat split; repeat constructor.
  - simpl. intros [H|[H|[H|[H|[]]]]]; discriminate.
  - reflexivity.
Defined.

(** ** What training never does *)

Lemma dict_set_keys d k v a :
  dict_get d k = Ok a -> dict_keys (dict_set d k v) = dict_keys d.
Proof.
  induction d as [|[k' v'] d IH]; simpl; [discriminate|].
  destruct (String.eqb k' k); [reflexivity|].
  intros H. simpl. f_equal. now apply IH.
Qed.

Lemma same_frame_refl weights s : same_frame weights s s.
Proof. repeat split; eauto. Qed.

Lemma same_frame_trans weights s1 s2 s3 :
  same_frame weights s1 s2 -> same_frame weights s2 s3 ->
  same_frame weights s1 s3.
Proof.
  intros (B1 & C1 & D1) (B2 & C2 & D2). repeat split.
  - auto.
  - intros dct H. destruct (C1 dct H) as (dct' & H' & K').
    destruct (C2 dct' H') as (dct'' & H'' & K''). exists dct''.
    split; [assumption | congruence].
  - lia.
Qed.

Lemma same_frame_entered weights s : same_frame weights s (entered s).
Proof. repeat split; eauto. simpl. lia. Qed.

Lemma same_frame_back_propagation X Y_T weights s :
  same_frame weights s (fst (back_propagation X Y_T weights s)).
Proof.
  rewrite back_propagation_state.
  destruct (shape0 X); [apply same_frame_entered | apply same_frame_refl].
Qed.

Lemma same_frame_update names : forall weights epsilon gradients s,
  same_frame weights s (fst (update names weights epsilon gradients s)).
Proof.
  induction names as [|k ks IH]; intros weights epsilon gradients s.
  - apply same_frame_refl.
  - cbn [update]. unfold bind at 1. unfold getitem at 1.
    destruct (store s !! weights) as [dct|] eqn:E; [| apply same_frame_refl].
    destruct (dict_get dct k) as [w|e] eqn:Ek; [| apply same_frame_refl].
    destruct (dict_get gradients k) as [g|e]; [| apply same_frame_refl].
    rewrite bind_lift_ok.
    destruct (np.multiply (Scalar epsilon) g) as [step|e];
      [| apply same_frame_refl].
    rewrite bind_lift_ok.
    destruct (isub w step) as [w'|e]; [| apply same_frame_refl].
    rewrite bind_lift_ok.
    unfold bind at 1. unfold setitem at 1. rewrite E.
    eapply same_frame_trans; [| apply IH].
    repeat split; cbn [store fp_calls].
    + congruence.
    + intros dct0 H0. rewrite E in H0. injection H0 as <-.
      exists (dict_set dct k w'). split; [apply lookup_insert_eq|].
      now apply (dict_set_keys dct k w' w).
    + lia.
Qed.

Lemma same_frame_epoch_body X Y weights epsilon losses s :
  same_frame weights s (fst (epoch_body X Y weights epsilon losses s)).
Proof.
  unfold epoch_body. unfold bind at 1.
  pose proof (same_frame_back_propagation X Y weights s) as Hb.
  destruct (back_propagation X Y weights s) as [s1 [[gradients L]|e]];
    simpl in Hb; [| exact Hb].
  unfold bind at 1.
  pose proof (reads_only_keys weights s1) as Hk.
  destruct (keys weights s1) as [s2 [names|e]]; simpl in Hk; subst s2;
    [| exact Hb].
  unfold bind at 1.
  pose proof (same_frame_update names weights epsilon gradients s1) as Hu.
  destruct (update names weights epsilon gradients s1) as [s3 [[]|e]];
    simpl in Hu; simpl; eapply same_frame_trans; eassumption.
Qed.

Lemma same_frame_training_loop epochs : forall X Y weights epsilon losses s,
  same_frame weights s
    (fst (training_loop epochs X Y weights epsilon losses s)).
Proof.
  induction epochs as [|epochs IH]; intros X Y weights epsilon losses s.
  - apply same_frame_refl.
  - cbn [training_loop]. unfold bind at 1.
    pose proof (same_frame_epoch_body X Y weights epsilon losses s) as He.
    destruct (epoch_body X Y weights epsilon losses s) as [s1 [losses'|e]];
      simpl in He; [| exact He].
    eapply same_frame_trans; [exact He | apply IH].
Qed.

Lemma fp_update names : forall weights epsilon gradients s,
  fp_calls (fst (update names weights epsilon gradients s)) = fp_calls s.
Proof.
  induction names as [|k ks IH]; intros weights epsilon gradients s.
  - reflexivity.
  - cbn [update]. unfold bind at 1. unfold getitem at 1.
    destruct (store s !! weights) as [dct|] eqn:E; [| reflexivity].
    destruct (dict_get dct k) as [w|e] eqn:Ek; [| reflexivity].
    destruct (dict_get gradients k) as [g|e]; [| reflexivity].
    rewrite bind_lift_ok.
    destruct (np.multiply (Scalar epsilon) g) as [step|e]; [| reflexivity].
    rewrite bind_lift_ok.
    destruct (isub w step) as [w'|e]; [| reflexivity].
    rewrite bind_lift_ok.
    unfold bind at 1. unfold setitem at 1. rewrite E.
    now rewrite IH.
Qed.

Lemma fp_epoch_body X Y weights epsilon losses s :
  (fp_calls (fst (epoch_body X Y weights epsilon losses s)) <= S (fp_calls s))%nat.
Proof.
  unfold epoch_body. unfold bind at 1.
  pose proof (back_propagation_state X Y weights s) as Hb.
  destruct (back_propagation X Y weights s) as [s1 [[gradients L]|e]];
    simpl in Hb.
  - unfold bind at 1.
    pose proof (reads_only_keys weights s1) as Hk.
    destruct (keys weights s1) as [s2 [names|e]]; simpl in Hk; subst s2.
    + unfold bind at 1.
      pose proof (fp_update names weights epsilon gradients s1) as Hu.
      destruct (update names weights epsilon gradients s1) as [s3 [[]|e]];
        simpl in Hu; simpl; rewrite Hu; subst s1;
        destruct (shape0 X); simpl; lia.
    + simpl. subst s1. destruct (shape0 X); simpl; lia.
  - simpl. subst s1. destruct (shape0 X); simpl; lia.
Qed.

Lemma fp_training_loop epochs : forall X Y weights epsilon losses s,
  (fp_calls (fst (training_loop epochs X Y weights epsilon losses s))
   <= fp_calls s + epochs)%nat.
Proof.
  induction epochs as [|epochs IH]; intros X Y weights epsilon losses s.
  - simpl. lia.
  - cbn [training_loop]. unfold bind at 1.
    pose proof (fp_epoch_body X Y weights epsilon losses s) as He.
    destruct (epoch_body X Y weights epsilon losses s) as [s1 [losses'|e]];
      simpl in He.
    + specialize (IH X Y weights epsilon losses' s1). lia.
    + simpl. lia.
Qed.

(** X11.  Whatever its inputs and whatever its outcome, a training run
    neither adds, removes nor moves a key of the dictionary it is given
    (it only replaces the values under the keys), and it makes at most one
    forward pass per epoch. *)
Theorem train_frame X Y weights epochs epsilon s :
  let s' := fst (train X Y weights epochs epsilon s) in
  (forall dct, store s !! weights = Some dct ->
     exists dct', store s' !! weights = Some dct'
                  /\ dict_keys dct' = dict_keys dct) /\
  (fp_calls s <= fp_calls s' <= fp_calls s + epochs)%nat.
Proof.
  destruct (same_frame_training_loop epochs X Y weights epsilon [] s)
    as (_ & C & D).
  pose proof (fp_training_loop epochs X Y weights epsilon [] s) as U.
  repeat split; assumption.
Qed.

(** ** Resuming a training run *)

Lemma epoch_body_acc X Y weights epsilon losses s :
  epoch_body X Y weights epsilon losses s
  = match epoch_body X Y weights epsilon [] s with
    | (s', Ok l) => (s', Ok (losses ++ l))
    | (s', Raise e) => (s', Raise e)
    end.
Proof.
  unfold epoch_body, bind.
  destruct (back_propagation X Y weights s) as [s1 [[gradients L]|e]];
    [| reflexivity].
  destruct (keys weights s1) as [s2 [names|e]]; [| reflexivity].
  destruct (update names weights epsilon gradients s2) as [s3 [[]|e]];
    reflexivity.
Qed.

Lemma training_loop_acc epochs : forall X Y weights epsilon losses s,
  training_loop epochs X Y weights epsilon losses s
  = match training_loop epochs X Y weights epsilon [] s with
    | (s', Ok l) => (s', Ok (losses ++ l))
    | (s', Raise e) => (s', Raise e)
    end.
Proof.
  induction epochs as [|epochs IH]; intros X Y weights epsilon losses s.
  - cbn [training_loop]. unfold ret. now rewrite app_nil_r.
  - cbn [training_loop]. unfold bind.
    rewrite (epoch_body_acc X Y weights epsilon losses s).
    destruct (epoch_body X Y weights epsilon [] s) as [s1 [l1|e]];
      [| reflexivity].
    rewrite (IH X Y weights epsilon (losses ++ l1) s1).
    rewrite (IH X Y weights epsilon l1 s1).
    destruct (training_loop epochs X Y weights epsilon [] s1) as [s2 [l2|e]];
      [| reflexivity].
    now rewrite app_assoc.
Qed.

Lemma training_loop_plus E1 E2 : forall X Y weights epsilon losses s,
  training_loop (E1 + E2) X Y weights epsilon losses s
  = match training_loop E1 X Y weights epsilon losses s with
    | (s1, Ok l1) => training_loop E2 X Y weights epsilon l1 s1
    | (s1, Raise e) => (s1, Raise e)
    end.
Proof.
  induction E1 as [|E1 IH]; intros X Y weights epsilon losses s.
  - reflexivity.
  - cbn [Nat.add training_loop]. unfold bind.
    destruct (epoch_body X Y weights epsilon losses s) as [s1 [l1|e]];
      [apply IH | reflexivity].
Qed.

(** X12.  Training can be resumed: for every input, a run of [E1 + E2]
    epochs ends in the state, and returns the loss history, of a run of
    [E1] epochs followed by a run of [E2] epochs on the parameters it left
    (the two histories appended); if the first run raises, so does the
    whole, in the same state. *)
Theorem train_resumes X Y weights E1 E2 epsilon s :
  train X Y weights (E1 + E2) epsilon s
  = match train X Y weights E1 epsilon s with
    | (s1, Ok l1) =>
        match train X Y weights E2 epsilon s1 with
        | (s2, Ok l2) => (s2, Ok (l1 ++ l2))
        | (s2, Raise e) => (s2, Raise e)
        end
    | (s1, Raise e) => (s1, Raise e)
    end.
Proof.
  unfold train. rewrite training_loop_plus.
  destruct (training_loop E1 X Y weights epsilon [] s) as [s1 [l1|e]];
    [| reflexivity].
  apply training_loop_acc.
Qed.

(** ** A learning rate of zero *)

Lemma descent_step_zero N d X Y_T p :
  consistent_pset d 3 p -> descent_step N d 0 X Y_T p = p.
Proof.
  destruct p as [W1 b1 W2 b2]. intros (Hh & HW1 & Hb1 & HW2).
  cbn [pW1 pb1 pW2 pb2] in *. unfold descent_step. cbn [pW1 pb1 pW2 pb2].
  f_equal.
  - pose proof (Mat_tabulate d W1 HW1) as E. unfold mat_of in E.
    injection E as E. rewrite Hh in E.
    etransitivity; [| symmetry; exact E].
    apply tabulate_ext. intros j _. apply tabulate_ext. intros k _. ring.
  - etransitivity; [| symmetry; apply (tabulate_of_list b1 0)].
    rewrite Hb1. apply tabulate_ext. intros j _. unfold at1. ring.
  - etransitivity; [| symmetry; apply (tabulate_of_list W2 0)].
    rewrite HW2. apply tabulate_ext. intros j _. unfold at1. ring.
  - ring.
Qed.

Lemma params_after_zero N d X Y_T p i :
  consistent_pset d 3 p -> params_after N d 0 X Y_T i p = p.
Proof.
  intros Hp. induction i as [|i IH]; [reflexivity|].
  rewrite <- params_after_shift, descent_step_zero by assumption. exact IH.
Qed.

(** X13.  Over exact real arithmetic, where every gradient is a number:
    with learning rate 0 the training loop changes nothing but the count
    of forward passes; the store is the same after [E] epochs, and the
    history holds [E] times the loss of the initial parameters.  (Over
    binary64 a gradient that is not a number makes [P - 0 * g] not a
    number.) *)
Theorem train_zero_learning_rate N d X Y_T p weights epochs s :
  (0 < N)%nat -> batch N d X -> length Y_T = N -> consistent_pset d 3 p ->
  store s !! weights = Some (params_of d p) ->
  train (Mat d X) (Vec Y_T) weights epochs 0 s
  = (mkState (store s) (fp_calls s + epochs),
     Ok (repeat (Scalar (loss_of N d X Y_T p)) epochs)).
Proof.
  intros HN HX HY Hp Hst. unfold train.
  rewrite (training_loop_run N d 0 X Y_T weights HN HX HY epochs p [] s Hp Hst).
  rewrite params_after_zero by assumption.
  rewrite insert_id by exact Hst. cbn [app]. do 3 f_equal.
  rewrite tabulate_const. apply tabulate_ext. intros i _.
  now rewrite params_after_zero.
Qed.

Lemma train_zero_learning_rate_witness :
  train (Mat 2 scenario_X) (Vec [1]) 0%nat 3 0 scenario_state
  = (mkState (store scenario_state) (fp_calls scenario_state + 3),
     Ok (repeat (Scalar (loss_of 1 2 scenario_X [1] scenario_pset)) 3)).
Proof.
  apply (train_zero_learning_rate 1 2 scenario_X [1] scenario_pset 0%nat 3
           scenario_state).
  - lia.
  - split; [reflexivity | repeat constructor].
  - reflexivity.
  - repeat split; repeat constructor.
  - reflexivity.
Defined.

(** ** The loss is positive, and the output gradients are mean residuals *)

Lemma Rsum_pos n f :
  (0 < n)%nat -> (forall i, (i < n)%nat -> 0 < f i) -> 0 < Rsum n f.
Proof.
  revert f. induction n as [|n IH]; intros f Hn Hf; [lia|].
  rewrite Rsum_S. destruct n as [|n].
  - unfold Rsum, tabulate. simpl. pose proof (Hf 0%nat ltac:(lia)). lra.
  - pose proof (Hf 0%nat ltac:(lia)).
    pose proof (IH (fun i => f (S i)) ltac:(lia)
                  (fun i Hi => Hf (S i) ltac:(lia))).
    lra.
Qed.

Lemma loss_of_pos N d X Y_T p :
  (0 < N)%nat -> (forall n, (n < N)%nat -> 0 <= at1 Y_T n <= 1) ->
  0 < loss_of N d X Y_T p.
Proof.
  intros HN Hlab. unfold loss_of, spec_L.
  apply Rmult_lt_0_compat.
  - apply Rdiv_lt_0_compat; [lra | apply lt_0_INR; lia].
  - apply Rsum_pos; [assumption|]. intros n Hn.
    unfold spec_Y.
    set (z := spec_Z2 d 3 X (pW1 p) (pb1 p) (pW2 p) (pb2 p) n).
    destruct (expit_range z) as [H0 H1].
    assert (Ha : ln (expit z) < 0)
      by (rewrite <- ln_1; apply ln_increasing; lra).
    assert (Hb : ln (1 - expit z) < 0)
      by (rewrite <- ln_1; apply ln_increasing; lra).
    specialize (Hlab n Hn). nra.
Qed.

(** X14.  For labels between 0 and 1 the loss returned by
    [back_propagation] on a well-shaped batch is strictly positive. *)
Theorem loss_is_positive N d X Y_T p weights s :
  (0 < N)%nat -> batch N d X -> length Y_T = N -> consistent_pset d 3 p ->
  store s !! weights = Some (params_of d p) ->
  (forall n, (n < N)%nat -> 0 <= at1 Y_T n <= 1) ->
  exists gradients L,
    snd (back_propagation (Mat d X) (Vec Y_T) weights s)
    = Ok (gradients, Scalar L) /\ 0 < L.
Proof.
  intros HN HX HY Hp Hst Hlab. eexists _, _. split.
  - now rewrite (back_propagation_returns N d X Y_T p weights s).
  - now apply loss_of_pos.
Qed.

Lemma loss_is_positive_witness :
  exists gradients L,
    snd (back_propagation (Mat 2 scenario_X) (Vec [1]) 0%nat scenario_state)
    = Ok (gradients, Scalar L) /\ 0 < L.
Proof.
  apply (loss_is_positive 1 2 scenario_X [1] scenario_pset 0%nat scenario_state).
  - lia.
  - split; [reflexivity | repeat constructor].
  - reflexivity.
  - repeat split; repeat constructor.
  - reflexivity.
  - intros n Hn. assert (n = 0%nat) as -> by lia. unfold at1. simpl. lra.
Defined.

(** ** The data generators *)

Lemma tabulate_app {A} n m (f g : nat -> A) :
  tabulate n f ++ tabulate m g
  = tabulate (n + m) (fun i => if (i <? n)%nat then f i else g (i - n)%nat).
Proof.
  revert f. induction n as [|n IH]; intros f.
  - simpl. apply tabulate_ext. intros i _. now rewrite Nat.sub_0_r.
  - cbn [Nat.add]. rewrite !tabulate_S. cbn [app]. f_equal.
    rewrite IH. apply tabulate_ext. intros i _. reflexivity.
Qed.

Lemma full_vec_of n v : full n v = vec_of n (fun _ => v).
Proof. unfold full, vec_of. now rewrite tabulate_const. Qed.

Lemma concatenate_vec_of n m f f' :
  concatenate (vec_of n f) (vec_of m f') 0
  = GOk (vec_of (n + m) (fun i => if (i <? n)%nat then f i else f' (i - n)%nat)).
Proof. unfold vec_of. cbn [concatenate]. now rewrite tabulate_app. Qed.

Lemma concatenate_rows r r' c f f' :
  concatenate (mat_of r c f) (mat_of r' c f') 0
  = GOk (mat_of (r + r') c
           (fun i j => if (i <? r)%nat then f i j else f' (i - r)%nat j)).
Proof.
  unfold mat_of. cbn [concatenate]. rewrite Nat.eqb_refl, tabulate_app.
  do 2 f_equal. apply tabulate_ext. intros i _.
  now destruct (i <? r)%nat.
Qed.

Lemma concatenate_columns r c c' f f' :
  concatenate (mat_of r c f) (mat_of r c' f') 1
  = GOk (mat_of r (c + c')
           (fun i j => if (j <? c)%nat then f i j else f' i (j - c)%nat)).
Proof.
  unfold mat_of. cbn [concatenate].
  rewrite !tabulate_length, Nat.eqb_refl, zip_with_tabulate.
  do 2 f_equal. apply tabulate_ext. intros i _. apply tabulate_app.
Qed.

Lemma firstn_tabulate {A} k n (f : nat -> A) :
  (k <= n)%nat -> firstn k (tabulate n f) = tabulate k f.
Proof.
  intros Hk. unfold tabulate. rewrite firstn_map, take_seq.
  now rewrite Nat.min_l.
Qed.

Lemma reshape_vec_of r c g :
  reshape (vec_of (r * c) g) r c
  = Ok (mat_of r c (fun i j => g (i * c + j)%nat)).
Proof.
  unfold reshape, vec_of, mat_of. simpl ravel.
  rewrite tabulate_length, Nat.eqb_refl. do 2 f_equal.
  apply tabulate_ext. intros i Hi.
  rewrite skipn_tabulate. apply firstn_tabulate. nia.
Qed.

Section GeneratorFacts.
Context {G : Type} `{RandomState G}.

Lemma sample_run (f : G -> R * G) n : forall g,
  sample f n g = (after f n g, tabulate n (fun i => draw f i g)).
Proof.
  induction n as [|n IH]; intros g; [reflexivity|].
  cbn [sample after]. destruct (f g) as [x g1] eqn:E.
  rewrite IH, tabulate_S. unfold draw. cbn [after]. rewrite E.
  reflexivity.
Qed.

Lemma gbind_uniform {B} low high n (k : ndarray -> @Gen G B) g :
  gbind (uniform low high n) k g
  = k (vec_of n (fun i => low + (high - low) * draw random_sample i g))
      (after random_sample n g).
Proof.
  unfold gbind, uniform. rewrite sample_run, tabulate_map. reflexivity.
Qed.

Lemma gbind_normal {B} loc scale n (k : ndarray -> @Gen G B) g :
  gbind (normal loc scale n) k g
  = k (vec_of n (fun i => loc + scale * draw standard_normal i g))
      (after standard_normal n g).
Proof.
  unfold gbind, normal. rewrite sample_run, tabulate_map. reflexivity.
Qed.

Lemma gbind_glift_ok {A B} (a : A) (k : A -> @Gen G B) g :
  gbind (glift (Ok a)) k g = k a g.
Proof. reflexivity. Qed.

Lemma gbind_gtry_ok {A B} (a : A) (k : A -> @Gen G B) g :
  gbind (gtry (GOk a)) k g = k a g.
Proof. reflexivity. Qed.

Lemma gbind_randn {B} n (k : ndarray -> @Gen G B) g :
  gbind (randn n) k g
  = k (vec_of n (fun i => draw standard_normal i g))
      (after standard_normal n g).
Proof. unfold gbind, randn. now rewrite sample_run. Qed.

Lemma gbind_randn2 {B} r c (k : ndarray -> @Gen G B) g :
  gbind (randn2 r c) k g
  = k (mat_of r c (fun i j => draw standard_normal (i * c + j) g))
      (after standard_normal (r * c) g).
Proof.
  unfold gbind, randn2. rewrite sample_run.
  change (Vec (tabulate (r * c) (fun i => draw standard_normal i g)))
    with (vec_of (r * c) (fun i => draw standard_normal i g)).
  now rewrite reshape_vec_of.
Qed.

End GeneratorFacts.

Ltac gen_step :=
  first
    [ rewrite gbind_uniform | rewrite gbind_normal
    | rewrite gbind_randn | rewrite gbind_randn2
    | rewrite gbind_glift_ok | rewrite gbind_gtry_ok
    | rewrite ufunc1_vec_of | rewrite ufunc2_vec_of
    | rewrite reshape_column
    | rewrite concatenate_columns | rewrite concatenate_rows
    | rewrite concatenate_vec_of | rewrite !full_vec_of ].

Ltac gen_run :=
  unfold np_cos, np_sin, np.multiply; repeat (gen_step; cbv beta zeta).

Section GeneratorRuns.
Context {G : Type} `{RandomState G}.

Lemma generate_dataset_run N g :
  let h := (N / 2)%nat in
  let g1 := after random_sample h g in
  let g2 := after random_sample h g1 in
  let g3 := after random_sample h g2 in
  let g4 := after random_sample h g3 in
  let r1 i := 0 + (5 / 10 - 0) * draw random_sample i g in
  let a1 i := 0 + (2 * PI - 0) * draw random_sample i g1 in
  let r0 i := 6 / 10 + (1 - 6 / 10) * draw random_sample i g2 in
  let a0 i := 0 + (2 * PI - 0) * draw random_sample i g3 in
  generate_dataset N g
  = (g4,
     GOk (mat_of (h + h) 2
            (fun i j =>
               if (i <? h)%nat
               then if (j <? 1)%nat then r1 i * cos (a1 i)
                    else r1 i * sin (a1 i)
               else if (j <? 1)%nat
                    then r0 (i - h)%nat * cos (a0 (i - h)%nat)
                    else r0 (i - h)%nat * sin (a0 (i - h)%nat)),
          vec_of (h + h) (fun i => if (i <? h)%nat then 1 else 0))).
Proof.
  intros h g1 g2 g3 g4 r1 a1 r0 a0. unfold generate_dataset. fold h.
  gen_run. reflexivity.
Qed.


Lemma generate_xor_like_dataset_run N g :
  exists g' F,
    generate_xor_like_dataset N g
    = (g',
       GOk (mat_of (N / 4 + N / 4 + (N / 4 + N / 4)) 2 F,
            vec_of (N / 2 + N / 2)
              (fun i => if (i <? N / 2)%nat then 1 else 0))).
Proof.
  unfold generate_xor_like_dataset. gen_run. eexists _, _. reflexivity.
Qed.

Lemma new_weights_run g :
  exists g' p,
    new_weights g = (g', GOk (params_of 2 p)) /\ consistent_pset 2 3 p.
Proof.
  unfold new_weights, zeros. gen_run. rewrite tabulate_const.
  eexists _, (mkPset _ _ _ 0). split; [reflexivity|].
  unfold consistent_pset, consistent. cbn [pW1 pb1 pW2 pb2].
  split; [reflexivity|].
  split; [repeat constructor|].
  split; reflexivity.
Qed.

End GeneratorRuns.

Lemma halves_and_quarters N :
  (N = 4 * (N / 4) + N mod 4 /\ N mod 4 < 4 /\
   N = 2 * (N / 2) + N mod 2 /\ N mod 2 < 2)%nat.
Proof.
  repeat split.
  - apply Nat.div_mod_eq.
  - apply Nat.mod_upper_bound. lia.
  - apply Nat.div_mod_eq.
  - apply Nat.mod_upper_bound. lia.
Qed.

Lemma Forall_tabulate {A} (P : A -> Prop) n f :
  (forall i, (i < n)%nat -> P (f i)) -> List.Forall P (tabulate n f).
Proof.
  intros Hf. unfold tabulate. apply List.Forall_forall. intros x Hx.
  apply in_map_iff in Hx. destruct Hx as (i & <- & Hi).
  apply in_seq in Hi. apply Hf. lia.
Qed.

(** X15.  [generate_dataset] returns, whatever the generator draws (each
    uniform draw lying in [[0, 1)]), a batch of [2 * (N_points // 2)]
    points of the plane with as many labels; the first half is labelled 1
    and lies strictly inside the circle of radius 1/2, the second half is
    labelled 0 and lies in the ring of radii 6/10 to 1: the two classes
    are separated by their distance from the origin. *)
Theorem generate_dataset_separates_classes
    {G : Type} `{RandomState G} N (g : G) :
  (forall g0, 0 <= fst (random_sample g0) < 1) ->
  exists X Y g',
    generate_dataset N g = (g', GOk (Mat 2 X, Vec Y)) /\
    batch (2 * (N / 2)) 2 X /\ length Y = (2 * (N / 2))%nat /\
    (forall n, (n < N / 2)%nat ->
       at1 Y n = 1 /\
       at2 X n 0 * at2 X n 0 + at2 X n 1 * at2 X n 1 < 1 / 4) /\
    (forall n, (N / 2 <= n < 2 * (N / 2))%nat ->
       at1 Y n = 0 /\
       9 / 25 <= at2 X n 0 * at2 X n 0 + at2 X n 1 * at2 X n 1 < 1).
Proof.
  intros Hrange. rewrite generate_dataset_run.
  set (h := (N / 2)%nat).
  assert (Hcircle : forall r a,
            r * cos a * (r * cos a) + r * sin a * (r * sin a) = r * r).
  { intros r a. pose proof (sin2_cos2 a) as E. unfold Rsqr in E.
    replace (r * cos a * (r * cos a) + r * sin a * (r * sin a))
      with (r * r * (sin a * sin a + cos a * cos a)) by ring.
    rewrite E. ring. }
  unfold mat_of, vec_of. eexists _, _, _. split; [reflexivity|].
  split; [| split; [| split]].
  - split; [rewrite tabulate_length; lia | apply (wf_mat_of (h + h) 2)].
  - rewrite tabulate_length. lia.
  - intros n Hn.
    rewrite at1_tabulate, !at2_tabulate by lia.
    assert (E : (n <? h)%nat = true) by (apply Nat.ltb_lt; lia).
    rewrite E. cbn [Nat.ltb Nat.leb]. split; [reflexivity|].
    rewrite Hcircle.
    unfold draw. destruct (Hrange (after random_sample n g)). nra.
  - intros n Hn.
    rewrite at1_tabulate, !at2_tabulate by lia.
    assert (E : (n <? h)%nat = false) by (apply Nat.ltb_ge; lia).
    rewrite E. cbn [Nat.ltb Nat.leb]. split; [reflexivity|].
    rewrite Hcircle.
    unfold draw.
    destruct (Hrange (after random_sample (n - h)
                        (after random_sample h (after random_sample h g)))).
    nra.
Qed.

Lemma lcg_range (g0 : nat) : 0 <= fst (random_sample g0) < 1.
Proof.
  cbn [random_sample lcg fst].
  assert (Hm : (g0 mod 16 < 16)%nat) by (apply Nat.mod_upper_bound; lia).
  apply lt_INR in Hm. pose proof (pos_INR (g0 mod 16)) as H0.
  assert (E : INR 16 = 16) by (simpl; lra).
  rewrite E in Hm. lra.
Qed.

Lemma generate_dataset_separates_classes_witness :
  exists X Y g',
    @generate_dataset nat lcg 5 1%nat = (g', GOk (Mat 2 X, Vec Y)) /\
    batch (2 * (5 / 2)) 2 X /\ length Y = (2 * (5 / 2))%nat /\
    (forall n, (n < 5 / 2)%nat ->
       at1 Y n = 1 /\
       at2 X n 0 * at2 X n 0 + at2 X n 1 * at2 X n 1 < 1 / 4) /\
    (forall n, (5 / 2 <= n < 2 * (5 / 2))%nat ->
       at1 Y n = 0 /\
       9 / 25 <= at2 X n 0 * at2 X n 0 + at2 X n 1 * at2 X n 1 < 1).
Proof.
  apply (generate_dataset_separates_classes 5 1%nat lcg_range).
Defined.

(** X16.  [generate_xor_like_dataset] returns, whatever the generator
    draws, [4 * (N_points // 4)] points of the plane but
    [2 * (N_points // 2)] labels (the first [N_points // 2] of them 1, the
    others 0): there are as many labels as points exactly when
    [N_points mod 4] is 0 or 1. *)
Theorem generate_xor_like_dataset_shapes {G : Type} `{RandomState G} N (g : G) :
  exists X Y g',
    generate_xor_like_dataset N g = (g', GOk (Mat 2 X, Vec Y)) /\
    batch (4 * (N / 4)) 2 X /\ length Y = (2 * (N / 2))%nat /\
    (forall n, (n < 2 * (N / 2))%nat ->
       at1 Y n = if (n <? N / 2)%nat then 1 else 0) /\
    (length X = length Y <-> (N mod 4 < 2)%nat).
Proof.
  destruct (generate_xor_like_dataset_run N g) as (g' & F & E).
  rewrite E. unfold mat_of, vec_of. eexists _, _, _. split; [reflexivity|].
  pose proof (halves_and_quarters N) as (Q1 & Q2 & Q3 & Q4).
  split; [| split; [| split]].
  - split; [rewrite tabulate_length; lia
           | apply (wf_mat_of (N / 4 + N / 4 + (N / 4 + N / 4)) 2)].
  - rewrite tabulate_length. lia.
  - intros n Hn. now rewrite at1_tabulate by lia.
  - rewrite !tabulate_length. lia.
Qed.

(** X17.  Training on the output of [generate_xor_like_dataset], for
    [N_points >= 4] and well-shaped parameters: when [N_points mod 4] is 0
    or 1 the loop runs all its epochs; when it is 2 or 3 the first
    iteration raises the broadcast error of NumPy in the line of the loss
    (labels and predictions differ in number), and the parameters are
    left as they were. *)
Theorem xor_training_outcome {G : Type} `{RandomState G} N (g : G)
    p weights s epochs epsilon :
  (4 <= N)%nat -> consistent_pset 2 3 p ->
  store s !! weights = Some (params_of 2 p) ->
  exists X Y g',
    generate_xor_like_dataset N g = (g', GOk (X, Y)) /\
    ((N mod 4 < 2)%nat ->
       exists losses s',
         train X Y weights epochs epsilon s = (s', Ok losses) /\
         length losses = epochs) /\
    ((2 <= N mod 4)%nat ->
       train X Y weights (S epochs) epsilon s
       = (entered s,
          Raise (ValueError_broadcast [(2 * (N / 2))%nat] [(4 * (N / 4))%nat]))).
Proof.
  intros HN Hp Hst.
  destruct (generate_xor_like_dataset_run N g) as (g' & F & E).
  rewrite E. unfold mat_of, vec_of. eexists _, _, _. split; [reflexivity|].
  pose proof (halves_and_quarters N) as (Q1 & Q2 & Q3 & Q4).
  set (q := (N / 4 + N / 4 + (N / 4 + N / 4))%nat).
  set (X := tabulate q (fun i => tabulate 2 (F i))).
  set (Y := tabulate (N / 2 + N / 2)
              (fun i => if (i <? N / 2)%nat then 1 else 0)).
  assert (HX : batch q 2 X)
    by (split; [apply tabulate_length | apply (wf_mat_of q 2)]).
  assert (HY : length Y = (N / 2 + N / 2)%nat) by apply tabulate_length.
  assert (Hq : (0 < q)%nat) by (unfold q; lia).
  split.
  - intros Hm. assert (HY' : length Y = q) by (unfold q; lia).
    unfold train.
    rewrite (training_loop_run q 2 epsilon X Y weights Hq HX HY'
               epochs p [] s Hp Hst).
    eexists _, _. split; [reflexivity|].
    cbn [app]. apply tabulate_length.
  - intros Hm. unfold train. cbn [training_loop].
    unfold bind at 1. unfold epoch_body. unfold bind at 1.
    rewrite (back_propagation_mismatch_run q 2 X (pW1 p) (pb1 p) (pW2 p)
               (pb2 p) Y weights s Hq HX Hp Hst);
      [| unfold q; lia ..].
    rewrite HY. do 3 f_equal; [f_equal; lia | unfold q; f_equal; lia].
Qed.

Lemma xor_training_outcome_witness :
  exists X Y g',
    @generate_xor_like_dataset nat lcg 6 1%nat = (g', GOk (X, Y)) /\
    ((6 mod 4 < 2)%nat ->
       exists losses s',
         train X Y 0%nat 3 1 scenario_state = (s', Ok losses) /\
         length losses = 3%nat) /\
    ((2 <= 6 mod 4)%nat ->
       train X Y 0%nat (S 3) 1 scenario_state
       = (entered scenario_state,
          Raise (ValueError_broadcast [(2 * (6 / 2))%nat] [(4 * (6 / 4))%nat]))).
Proof.
  apply (xor_training_outcome 6 1%nat scenario_pset 0%nat scenario_state 3 1).
  - lia.
  - repeat split; repeat constructor.
  - reflexivity.
Defined.

(** X18.  The notebook's first experiment runs to its end: for
    [N_points >= 2], whatever the generator draws, training the
    parameters of the cell that creates them on the output of
    [generate_dataset] raises no exception; it makes one forward pass per
    epoch and records one loss per epoch, each strictly positive. *)
Theorem notebook_training_runs {G : Type} `{RandomState G} N (g : G)
    epochs epsilon :
  (2 <= N)%nat ->
  exists X Y g1 w g2,
    generate_dataset N g = (g1, GOk (X, Y)) /\
    new_weights g1 = (g2, GOk w) /\
    forall weights s, store s !! weights = Some w ->
      exists losses s',
        train X Y weights epochs epsilon s = (s', Ok losses) /\
        length losses = epochs /\
        fp_calls s' = (fp_calls s + epochs)%nat /\
        List.Forall (fun L => exists x, L = Scalar x /\ 0 < x) losses.
Proof.
  intros HN. rewrite generate_dataset_run.
  set (h := (N / 2)%nat).
  match goal with
  | |- context [(?g1, GOk (mat_of (h + h) 2 ?F, vec_of (h + h) ?L))] =>
      set (X := tabulate (h + h) (fun i => tabulate 2 (F i)));
      set (Y := tabulate (h + h) L);
      destruct (new_weights_run g1) as (g2 & p & Ew & Hp)
  end.
  exists (Mat 2 X), (Vec Y). eexists _, _, _. split; [reflexivity|].
  split; [exact Ew|].
  intros weights s Hst.
  pose proof (halves_and_quarters N) as (_ & _ & Q3 & Q4).
  assert (Hh : (0 < h + h)%nat) by (unfold h; lia).
  assert (HX : batch (h + h) 2 X)
    by (split; [apply tabulate_length | apply (wf_mat_of (h + h) 2)]).
  assert (HY : length Y = (h + h)%nat) by apply tabulate_length.
  unfold train.
  rewrite (training_loop_run (h + h) 2 epsilon X Y weights Hh HX HY
             epochs p [] s Hp Hst).
  eexists _, _. split; [reflexivity|]. cbn [app fp_calls].
  split; [apply tabulate_length|]. split; [reflexivity|].
  apply Forall_tabulate. intros i _. eexists. split; [reflexivity|].
  apply loss_of_pos; [exact Hh|].
  intros n Hn. unfold Y. rewrite at1_tabulate by exact Hn.
  destruct (n <? h)%nat; lra.
Qed.

Lemma notebook_training_runs_witness :
  exists X Y g1 w g2,
    @generate_dataset nat lcg 4 1%nat = (g1, GOk (X, Y)) /\
    new_weights g1 = (g2, GOk w) /\
    forall weights s, store s !! weights = Some w ->
      exists losses s',
        train X Y weights 3 1 s = (s', Ok losses) /\
        length losses = 3%nat /\
        fp_calls s' = (fp_calls s + 3)%nat /\
        List.Forall (fun L => exists x, L = Scalar x /\ 0 < x) losses.
Proof.
  apply (notebook_training_runs 4 1%nat 3 1). lia.
Defined.

(** ** The visualization *)

Lemma tile_tabulate n (f : nat -> R) reps :
  tile (tabulate n f) reps = tabulate (reps * n) (fun k => f (k mod n)%nat).
Proof.
  unfold tile. induction reps as [|reps IH]; [reflexivity|].
  cbn [repeat concat Nat.mul]. rewrite IH, tabulate_app.
  apply tabulate_ext. intros i Hi.
  destruct (i <? n)%nat eqn:E.
  - apply Nat.ltb_lt in E. now rewrite Nat.mod_small.
  - apply Nat.ltb_ge in E.
    replace i with (i - n + 1 * n)%nat at 2 by lia.
    now rewrite Nat.Div0.mod_add.
Qed.

Lemma np_repeat_tabulate n repeats : forall f : nat -> R,
  np_repeat (tabulate n f) repeats
  = tabulate (n * repeats) (fun k => f (k / repeats)%nat).
Proof.
  unfold np_repeat. induction n as [|n IH]; intros f; [reflexivity|].
  rewrite tabulate_S. cbn [flat_map Nat.mul].
  rewrite IH, tabulate_const, tabulate_app.
  apply tabulate_ext. intros i Hi.
  destruct (i <? repeats)%nat eqn:E.
  - apply Nat.ltb_lt in E. now rewrite Nat.div_small.
  - apply Nat.ltb_ge in E.
    assert (Hr : repeats <> 0%nat) by lia.
    replace i with (i - repeats + 1 * repeats)%nat at 2 by lia.
    rewrite Nat.div_add by exact Hr. f_equal. lia.
Qed.

Lemma meshgrid_tabulate n m f g :
  meshgrid (tabulate n f) (tabulate m g)
  = (mat_of m n (fun _ j => f j), mat_of m n (fun i _ => g i)).
Proof.
  unfold meshgrid, mat_of. rewrite tabulate_length, !tabulate_map.
  do 2 f_equal. apply tabulate_ext. intros i _. now rewrite tabulate_map.
Qed.

Lemma transpose_pair_tabulate n a b :
  transpose_pair (tabulate n a) (tabulate n b)
  = POk (mat_of n 2 (fun i j => match j with O => a i | _ => b i end)).
Proof.
  unfold transpose_pair. rewrite !tabulate_length, Nat.eqb_refl.
  change (Mat n [tabulate n a; tabulate n b])
    with (mat_of 2 n (fun i j => match i with O => a j | _ => b j end)).
  now rewrite T_mat_of.
Qed.

Lemma amin_ok a : ravel a <> [] -> exists lo, amin a = POk lo.
Proof. unfold amin. destruct (ravel a); [congruence | eauto]. Qed.

Lemma amax_ok a : ravel a <> [] -> exists hi, amax a = POk hi.
Proof. unfold amax. destruct (ravel a); [congruence | eauto]. Qed.

Lemma pbind_ptry_ok {A B} (a : A) (k : A -> Plot B) st :
  pbind (ptry (POk a)) k st = k a st.
Proof. reflexivity. Qed.

Lemma pbind_plift_ok {A B} (a : A) (k : A -> Plot B) st :
  pbind (plift (Ok a)) k st = k a st.
Proof. reflexivity. Qed.

Lemma pbind_emit {B} c (k : unit -> Plot B) s out :
  pbind (emit c) k (s, out) = k tt (s, out ++ [c]).
Proof. reflexivity. Qed.

Lemma pbind_pret {A B} (a : A) (k : A -> Plot B) st :
  pbind (pret a) k st = k a st.
Proof. reflexivity. Qed.

Lemma pbind_assoc {A B C} (c : Plot A) (k1 : A -> Plot B) (k2 : B -> Plot C) st :
  pbind (pbind c k1) k2 st = pbind c (fun x => pbind (k1 x) k2) st.
Proof. unfold pbind. destruct (c st) as [st' [a|e]]; reflexivity. Qed.

Lemma pbind_run_M {A B} (c : M A) (k : A -> Plot B) s out s' a :
  c s = (s', Ok a) -> pbind (run_M c) k (s, out) = k a (s', out).
Proof. intros E. unfold pbind, run_M. now rewrite E. Qed.

Lemma spec_Y_row d h X W1 b1 W2 b2 n :
  spec_Y d h X W1 b1 W2 b2 n = spec_Y d h [nth n X []] W1 b1 W2 b2 0.
Proof. reflexivity. Qed.

Ltac plot_step :=
  first
    [ rewrite pbind_ptry_ok | rewrite pbind_plift_ok | rewrite pbind_emit
    | rewrite pbind_pret ].

(** X19.  The heat map of [visualization] is aligned with its axes: on a
    non-empty data set of points of the plane and well-shaped parameters,
    the function makes one forward pass, leaves the store as it was, and
    calls [plt.pcolormesh] with three square grids of side
    [N_test_points] in which the colour [C[r][c]] is the prediction that
    [forward_propagation] returns for the point [(X1[r][c], X2[r][c])],
    where [X1[r][c] = xs[c]] and [X2[r][c] = xs[r]]; the other calls of
    [plt] follow in the order of the source, the first [N_points // 2]
    rows of the data in red and the other rows in blue when the
    training data is superposed. *)
Theorem visualization_draws_predictions N_points p weights m ttl sup s out :
  consistent_pset 2 3 p -> store s !! weights = Some (params_of 2 p) ->
  wf (Mat 2 m) -> m <> [] ->
  exists (xs : nat -> R) X1 X2 C,
    visualization N_points weights (Mat 2 m) ttl sup (s, out)
    = ((entered s,
        out ++ [plt.pcolormesh (Mat N_test_points X1) (Mat N_test_points X2)
                  (Mat N_test_points C);
                plt.colorbar "P(1)"]
            ++ (if sup
                then [plt.scatter (Vec (column 0 (firstn (N_points / 2) m)))
                        (Vec (column 1 (firstn (N_points / 2) m))) "red";
                      plt.scatter (Vec (column 0 (skipn (N_points / 2) m)))
                        (Vec (column 1 (skipn (N_points / 2) m))) "blue"]
                else [])
            ++ [plt.title ttl; plt.show]),
       POk tt) /\
    forall r c, (r < N_test_points)%nat -> (c < N_test_points)%nat ->
      at2 X1 r c = xs c /\ at2 X2 r c = xs r /\
      exists Z2 H Z1,
        snd (forward_propagation (Mat 2 [[at2 X1 r c; at2 X2 r c]]) weights s)
        = Ok (Vec [at2 C r c], Z2, H, Z1).
Proof.
  intros Hp Hst Hwf Hm.
  assert (Hne : ravel (Mat 2 m) <> []).
  { destruct m as [|row m']; [congruence|].
    inversion Hwf as [|? ? Hrow _]. subst.
    destruct row; [discriminate|]. discriminate. }
  destruct (amin_ok _ Hne) as [lo Elo].
  destruct (amax_ok _ Hne) as [hi Ehi].
  unfold visualization. generalize N_test_points. intros n.
  rewrite Elo, Ehi. unfold linspace.
  set (xs := fun i => INR i * ((11 / 10 * hi - 11 / 10 * lo) / INR (n - 1))
                      + 11 / 10 * lo).
  rewrite !pbind_ptry_ok. cbv zeta.
  rewrite tabulate_length, tile_tabulate, np_repeat_tabulate,
    transpose_pair_tabulate, pbind_ptry_ok.
  set (pts := fun i j : nat =>
                match j with O => xs (i mod n)%nat | S _ => xs (i / n)%nat end).
  change (mat_of (n * n) 2 _) with (Mat 2 (tabulate (n * n)
                                            (fun i => tabulate 2 (pts i)))).
  set (D := tabulate (n * n) (fun i => tabulate 2 (pts i))).
  assert (HD : batch (n * n) 2 D)
    by (split; [apply tabulate_length | apply (wf_mat_of (n * n) 2)]).
  rewrite (pbind_run_M _ _ s out _ _
             (forward_propagation_run (n * n) 2 3 D (pW1 p) (pb1 p) (pW2 p)
                (pb2 p) weights s HD Hp Hst)).
  rewrite reshape_vec_of, pbind_plift_ok.
  fold (tabulate n xs). rewrite meshgrid_tabulate.
  rewrite !pbind_emit.
  set (C := fun i j => spec_Y 2 3 D (pW1 p) (pb1 p) (pW2 p) (pb2 p)
                         (i * n + j)).
  exists xs.
  exists (tabulate n (fun _ => tabulate n xs)).
  exists (tabulate n (fun i => tabulate n (fun _ => xs i))).
  exists (tabulate n (fun i => tabulate n (C i))).
  split.
  - destruct sup.
    + cbn [slice_col Nat.ltb Nat.leb].
      repeat (rewrite ?pbind_assoc; plot_step; cbv beta). unfold emit.
      rewrite <- !app_assoc. reflexivity.
    + rewrite pbind_pret, !pbind_emit. unfold emit.
      rewrite <- !app_assoc. reflexivity.
  - intros r c Hr Hc. rewrite !at2_tabulate by assumption.
    split; [reflexivity|]. split; [reflexivity|].
    assert (H1 : batch 1 2 [[xs c; xs r]])
      by (split; [reflexivity | repeat constructor]).
    rewrite (forward_propagation_run 1 2 3 [[xs c; xs r]] (pW1 p) (pb1 p)
               (pW2 p) (pb2 p) weights s H1 Hp Hst).
    cbn [snd]. eexists _, _, _. f_equal. f_equal. f_equal. f_equal.
    unfold vec_of. cbn [tabulate seq map]. f_equal. f_equal.
    unfold C. rewrite (spec_Y_row 2 3 D).
    unfold D. rewrite tabulate_nth by nia.
    cbn [tabulate seq map]. unfold pts.
    assert (E1 : ((r * n + c) mod n = c)%nat)
      by (rewrite Nat.add_comm, Nat.Div0.mod_add; now apply Nat.mod_small).
    assert (E2 : ((r * n + c) / n = r)%nat)
      by (rewrite Nat.add_comm, Nat.div_add by lia;
          rewrite Nat.div_small by assumption; reflexivity).
    now rewrite E1, E2.
Qed.

Lemma visualization_draws_predictions_witness :
  exists (xs : nat -> R) X1 X2 C,
    visualization 2 0%nat (Mat 2 scenario_X) "after" true (scenario_state, [])
    = ((entered scenario_state,
        [] ++ [plt.pcolormesh (Mat N_test_points X1) (Mat N_test_points X2)
                  (Mat N_test_points C);
                plt.colorbar "P(1)"]
            ++ (if true
                then [plt.scatter (Vec (column 0 (firstn (2 / 2) scenario_X)))
                        (Vec (column 1 (firstn (2 / 2) scenario_X))) "red";
                      plt.scatter (Vec (column 0 (skipn (2 / 2) scenario_X)))
                        (Vec (column 1 (skipn (2 / 2) scenario_X))) "blue"]
                else [])
            ++ [plt.title "after"; plt.show]),
       POk tt) /\
    forall r c, (r < N_test_points)%nat -> (c < N_test_points)%nat ->
      at2 X1 r c = xs c /\ at2 X2 r c = xs r /\
      exists Z2 H Z1,
        snd (forward_propagation (Mat 2 [[at2 X1 r c; at2 X2 r c]]) 0%nat
               scenario_state)
        = Ok (Vec [at2 C r c], Z2, H, Z1).
Proof.
  apply (visualization_draws_predictions 2 scenario_pset 0%nat scenario_X
           "after" true scenario_state []).
  - repeat split; repeat constructor.
  - reflexivity.
  - repeat constructor.
  - discriminate.
Defined.

(** ** The order of the examples *)

Lemma Rsum_examples (F : list R -> R -> R) X : forall Y N,
  length X = N -> length Y = N ->
  Rsum N (fun n => F (nth n X []) (at1 Y n))
  = Rsum_list (map (fun xy => F (fst xy) (snd xy)) (combine X Y)).
Proof.
  induction X as [|x X IH]; intros Y N HX HY.
  - simpl in HX. subst N. reflexivity.
  - destruct N as [|N]; [discriminate|].
    destruct Y as [|y Y]; [discriminate|].
    rewrite Rsum_S. cbn [combine map Rsum_list fold_right fst snd].
    unfold at1 at 1. cbn [nth]. f_equal.
    apply (IH Y N); simpl in *; lia.
Qed.

Lemma Rsum_list_Permutation l l' :
  Permutation l l' -> Rsum_list l = Rsum_list l'.
Proof.
  induction 1; unfold Rsum_list in *; cbn [fold_right] in *; lra.
Qed.

Lemma Rsum_Permutation (F : list R -> R -> R) N X Y X' Y' :
  length X = N -> length Y = N -> length X' = N -> length Y' = N ->
  Permutation (combine X Y) (combine X' Y') ->
  Rsum N (fun n => F (nth n X []) (at1 Y n))
  = Rsum N (fun n => F (nth n X' []) (at1 Y' n)).
Proof.
  intros HX HY HX' HY' HP.
  rewrite (Rsum_examples F X Y N HX HY), (Rsum_examples F X' Y' N HX' HY').
  apply Rsum_list_Permutation. now apply Permutation_map.
Qed.

Section Order.
Variables (N d : nat) (X X' : list (list R)) (Y_T Y_T' : list R).
Hypothesis HX : length X = N.
Hypothesis HY : length Y_T = N.
Hypothesis HX' : length X' = N.
Hypothesis HY' : length Y_T' = N.
Hypothesis HP : Permutation (combine X Y_T) (combine X' Y_T').

Lemma spec_L_order W1 b1 W2 b2 :
  spec_L N d 3 X W1 b1 W2 b2 Y_T = spec_L N d 3 X' W1 b1 W2 b2 Y_T'.
Proof.
  unfold spec_L. f_equal.
  exact (Rsum_Permutation
           (fun x y => - y * ln (spec_Y d 3 [x] W1 b1 W2 b2 0)
                       - (1 - y) * ln (1 - spec_Y d 3 [x] W1 b1 W2 b2 0))
           N X Y_T X' Y_T' HX HY HX' HY' HP).
Qed.

Lemma spec_dLdW1_order W1 b1 W2 b2 j k :
  spec_dLdW1 N d 3 X W1 b1 W2 b2 Y_T j k
  = spec_dLdW1 N d 3 X' W1 b1 W2 b2 Y_T' j k.
Proof.
  exact (Rsum_Permutation
           (fun x y => spec_dLdZ1 N d 3 [x] W1 b1 W2 b2 [y] 0 j * at2 [x] 0 k)
           N X Y_T X' Y_T' HX HY HX' HY' HP).
Qed.

Lemma spec_dLdb1_order W1 b1 W2 b2 j :
  spec_dLdb1 N d 3 X W1 b1 W2 b2 Y_T j
  = spec_dLdb1 N d 3 X' W1 b1 W2 b2 Y_T' j.
Proof.
  exact (Rsum_Permutation
           (fun x y => spec_dLdZ1 N d 3 [x] W1 b1 W2 b2 [y] 0 j)
           N X Y_T X' Y_T' HX HY HX' HY' HP).
Qed.

Lemma spec_dLdW2_order W1 b1 W2 b2 j :
  spec_dLdW2 N d 3 X W1 b1 W2 b2 Y_T j
  = spec_dLdW2 N d 3 X' W1 b1 W2 b2 Y_T' j.
Proof.
  exact (Rsum_Permutation
           (fun x y => spec_H d [x] W1 b1 0 j
                       * spec_dLdZ2 N d 3 [x] W1 b1 W2 b2 [y] 0)
           N X Y_T X' Y_T' HX HY HX' HY' HP).
Qed.

Lemma spec_dLdb2_order W1 b1 W2 b2 :
  spec_dLdb2 N d 3 X W1 b1 W2 b2 Y_T = spec_dLdb2 N d 3 X' W1 b1 W2 b2 Y_T'.
Proof.
  exact (Rsum_Permutation
           (fun x y => spec_dLdZ2 N d 3 [x] W1 b1 W2 b2 [y] 0)
           N X Y_T X' Y_T' HX HY HX' HY' HP).
Qed.

Lemma spec_gradients_order W1 b1 W2 b2 :
  spec_gradients N d 3 X W1 b1 W2 b2 Y_T
  = spec_gradients N d 3 X' W1 b1 W2 b2 Y_T'.
Proof.
  unfold spec_gradients.
  rewrite (mat_of_ext 3 d _ (spec_dLdW1 N d 3 X' W1 b1 W2 b2 Y_T'))
    by (intros j k _ _; apply spec_dLdW1_order).
  rewrite (vec_of_ext 3 (spec_dLdb1 N d 3 X W1 b1 W2 b2 Y_T)
             (spec_dLdb1 N d 3 X' W1 b1 W2 b2 Y_T'))
    by (intros j _; apply spec_dLdb1_order).
  rewrite (vec_of_ext 3 (spec_dLdW2 N d 3 X W1 b1 W2 b2 Y_T)
             (spec_dLdW2 N d 3 X' W1 b1 W2 b2 Y_T'))
    by (intros j _; apply spec_dLdW2_order).
  now rewrite spec_dLdb2_order.
Qed.

Lemma descent_step_order epsilon p :
  descent_step N d epsilon X Y_T p = descent_step N d epsilon X' Y_T' p.
Proof.
  unfold descent_step. f_equal.
  - apply tabulate_ext. intros j _. apply tabulate_ext. intros k _.
    now rewrite spec_dLdW1_order.
  - apply tabulate_ext. intros j _. now rewrite spec_dLdb1_order.
  - apply tabulate_ext. intros j _. now rewrite spec_dLdW2_order.
  - now rewrite spec_dLdb2_order.
Qed.

Lemma params_after_order epsilon i : forall p,
  params_after N d epsilon X Y_T i p = params_after N d epsilon X' Y_T' i p.
Proof.
  induction i as [|i IH]; intros p; [reflexivity|].
  rewrite <- !params_after_shift, descent_step_order. apply IH.
Qed.

End Order.

(** X20.  Full-batch training does not depend on the order of the
    examples: permuting the rows of the batch together with their labels
    changes neither what [back_propagation] returns (loss and gradients)
    nor the outcome of a training run (final parameters and loss
    history). *)
Theorem training_order_invariance N d X Y_T X' Y_T' p weights s :
  (0 < N)%nat -> batch N d X -> length Y_T = N ->
  batch N d X' -> length Y_T' = N ->
  Permutation (combine X Y_T) (combine X' Y_T') ->
  consistent_pset d 3 p -> store s !! weights = Some (params_of d p) ->
  back_propagation (Mat d X) (Vec Y_T) weights s
  = back_propagation (Mat d X') (Vec Y_T') weights s /\
  forall epochs epsilon,
    train (Mat d X) (Vec Y_T) weights epochs epsilon s
    = train (Mat d X') (Vec Y_T') weights epochs epsilon s.
Proof.
  intros HN HX HY HX' HY' HP Hp Hst.
  pose proof (proj1 HX) as LX. pose proof (proj1 HX') as LX'.
  split.
  - rewrite (back_propagation_returns N d X Y_T p weights s),
      (back_propagation_returns N d X' Y_T' p weights s) by assumption.
    unfold loss_of.
    now rewrite (spec_gradients_order N d X X' Y_T Y_T'),
      (spec_L_order N d X X' Y_T Y_T').
  - intros epochs epsilon. unfold train.
    rewrite (training_loop_run N d epsilon X Y_T weights HN HX HY
               epochs p [] s Hp Hst),
      (training_loop_run N d epsilon X' Y_T' weights HN HX' HY'
               epochs p [] s Hp Hst).
    rewrite (params_after_order N d X X' Y_T Y_T') by assumption.
    do 3 f_equal. apply tabulate_ext. intros i _.
    rewrite (params_after_order N d X X' Y_T Y_T') by assumption.
    unfold loss_of. now rewrite (spec_L_order N d X X' Y_T Y_T').
Qed.

Lemma training_order_invariance_witness :
  back_propagation (Mat 2 [[1; 0]; [0; 1]]) (Vec [1; 0]) 0%nat scenario_state
  = back_propagation (Mat 2 [[0; 1]; [1; 0]]) (Vec [0; 1]) 0%nat scenario_state
  /\
  forall epochs epsilon,
    train (Mat 2 [[1; 0]; [0; 1]]) (Vec [1; 0]) 0%nat epochs epsilon
      scenario_state
    = train (Mat 2 [[0; 1]; [1; 0]]) (Vec [0; 1]) 0%nat epochs epsilon
        scenario_state.
Proof.
  apply (training_order_invariance 2 2 [[1; 0]; [0; 1]] [1; 0]
           [[0; 1]; [1; 0]] [0; 1] scenario_pset 0%nat scenario_state).
  - lia.
  - split; [reflexivity | repeat constructor].
  - reflexivity.
  - split; [reflexivity | repeat constructor].
  - reflexivity.
  - apply perm_swap.
  - repeat split; repeat constructor.
  - reflexivity.
Defined.
